(** * AutoSpotting core: the instance replacement logic of [core/instance.go]

    A shallow embedding of the Go package [autospotting] (file
    [core/instance.go]) and the properties of it that its specification
    states: the instance registry, the compatibility filter and ranker, the
    bid pricer, the EBS volume-type rewrite, the tag list of a spot
    replacement, [terminate] and the swap protocol.

    Conventions of the embedding.

    - [float64] is Rocq's primitive binary64 [float]; the [float32] fields of
      the type catalog are only ever compared, and every binary32 value is a
      binary64 value with the same order, so they are [float] too.  Go's
      [==], [<], [<=] are [PrimFloat.eqb], [ltb], [leb]; [x >= y] is
      [leb y x].
    - [int] and [int64] are [Z]; the one addition on them ([maxSize + 1])
      wraps around at 64 bits.
    - A Go map is a [gmap]; reading a missing key gives the zero value.
    - Pointers.  A pointer the source compares with [nil] somewhere is an
      [option]; a pointer the source only ever dereferences (instance ids,
      the availability zone, the state name, tag keys, the group sizes) is
      modelled by the value it points to.  The volume type and size of the
      three EBS shapes are options in all three, because the
      launch-configuration variant tests the type for [nil] and its two
      siblings do not.  Dereferencing [nil] is the run-time panic [Panic].
    - Calls that leave the file (the AWS SDK, methods of the region and of
      the group that live in other files) are events of an interaction
      tree [prog]; the environment answers them.  Logging is not modelled.
    - [sync.RWMutex] is not modelled: the registry is used sequentially. *)

From Stdlib Require Import ZArith List String Ascii Bool Lia Floats.
From Stdlib Require Import Sorting.Permutation Sorting.Sorted.
From stdpp Require Import gmap strings list fin_maps.

Local Open Scope string_scope.
Local Open Scope list_scope.

(* ===================================================================== *)
(** * Part I: the embedding *)
(* ===================================================================== *)

(** ** The Go run time: panics, and the library functions the file calls *)

Module Go.

(** The outcome of evaluating a Go expression or pure function: a value, or
    the run-time panic of a nil pointer dereference. *)
Inductive result (A : Type) : Type :=
| Ok (a : A)
| Panic.
Arguments Ok {A} a.
Arguments Panic {A}.

Definition bind {A B : Type} (m : result A) (f : A -> result B) : result B :=
  match m with
  | Ok a => f a
  | Panic => Panic
  end.

(** [*p] for a pointer [p] that may be nil. *)
Definition deref {A : Type} (p : option A) : result A :=
  match p with
  | Some a => Ok a
  | None => Panic
  end.

(** Go's [error] values are compared only with [nil] here; the message is
    kept. *)
Definition error : Type := string.

(** [strings.HasPrefix(s, prefix)]. *)
Definition strings_HasPrefix (s prefix : string) : bool := String.prefix prefix s.

(** [strings.Contains(s, substr)]: [substr] starts at some position of [s]. *)
Fixpoint strings_Contains (s substr : string) : bool :=
  String.prefix substr s ||
  match s with
  | EmptyString => false
  | String _ s' => strings_Contains s' substr
  end.

(** [math.IsNaN], [math.IsInf(f, -1)] and [math.Signbit]. *)
Definition math_IsNaN (f : float) : bool := PrimFloat.is_nan f.
Definition math_IsNegInf (f : float) : bool := (f =? neg_infinity)%float.
Definition math_Signbit (f : float) : bool := PrimFloat.get_sign f.

(** [math.Min(x, y)], with the special cases its documentation lists:
    [Min(x, -Inf) = Min(-Inf, x) = -Inf], [Min(x, NaN) = Min(NaN, x) = NaN],
    [Min(-0, ±0) = Min(±0, -0) = -0]. *)
Definition math_Min (x y : float) : float :=
  if math_IsNegInf x || math_IsNegInf y then neg_infinity
  else if math_IsNaN x || math_IsNaN y then nan
  else if (x =? 0)%float && (x =? y)%float then
    (if math_Signbit x then x else y)
  else if (x <? y)%float then x
  else y.

(** Insertion sort.  [insert_by before x l] puts [x] into [l] behind the
    leading elements [y] with [before y x]; [sort_by before] inserts the
    elements of the list from the last to the first.  With a strict [before]
    the sort is stable: equal elements keep their order. *)
Fixpoint insert_by {A : Type} (before : A -> A -> bool) (x : A) (l : list A) : list A :=
  match l with
  | [] => [x]
  | y :: l' => if before y x then y :: insert_by before x l' else x :: l
  end.

Definition sort_by {A : Type} (before : A -> A -> bool) (l : list A) : list A :=
  foldr (insert_by before) [] l.

(** [sort.Strings(keys)]: ascending in Go's string order, the lexicographic
    order of the bytes.  The keys of a map are distinct, so the result does
    not depend on the algorithm. *)
Definition sort_Strings (keys : list string) : list string := sort_by String.ltb keys.

(** What the documentation of [sort.Interface] asks of [less] on the
    elements being sorted: a strict weak ordering (irreflexive, transitive,
    and transitive on the pairs it does not order).  It notes that [<] on
    floats is none when a NaN is among them. *)
Definition strict_weak_ordering {A : Type} (less : A -> A -> bool) (l : list A) : Prop :=
  (forall x, In x l -> less x x = false) /\
  (forall x y z, In x l -> In y l -> In z l ->
     less x y = true -> less y z = true -> less x z = true) /\
  (forall x y z, In x l -> In y l -> In z l ->
     less x y = false -> less y z = false -> less x z = false).

(** [data.Swap(i, j)] on a slice. *)
Definition swap {A : Type} (x : list A) (i j : nat) : list A :=
  match x !! i, x !! j with
  | Some a, Some b => <[j := a]> (<[i := b]> x)
  | _, _ => x
  end.

(** One sort that meets the contract of [sort.Slice] and is not stable: a
    pass that compares and swaps the elements six places apart
    ([for i := 6; i < n; i++ { if less(i, i-6) { swap(i, i-6) } }]), then
    insertion sort.  It is the path Go's library takes for a slice of at
    most twelve elements up to Go 1.18; the library's source is not part of
    the repository, and nothing below depends on that. *)
Definition shellPass {A : Type} (less : A -> A -> bool) (x : list A) : list A :=
  foldl (fun x i =>
           match x !! i, x !! (i - 6)%nat with
           | Some a, Some b => if less a b then swap x i (i - 6) else x
           | _, _ => x
           end)
        x (seq 6 (length x - 6)).

Definition shellInsertionSort {A : Type} (less : A -> A -> bool) (x : list A) : list A :=
  sort_by less (shellPass less x).

(** The order of binary64 numbers, read off their specification
    [Prim2SF]: a number that is no NaN has a key in the triples of integers,
    ordered lexicographically, and [<] on such numbers is [lex_lt] on their
    keys. *)
Definition sf_num (x : spec_float) : bool :=
  match x with
  | S754_nan => false
  | _ => true
  end.

Definition sf_key (x : spec_float) : Z * Z * Z :=
  match x with
  | S754_nan => (0, 0, 0)
  | S754_zero _ => (0, 0, 0)
  | S754_infinity true => (-2, 0, 0)
  | S754_infinity false => (2, 0, 0)
  | S754_finite true m e => (-1, - e, - Zpos m)
  | S754_finite false m e => (1, e, Zpos m)
  end%Z.

Definition lex_lt (a b : Z * Z * Z) : Prop :=
  (a.1.1 < b.1.1 \/
   (a.1.1 = b.1.1 /\ (a.1.2 < b.1.2 \/ (a.1.2 = b.1.2 /\ a.2 < b.2))))%Z.

Definition fkey (x : float) : Z * Z * Z := sf_key (Prim2SF x).

(** Classes of binary64 numbers, read off [Prim2SF].  A number that is
    finite: a zero or a finite number. *)
Definition sf_finite (x : spec_float) : bool :=
  match x with
  | S754_zero _ | S754_finite _ _ _ => true
  | _ => false
  end.


(** A finite number that is not negative and is below [2^k]: its mantissa
    of [d] binary digits stands at an exponent [e] with [d + e <= k]. *)
Definition sf_below (k : Z) (x : spec_float) : bool :=
  match x with
  | S754_zero _ => true
  | S754_finite false m e => (Zdigits2 (Zpos m) + e <=? k)%Z
  | _ => false
  end.

(** 64-bit two's complement wrap-around of an [int64] result. *)
Definition wrap64 (z : Z) : Z :=
  ((z + 2 ^ 63) mod 2 ^ 64 - 2 ^ 63)%Z.

End Go.

Export Go.

Notation "'let!' x ':=' m 'in' f" := (Go.bind m (fun x => f))
  (at level 10, x name, m at level 100, f at level 200).

(** ** The SDK shapes the file reads ([aws-sdk-go]: packages [ec2] and
    [autoscaling]); only the fields the modelled functions touch are kept. *)

Module ec2.

Module Tag.
Record t : Type := { Key : string; Value : option string }.
End Tag.

Module Placement.
Record t : Type := { AvailabilityZone : string }.
End Placement.

Module InstanceState.
Record t : Type := { Name : string }.
End InstanceState.

Definition InstanceStateNamePending : string := "pending".
Definition InstanceStateNameRunning : string := "running".
Definition InstanceStateNameShuttingDown : string := "shutting-down".
Definition InstanceStateNameTerminated : string := "terminated".

Module Instance.
Record t : Type := {
  InstanceId : string;
  Placement : Placement.t;
  EbsOptimized : option bool;
  InstanceLifecycle : option string;
  State : InstanceState.t;
  VirtualizationType : string;
  Tags : list Tag.t
}.
End Instance.

Module EbsBlockDevice.
Record t : Type := {
  DeleteOnTermination : option bool;
  Encrypted : option bool;
  Iops : option Z;
  SnapshotId : option string;
  VolumeSize : option Z;
  VolumeType : option string
}.

(** The same block with its volume type replaced. *)
Definition set_VolumeType (vt : option string) (ebs : t) : t :=
  {| DeleteOnTermination := DeleteOnTermination ebs; Encrypted := Encrypted ebs;
     Iops := Iops ebs; SnapshotId := SnapshotId ebs; VolumeSize := VolumeSize ebs;
     VolumeType := vt |}.
End EbsBlockDevice.

Module LaunchTemplateEbsBlockDevice.
Record t : Type := {
  DeleteOnTermination : option bool;
  Encrypted : option bool;
  Iops : option Z;
  SnapshotId : option string;
  VolumeSize : option Z;
  VolumeType : option string
}.

(** The same block with its volume type replaced. *)
Definition set_VolumeType (vt : option string) (ebs : t) : t :=
  {| DeleteOnTermination := DeleteOnTermination ebs; Encrypted := Encrypted ebs;
     Iops := Iops ebs; SnapshotId := SnapshotId ebs; VolumeSize := VolumeSize ebs;
     VolumeType := vt |}.
End LaunchTemplateEbsBlockDevice.

Module BlockDeviceMapping.
Record t : Type := {
  DeviceName : option string;
  VirtualName : option string;
  Ebs : option EbsBlockDevice.t;
  NoDevice : option string
}.
End BlockDeviceMapping.

Module LaunchTemplateBlockDeviceMapping.
Record t : Type := {
  DeviceName : option string;
  VirtualName : option string;
  Ebs : option LaunchTemplateEbsBlockDevice.t;
  NoDevice : option string
}.
End LaunchTemplateBlockDeviceMapping.

Module TagSpecification.
Record t : Type := { ResourceType : option string; Tags : list Tag.t }.
End TagSpecification.

Module AttributeBooleanValue.
Record t : Type := { Value : option bool }.
End AttributeBooleanValue.

Module DescribeInstanceAttributeOutput.
Record t : Type := { DisableApiTermination : option AttributeBooleanValue.t }.
End DescribeInstanceAttributeOutput.

End ec2.

Module autoscaling.

Module Ebs.
Record t : Type := {
  DeleteOnTermination : option bool;
  Encrypted : option bool;
  Iops : option Z;
  SnapshotId : option string;
  VolumeSize : option Z;
  VolumeType : option string
}.

(** The same block with its volume type replaced. *)
Definition set_VolumeType (vt : option string) (ebs : t) : t :=
  {| DeleteOnTermination := DeleteOnTermination ebs; Encrypted := Encrypted ebs;
     Iops := Iops ebs; SnapshotId := SnapshotId ebs; VolumeSize := VolumeSize ebs;
     VolumeType := vt |}.
End Ebs.

Module BlockDeviceMapping.
Record t : Type := {
  DeviceName : option string;
  VirtualName : option string;
  Ebs : option Ebs.t;
  NoDevice : option bool
}.
End BlockDeviceMapping.

Module Instance.
Record t : Type := {
  InstanceId : string;
  AvailabilityZone : string;
  ProtectedFromScaleIn : bool
}.
End Instance.

Module LaunchTemplateSpecification.
Record t : Type := { LaunchTemplateId : option string; Version : option string }.
End LaunchTemplateSpecification.

End autoscaling.

(** ** Further shapes of the SDK, read by the launch of a replacement

    Packages [ec2] and [autoscaling] again; only the fields the file
    touches are kept.  A slice that is nil and one that is empty are both the
    empty list. *)

Module sdk.

Module GroupIdentifier.
Record t : Type := { GroupId : option string }.
End GroupIdentifier.

Module IamInstanceProfileSpecification.
Record t : Type := { Arn : option string; Name : option string }.
End IamInstanceProfileSpecification.

Module InstanceMonitoring.
Record t : Type := { Enabled : option bool }.
End InstanceMonitoring.

Module RunInstancesMonitoringEnabled.
Record t : Type := { Enabled : option bool }.
End RunInstancesMonitoringEnabled.

Module InstanceNetworkInterfaceSpecification.
Record t : Type := {
  AssociatePublicIpAddress : option bool;
  DeviceIndex : option Z;
  Groups : list (option string);
  SubnetId : option string
}.
End InstanceNetworkInterfaceSpecification.

Module LaunchTemplateInstanceNetworkInterfaceSpecification.
Record t : Type := {
  AssociatePublicIpAddress : option bool;
  DeviceIndex : option Z
}.
End LaunchTemplateInstanceNetworkInterfaceSpecification.

Module LaunchTemplateSpecification.
Record t : Type := { LaunchTemplateId : option string; Version : option string }.
End LaunchTemplateSpecification.

Module SpotMarketOptions.
Record t : Type := { MaxPrice : option string }.
End SpotMarketOptions.

Module InstanceMarketOptionsRequest.
Record t : Type := { MarketType : option string; SpotOptions : option SpotMarketOptions.t }.
End InstanceMarketOptionsRequest.

Module RunInstancesInput.
Record t : Type := {
  BlockDeviceMappings : list ec2.BlockDeviceMapping.t;
  EbsOptimized : option bool;
  IamInstanceProfile : option IamInstanceProfileSpecification.t;
  ImageId : option string;
  InstanceMarketOptions : option InstanceMarketOptionsRequest.t;
  InstanceType : option string;
  KeyName : option string;
  LaunchTemplate : option LaunchTemplateSpecification.t;
  MaxCount : option Z;
  MinCount : option Z;
  Monitoring : option RunInstancesMonitoringEnabled.t;
  NetworkInterfaces : list InstanceNetworkInterfaceSpecification.t;
  Placement : ec2.Placement.t;
  SecurityGroupIds : list (option string);
  SubnetId : option string;
  TagSpecifications : list ec2.TagSpecification.t;
  UserData : option string
}.

(** The assignments [retval.F = v] the file makes. *)
Definition set_BlockDeviceMappings (v : list ec2.BlockDeviceMapping.t) (r : t) : t :=
  {| BlockDeviceMappings := v; EbsOptimized := EbsOptimized r;
     IamInstanceProfile := IamInstanceProfile r; ImageId := ImageId r;
     InstanceMarketOptions := InstanceMarketOptions r; InstanceType := InstanceType r;
     KeyName := KeyName r; LaunchTemplate := LaunchTemplate r; MaxCount := MaxCount r;
     MinCount := MinCount r; Monitoring := Monitoring r;
     NetworkInterfaces := NetworkInterfaces r; Placement := Placement r;
     SecurityGroupIds := SecurityGroupIds r; SubnetId := SubnetId r;
     TagSpecifications := TagSpecifications r; UserData := UserData r |}.

Definition set_IamInstanceProfile (v : option IamInstanceProfileSpecification.t) (r : t) : t :=
  {| BlockDeviceMappings := BlockDeviceMappings r; EbsOptimized := EbsOptimized r;
     IamInstanceProfile := v; ImageId := ImageId r;
     InstanceMarketOptions := InstanceMarketOptions r; InstanceType := InstanceType r;
     KeyName := KeyName r; LaunchTemplate := LaunchTemplate r; MaxCount := MaxCount r;
     MinCount := MinCount r; Monitoring := Monitoring r;
     NetworkInterfaces := NetworkInterfaces r; Placement := Placement r;
     SecurityGroupIds := SecurityGroupIds r; SubnetId := SubnetId r;
     TagSpecifications := TagSpecifications r; UserData := UserData r |}.

Definition set_ImageId (v : option string) (r : t) : t :=
  {| BlockDeviceMappings := BlockDeviceMappings r; EbsOptimized := EbsOptimized r;
     IamInstanceProfile := IamInstanceProfile r; ImageId := v;
     InstanceMarketOptions := InstanceMarketOptions r; InstanceType := InstanceType r;
     KeyName := KeyName r; LaunchTemplate := LaunchTemplate r; MaxCount := MaxCount r;
     MinCount := MinCount r; Monitoring := Monitoring r;
     NetworkInterfaces := NetworkInterfaces r; Placement := Placement r;
     SecurityGroupIds := SecurityGroupIds r; SubnetId := SubnetId r;
     TagSpecifications := TagSpecifications r; UserData := UserData r |}.

Definition set_KeyName (v : option string) (r : t) : t :=
  {| BlockDeviceMappings := BlockDeviceMappings r; EbsOptimized := EbsOptimized r;
     IamInstanceProfile := IamInstanceProfile r; ImageId := ImageId r;
     InstanceMarketOptions := InstanceMarketOptions r; InstanceType := InstanceType r;
     KeyName := v; LaunchTemplate := LaunchTemplate r; MaxCount := MaxCount r;
     MinCount := MinCount r; Monitoring := Monitoring r;
     NetworkInterfaces := NetworkInterfaces r; Placement := Placement r;
     SecurityGroupIds := SecurityGroupIds r; SubnetId := SubnetId r;
     TagSpecifications := TagSpecifications r; UserData := UserData r |}.

Definition set_LaunchTemplate (v : option LaunchTemplateSpecification.t) (r : t) : t :=
  {| BlockDeviceMappings := BlockDeviceMappings r; EbsOptimized := EbsOptimized r;
     IamInstanceProfile := IamInstanceProfile r; ImageId := ImageId r;
     InstanceMarketOptions := InstanceMarketOptions r; InstanceType := InstanceType r;
     KeyName := KeyName r; LaunchTemplate := v; MaxCount := MaxCount r; MinCount := MinCount r;
     Monitoring := Monitoring r; NetworkInterfaces := NetworkInterfaces r;
     Placement := Placement r; SecurityGroupIds := SecurityGroupIds r; SubnetId := SubnetId r;
     TagSpecifications := TagSpecifications r; UserData := UserData r |}.

Definition set_Monitoring (v : option RunInstancesMonitoringEnabled.t) (r : t) : t :=
  {| BlockDeviceMappings := BlockDeviceMappings r; EbsOptimized := EbsOptimized r;
     IamInstanceProfile := IamInstanceProfile r; ImageId := ImageId r;
     InstanceMarketOptions := InstanceMarketOptions r; InstanceType := InstanceType r;
     KeyName := KeyName r; LaunchTemplate := LaunchTemplate r; MaxCount := MaxCount r;
     MinCount := MinCount r; Monitoring := v; NetworkInterfaces := NetworkInterfaces r;
     Placement := Placement r; SecurityGroupIds := SecurityGroupIds r; SubnetId := SubnetId r;
     TagSpecifications := TagSpecifications r; UserData := UserData r |}.

Definition set_NetworkInterfaces (v : list InstanceNetworkInterfaceSpecification.t) (r : t) : t :=
  {| BlockDeviceMappings := BlockDeviceMappings r; EbsOptimized := EbsOptimized r;
     IamInstanceProfile := IamInstanceProfile r; ImageId := ImageId r;
     InstanceMarketOptions := InstanceMarketOptions r; InstanceType := InstanceType r;
     KeyName := KeyName r; LaunchTemplate := LaunchTemplate r; MaxCount := MaxCount r;
     MinCount := MinCount r; Monitoring := Monitoring r; NetworkInterfaces := v;
     Placement := Placement r; SecurityGroupIds := SecurityGroupIds r; SubnetId := SubnetId r;
     TagSpecifications := TagSpecifications r; UserData := UserData r |}.

Definition set_SecurityGroupIds (v : list (option string)) (r : t) : t :=
  {| BlockDeviceMappings := BlockDeviceMappings r; EbsOptimized := EbsOptimized r;
     IamInstanceProfile := IamInstanceProfile r; ImageId := ImageId r;
     InstanceMarketOptions := InstanceMarketOptions r; InstanceType := InstanceType r;
     KeyName := KeyName r; LaunchTemplate := LaunchTemplate r; MaxCount := MaxCount r;
     MinCount := MinCount r; Monitoring := Monitoring r;
     NetworkInterfaces := NetworkInterfaces r; Placement := Placement r; SecurityGroupIds := v;
     SubnetId := SubnetId r; TagSpecifications := TagSpecifications r;
     UserData := UserData r |}.

Definition set_SubnetId (v : option string) (r : t) : t :=
  {| BlockDeviceMappings := BlockDeviceMappings r; EbsOptimized := EbsOptimized r;
     IamInstanceProfile := IamInstanceProfile r; ImageId := ImageId r;
     InstanceMarketOptions := InstanceMarketOptions r; InstanceType := InstanceType r;
     KeyName := KeyName r; LaunchTemplate := LaunchTemplate r; MaxCount := MaxCount r;
     MinCount := MinCount r; Monitoring := Monitoring r;
     NetworkInterfaces := NetworkInterfaces r; Placement := Placement r;
     SecurityGroupIds := SecurityGroupIds r; SubnetId := v;
     TagSpecifications := TagSpecifications r; UserData := UserData r |}.

Definition set_UserData (v : option string) (r : t) : t :=
  {| BlockDeviceMappings := BlockDeviceMappings r; EbsOptimized := EbsOptimized r;
     IamInstanceProfile := IamInstanceProfile r; ImageId := ImageId r;
     InstanceMarketOptions := InstanceMarketOptions r; InstanceType := InstanceType r;
     KeyName := KeyName r; LaunchTemplate := LaunchTemplate r; MaxCount := MaxCount r;
     MinCount := MinCount r; Monitoring := Monitoring r;
     NetworkInterfaces := NetworkInterfaces r; Placement := Placement r;
     SecurityGroupIds := SecurityGroupIds r; SubnetId := SubnetId r;
     TagSpecifications := TagSpecifications r; UserData := v |}.

End RunInstancesInput.

Module ResponseLaunchTemplateData.
Record t : Type := {
  BlockDeviceMappings : list ec2.LaunchTemplateBlockDeviceMapping.t;
  NetworkInterfaces : list LaunchTemplateInstanceNetworkInterfaceSpecification.t
}.
End ResponseLaunchTemplateData.

Module LaunchTemplateVersion.
Record t : Type := { LaunchTemplateData : option ResponseLaunchTemplateData.t }.
End LaunchTemplateVersion.

Module DescribeLaunchTemplateVersionsOutput.
Record t : Type := { LaunchTemplateVersions : list LaunchTemplateVersion.t }.
End DescribeLaunchTemplateVersionsOutput.

Module Image.
Record t : Type := { BlockDeviceMappings : list ec2.BlockDeviceMapping.t }.
End Image.

Module DescribeImagesOutput.
Record t : Type := { Images : list Image.t }.
End DescribeImagesOutput.

(** [ec2.Instance] as a [RunInstances] answer holds it: the two fields the
    launch reads, pointers both. *)
Module Instance.
Record t : Type := { InstanceId : option string; InstanceType : option string }.
End Instance.

Module Reservation.
Record t : Type := { Instances : list Instance.t }.
End Reservation.

(** [autoscaling.LaunchConfiguration], without its block-device mappings
    (they are in [launchConfiguration.t]). *)
Module LaunchConfiguration.
Record t : Type := {
  AssociatePublicIpAddress : option bool;
  IamInstanceProfile : option string;
  ImageId : option string;
  InstanceMonitoring : option InstanceMonitoring.t;
  KeyName : option string;
  UserData : option string
}.
End LaunchConfiguration.

End sdk.

(** ** Package [autospotting]: the data model *)

Module autospotting.

(** Modelled from the spec: the constant [Spot] is declared in another file
    of the package; an instance's lifecycle is one of on-demand and spot,
    and a spot replacement is requested with market type spot. *)
Definition Spot : string := "spot".

(** Modelled from the spec: the constant [DefaultBiddingPolicy] is declared
    in another file of the package; the bidding policy is one of normal and
    aggressive, and normal is the one that bids the on-demand price. *)
Definition DefaultBiddingPolicy : string := "normal".

(** Modelled from the spec: the type [prices] is declared in another file;
    the pricing bundle of a type is its on-demand price, its spot price per
    availability zone, its EBS surcharge and its premium. *)
Module prices.
Record t : Type := {
  onDemand : float;
  spot : gmap string float;
  ebsSurcharge : float;
  premium : float
}.
End prices.

Module instanceTypeInformation.
Record t : Type := {
  instanceType : string;
  vCPU : Z;
  PhysicalProcessor : string;
  GPU : Z;
  pricing : prices.t;
  memory : float;
  virtualizationTypes : list string;
  hasInstanceStore : bool;
  instanceStoreDeviceSize : float;
  instanceStoreDeviceCount : Z;
  instanceStoreIsSSD : bool;
  hasEBSOptimization : bool;
  EBSThroughput : float
}.

(** The zero value, which reading a missing key of the catalog yields. *)
Definition zero : t :=
  {| instanceType := ""; vCPU := 0; PhysicalProcessor := ""; GPU := 0;
     pricing := {| prices.onDemand := 0; prices.spot := ∅;
                   prices.ebsSurcharge := 0; prices.premium := 0 |};
     memory := 0; virtualizationTypes := []; hasInstanceStore := false;
     instanceStoreDeviceSize := 0; instanceStoreDeviceCount := 0;
     instanceStoreIsSSD := false; hasEBSOptimization := false;
     EBSThroughput := 0 |}.
End instanceTypeInformation.

Module acceptableInstance.
Record t : Type := {
  instanceTI : instanceTypeInformation.t;
  price : float
}.
End acceptableInstance.

(** Modelled from the spec: the configuration types are declared in another
    file; the fields are the ones this file reads (a group's effective
    configuration: price multiplier, GP2 to GP3 threshold, beanstalk flag;
    the invocation's: bidding policy, buffer percentage, price multiplier). *)
Module AutoScalingConfig.
Record t : Type := {
  OnDemandPriceMultiplier : float;
  GP2ConversionThreshold : Z;
  PatchBeanstalkUserdata : string
}.
End AutoScalingConfig.

Module Config.
Record t : Type := {
  AutoScalingConfig : AutoScalingConfig.t;
  OnDemandPriceMultiplier : float;
  BiddingPolicy : string;
  SpotPriceBufferPercentage : float
}.
End Config.

(** Modelled from the spec: the group's launch configuration and launch
    template wrappers are declared in another file; only their block-device
    mappings, which the ephemeral volume count is taken from, are kept. *)
Module launchConfiguration.
Record t : Type := { BlockDeviceMappings : list autoscaling.BlockDeviceMapping.t }.
End launchConfiguration.

Module launchTemplate.
Record t : Type := { BlockDeviceMappings : list ec2.LaunchTemplateBlockDeviceMapping.t }.
End launchTemplate.

(** Modelled from the spec: the group handle [autoScalingGroup] is declared
    in another file; it has the group's name, desired and maximum sizes,
    launch template reference or launch configuration, member list and
    effective configuration.  [region] is the name of the region its back
    pointer leads to (only [a.region.name] is read here). *)
Module autoScalingGroup.
Record t : Type := {
  name : string;
  region : string;
  config : AutoScalingConfig.t;
  launchConfiguration : option launchConfiguration.t;
  launchTemplate : option launchTemplate.t;
  LaunchTemplate : option autoscaling.LaunchTemplateSpecification.t;
  LaunchConfigurationName : option string;
  Instances : list autoscaling.Instance.t;
  DesiredCapacity : Z;
  MaxSize : Z;
  HealthCheckGracePeriod : Z
}.

Definition set_config (c : AutoScalingConfig.t) (a : t) : t :=
  {| name := name a; region := region a; config := c;
     launchConfiguration := launchConfiguration a;
     launchTemplate := launchTemplate a;
     LaunchTemplate := LaunchTemplate a;
     LaunchConfigurationName := LaunchConfigurationName a;
     Instances := Instances a; DesiredCapacity := DesiredCapacity a;
     MaxSize := MaxSize a;
     HealthCheckGracePeriod := HealthCheckGracePeriod a |}.
End autoScalingGroup.

(** Modelled from the spec: the type [region] is declared in another file;
    the fields are the ones this file reads.  The region's instance
    registry ([region.instances]) is kept apart from this record, as the
    state the swap reads after the scan. *)
Module region.
Record t : Type := {
  name : string;
  conf : Config.t;
  instanceTypeInformation : gmap string instanceTypeInformation.t;
  enabledASGs : list autoScalingGroup.t
}.
End region.

(** [instance] wraps an [ec2.Instance] and has some additional fields. *)
Module instance.
Record t : Type := {
  Instance : ec2.Instance.t;
  typeInfo : instanceTypeInformation.t;
  price : float;
  region : region.t;
  protected : bool;
  asg : option autoScalingGroup.t
}.

Definition set_asg (a : option autoScalingGroup.t) (i : t) : t :=
  {| Instance := Instance i; typeInfo := typeInfo i; price := price i;
     region := region i; protected := protected i; asg := a |}.

Definition set_price (p : float) (i : t) : t :=
  {| Instance := Instance i; typeInfo := typeInfo i; price := p;
     region := region i; protected := protected i; asg := asg i |}.

Definition InstanceId (i : t) : string := ec2.Instance.InstanceId (Instance i).
Definition Tags (i : t) : list ec2.Tag.t := ec2.Instance.Tags (Instance i).
Definition StateName (i : t) : string :=
  ec2.InstanceState.Name (ec2.Instance.State (Instance i)).
Definition AvailabilityZone (i : t) : string :=
  ec2.Placement.AvailabilityZone (ec2.Instance.Placement (Instance i)).
End instance.

(** ** The instance registry *)

(** The key in this map is the instance ID. *)
Abbreviation instanceMap := (gmap string instance.t).

Module instanceManager.
Record t : Type := { catalog : instanceMap }.
End instanceManager.

(** The interface [instances]; [instances()] (a channel fed by a goroutine)
    and [dump()] are left out. *)
Class instances (T : Type) : Type := {
  add : option instance.t -> T -> T;
  get : string -> T -> option instance.t;
  count : T -> Z;
  count64 : T -> Z;
  make : T -> T
}.

Definition makeInstances : instanceManager.t :=
  {| instanceManager.catalog := ∅ |}.

Definition makeInstancesWithCatalog (catalog : instanceMap) : instanceManager.t :=
  {| instanceManager.catalog := catalog |}.

Definition instanceManager_make (im : instanceManager.t) : instanceManager.t :=
  {| instanceManager.catalog := ∅ |}.

Definition instanceManager_add (inst : option instance.t) (im : instanceManager.t)
  : instanceManager.t :=
  match inst with
  | None => im
  | Some inst =>
      {| instanceManager.catalog :=
           <[instance.InstanceId inst := inst]> (instanceManager.catalog im) |}
  end.

Definition instanceManager_get (id : string) (im : instanceManager.t) : option instance.t :=
  instanceManager.catalog im !! id.

Definition instanceManager_count (im : instanceManager.t) : Z :=
  Z.of_nat (size (instanceManager.catalog im)).

Definition instanceManager_count64 (im : instanceManager.t) : Z :=
  instanceManager_count im.

#[export] Instance instanceManager_instances : instances instanceManager.t := {
  add := instanceManager_add;
  get := instanceManager_get;
  count := instanceManager_count;
  count64 := instanceManager_count64;
  make := instanceManager_make
}.

(** ** The compatibility filter and the ranker *)

Definition unsupportedIO2Regions : list string := [
  "us-gov-west-1";
  "us-gov-east-1";
  "sa-east-1";
  "cn-north-1";
  "cn-northwest-1";
  "eu-south-1";
  "af-south-1";
  "eu-west-3";
  "ap-northeast-3"
].

Definition min (x y : Z) : Z := if (x <? y)%Z then x else y.
Definition max (x y : Z) : Z := if (x >? y)%Z then x else y.

Definition calculatePrice (i : instance.t) (spotCandidate : instanceTypeInformation.t) : float :=
  let spotPrice :=
    default 0%float
      (prices.spot (instanceTypeInformation.pricing spotCandidate) !! instance.AvailabilityZone i) in
  match ec2.Instance.EbsOptimized (instance.Instance i) with
  | Some true =>
      (spotPrice + prices.ebsSurcharge (instanceTypeInformation.pricing spotCandidate))%float
  | _ => spotPrice
  end.

Definition isSpot (i : instance.t) : bool :=
  match ec2.Instance.InstanceLifecycle (instance.Instance i) with
  | Some l => String.eqb l Spot
  | None => false
  end.

Definition getSavings (i : instance.t) : float :=
  let odPrice := prices.onDemand (instanceTypeInformation.pricing (instance.typeInfo i)) in
  let spotPrice :=
    default 0%float
      (prices.spot (instanceTypeInformation.pricing (instance.typeInfo i))
         !! instance.AvailabilityZone i) in
  (odPrice - spotPrice)%float.

Definition isPriceCompatible (i : instance.t) (spotPrice : float) : bool :=
  if (spotPrice =? 0)%float then false
  else if (spotPrice <=? instance.price i)%float then true
  else false.

Definition isIntel (cpuName : string) : bool :=
  strings_Contains cpuName "Intel" || strings_Contains cpuName "Variable".

Definition isAMD (cpuName : string) : bool := strings_Contains cpuName "AMD".

Definition isIntelCompatible (cpuName : string) : bool := isIntel cpuName || isAMD cpuName.

Definition isARM (cpuName : string) : bool := strings_Contains cpuName "AWS".

Definition isSameArch (i : instance.t) (other : instanceTypeInformation.t) : bool :=
  let thisCPU := instanceTypeInformation.PhysicalProcessor (instance.typeInfo i) in
  let otherCPU := instanceTypeInformation.PhysicalProcessor other in
  (isIntelCompatible thisCPU && isIntelCompatible otherCPU) ||
  (isARM thisCPU && isARM otherCPU).

Definition isClassCompatible (i : instance.t) (spotCandidate : instanceTypeInformation.t) : bool :=
  let current := instance.typeInfo i in
  if isSameArch i spotCandidate &&
     (instanceTypeInformation.vCPU spotCandidate >=? instanceTypeInformation.vCPU current)%Z &&
     (instanceTypeInformation.memory current <=? instanceTypeInformation.memory spotCandidate)%float &&
     (instanceTypeInformation.GPU spotCandidate >=? instanceTypeInformation.GPU current)%Z
  then true
  else false.

Definition isEBSCompatible (i : instance.t) (spotCandidate : instanceTypeInformation.t) : bool :=
  if (instanceTypeInformation.EBSThroughput spotCandidate
        <? instanceTypeInformation.EBSThroughput (instance.typeInfo i))%float
  then false
  else true.

Definition isStorageCompatible (i : instance.t) (spotCandidate : instanceTypeInformation.t)
    (attachedVolumes : Z) : bool :=
  let existing := instance.typeInfo i in
  if (attachedVolumes =? 0)%Z ||
     ((instanceTypeInformation.instanceStoreDeviceCount spotCandidate >=? attachedVolumes)%Z &&
      (instanceTypeInformation.instanceStoreDeviceSize existing
         <=? instanceTypeInformation.instanceStoreDeviceSize spotCandidate)%float &&
      (instanceTypeInformation.instanceStoreIsSSD spotCandidate ||
       Bool.eqb (instanceTypeInformation.instanceStoreIsSSD spotCandidate)
                (instanceTypeInformation.instanceStoreIsSSD existing)))
  then true
  else false.

Definition isVirtualizationCompatible (i : instance.t) (spotVirtualizationTypes : list string)
  : bool :=
  let current := ec2.Instance.VirtualizationType (instance.Instance i) in
  let spotVirtualizationTypes :=
    if (Z.of_nat (length spotVirtualizationTypes) =? 0)%Z then ["HVM"]
    else spotVirtualizationTypes in
  existsb (fun avt =>
             (String.eqb avt "PV" && String.eqb current "paravirtual") ||
             (String.eqb avt "HVM" && String.eqb current "hvm"))
          spotVirtualizationTypes.

(** What the library promises of [sort.Slice]: given a [less] that orders the
    elements as [sort.Interface] asks, the slice is permuted so that no
    element is [less] than the one before it.  "The sort is not guaranteed
    to be stable: equal elements may be reversed from their original
    order." *)
Definition sort_Slice_contract
    (sort_Slice : (acceptableInstance.t -> acceptableInstance.t -> bool) ->
                  list acceptableInstance.t -> list acceptableInstance.t) : Prop :=
  forall less l, strict_weak_ordering less l ->
    Permutation l (sort_Slice less l) /\
    Sorted (fun x y => less y x = false) (sort_Slice less l).

Section Filter.

(** [filepath.Match(pattern, name)] of Go's library, its error dropped as
    the source drops it. *)
Variable filepath_Match : string -> string -> bool.

(** [sort.Slice(x, less)] of Go's library, on the slice of acceptable
    instances; [less] is given on elements, as the closure the source
    passes compares the elements at the two indices. *)
Variable sort_Slice :
  (acceptableInstance.t -> acceptableInstance.t -> bool) ->
  list acceptableInstance.t -> list acceptableInstance.t.

(** The ephemeral volume counts of the group's launch configuration and
    launch template, methods of types declared in another file; both take
    a receiver that may be nil. *)
Variable countLaunchConfigEphemeralVolumes : option launchConfiguration.t -> Z.
Variable countLaunchTemplateEphemeralVolumes : option launchTemplate.t -> Z.

Definition isAllowed (i : instance.t) (instanceType : string)
    (allowedList disallowedList : list string) : bool :=
  if (Z.of_nat (length allowedList) >? 0)%Z then
    existsb (fun a => filepath_Match a instanceType) allowedList
  else if (Z.of_nat (length disallowedList) >? 0)%Z then
    negb (existsb (fun a => filepath_Match a instanceType) disallowedList)
  else true.

(** The condition of the loop over the catalog (the six predicates, in the
    order the source evaluates them). *)
Definition isCompatible (i : instance.t) (allowedList disallowedList : list string)
    (attachedVolumesNumber : Z) (candidate : instanceTypeInformation.t)
    (candidatePrice : float) : bool :=
  isAllowed i (instanceTypeInformation.instanceType candidate) allowedList disallowedList &&
  isPriceCompatible i candidatePrice &&
  isEBSCompatible i candidate &&
  isClassCompatible i candidate &&
  isStorageCompatible i candidate attachedVolumesNumber &&
  isVirtualizationCompatible i (instanceTypeInformation.virtualizationTypes candidate).

(** The loop "Find all compatible and not blocked instance types" over the
    sorted keys: one iteration, then the loop. *)
Definition acceptCandidate (i : instance.t) (allowedList disallowedList : list string)
    (attachedVolumesNumber : Z)
    (acceptableInstanceTypes : list acceptableInstance.t) (k : string)
  : list acceptableInstance.t :=
  let candidate :=
    default instanceTypeInformation.zero
      (region.instanceTypeInformation (instance.region i) !! k) in
  let candidatePrice := calculatePrice i candidate in
  if isCompatible i allowedList disallowedList attachedVolumesNumber candidate candidatePrice
  then acceptableInstanceTypes ++
       [ {| acceptableInstance.instanceTI := candidate;
            acceptableInstance.price := candidatePrice |} ]
  else acceptableInstanceTypes.

Definition acceptableInstanceTypes (i : instance.t) (allowedList disallowedList : list string)
    (attachedVolumesNumber : Z) (keys : list string) : list acceptableInstance.t :=
  foldl (acceptCandidate i allowedList disallowedList attachedVolumesNumber) [] keys.

(** The closure given to [sort.Slice]. *)
Definition lessByPrice (x y : acceptableInstance.t) : bool :=
  (acceptableInstance.price x <? acceptableInstance.price y)%float.

Definition getCompatibleSpotInstanceTypesListSortedAscendingByPrice (i : instance.t)
    (allowedList disallowedList : list string)
  : result (list instanceTypeInformation.t * option error) :=
  let current := instance.typeInfo i in
  let! a := deref (instance.asg i) in
  let lcMappings := countLaunchConfigEphemeralVolumes (autoScalingGroup.launchConfiguration a) in
  let ltMappings := countLaunchTemplateEphemeralVolumes (autoScalingGroup.launchTemplate a) in
  let usedMappings := max lcMappings ltMappings in
  let attachedVolumesNumber :=
    min usedMappings (instanceTypeInformation.instanceStoreDeviceCount current) in
  let keys :=
    sort_Strings (map fst (map_to_list (region.instanceTypeInformation (instance.region i)))) in
  let acceptable :=
    acceptableInstanceTypes i allowedList disallowedList attachedVolumesNumber keys in
  match acceptable with
  | _ :: _ =>
      Ok (map acceptableInstance.instanceTI (sort_Slice lessByPrice acceptable), None)
  | [] => Ok ([], Some "no cheaper spot instance types could be found")
  end.

(** The locals [attachedVolumesNumber] and [keys] of the function above, for
    the group [a] its instance belongs to. *)
Definition attachedVolumesNumber (i : instance.t) (a : autoScalingGroup.t) : Z :=
  min (max (countLaunchConfigEphemeralVolumes (autoScalingGroup.launchConfiguration a))
           (countLaunchTemplateEphemeralVolumes (autoScalingGroup.launchTemplate a)))
      (instanceTypeInformation.instanceStoreDeviceCount (instance.typeInfo i)).

Definition catalogKeys (i : instance.t) : list string :=
  sort_Strings (map fst (map_to_list (region.instanceTypeInformation (instance.region i)))).

(** An entry of the slice of acceptable instances as the loop appends it:
    a candidate that passed the six predicates, with its effective price. *)
Definition accepted (i : instance.t) (allowedList disallowedList : list string)
    (attachedVolumes : Z) (a : acceptableInstance.t) : Prop :=
  acceptableInstance.price a = calculatePrice i (acceptableInstance.instanceTI a) /\
  isCompatible i allowedList disallowedList attachedVolumes
    (acceptableInstance.instanceTI a) (acceptableInstance.price a) = true.

End Filter.

(** Candidates of equal effective price come in ascending order of type
    name. *)
Definition tiesInNameOrder (i : instance.t) (l : list instanceTypeInformation.t) : Prop :=
  forall j k T1 T2, (j < k)%nat -> l !! j = Some T1 -> l !! k = Some T2 ->
    (calculatePrice i T1 =? calculatePrice i T2)%float = true ->
    String.ltb (instanceTypeInformation.instanceType T1)
               (instanceTypeInformation.instanceType T2) = true.

(** ** The bid pricer *)

(** Every operation is rounded on its own, as on amd64 (Go lets an
    implementation fuse [x*y + z]). *)
Definition getPriceToBid (i : instance.t)
    (baseOnDemandPrice currentSpotPrice spotPremium : float) : float :=
  let conf := region.conf (instance.region i) in
  if String.eqb (Config.BiddingPolicy conf) DefaultBiddingPolicy then baseOnDemandPrice
  else
    let bufferPrice :=
      math_Min baseOnDemandPrice
        (((currentSpotPrice - spotPremium) *
          (1.0 + Config.SpotPriceBufferPercentage conf / 100.0)) + spotPremium)%float in
    bufferPrice.

(** ** Block-device mappings and the EBS volume-type rewrite *)

(** Go's [c1 && c2] when evaluating an operand may panic: [c2] is evaluated
    only if [c1] is true. *)
Definition and_then (c1 c2 : result bool) : result bool :=
  let! b := c1 in if b then c2 else Ok false.

Fixpoint supportedIO2region_loop (region : string) (regions : list string) : bool :=
  match regions with
  | [] => true
  | r :: regions' => if String.eqb region r then false else supportedIO2region_loop region regions'
  end.

Definition supportedIO2region (region : string) : bool :=
  supportedIO2region_loop region unsupportedIO2Regions.

Definition convertLaunchConfigurationEBSVolumeType (ebs : autoscaling.Ebs.t)
    (a : autoScalingGroup.t) : result (option string) :=
  let r := autoScalingGroup.region a in
  match autoscaling.Ebs.VolumeType ebs with
  | None => Ok None
  | Some _ =>
      let! io1 :=
        and_then (let! vt := deref (autoscaling.Ebs.VolumeType ebs) in Ok (String.eqb vt "io1"))
                 (Ok (supportedIO2region r)) in
      if io1 then Ok (Some "io2")
      else
        let! gp2 :=
          and_then (let! vt := deref (autoscaling.Ebs.VolumeType ebs) in Ok (String.eqb vt "gp2"))
                   (let! size := deref (autoscaling.Ebs.VolumeSize ebs) in
                    Ok (size <=? AutoScalingConfig.GP2ConversionThreshold
                                   (autoScalingGroup.config a))%Z) in
        if gp2 then Ok (Some "gp3")
        else Ok (autoscaling.Ebs.VolumeType ebs)
  end.

Definition convertLaunchTemplateEBSVolumeType (ebs : ec2.LaunchTemplateEbsBlockDevice.t)
    (a : autoScalingGroup.t) : result (option string) :=
  let r := autoScalingGroup.region a in
  let! io1 :=
    and_then (let! vt := deref (ec2.LaunchTemplateEbsBlockDevice.VolumeType ebs) in
              Ok (String.eqb vt "io1"))
             (Ok (supportedIO2region r)) in
  if io1 then Ok (Some "io2")
  else
    let! gp2 :=
      and_then (let! vt := deref (ec2.LaunchTemplateEbsBlockDevice.VolumeType ebs) in
                Ok (String.eqb vt "gp2"))
               (let! size := deref (ec2.LaunchTemplateEbsBlockDevice.VolumeSize ebs) in
                Ok (size <=? AutoScalingConfig.GP2ConversionThreshold
                               (autoScalingGroup.config a))%Z) in
    if gp2 then Ok (Some "gp3")
    else Ok (ec2.LaunchTemplateEbsBlockDevice.VolumeType ebs).

Definition convertImageEBSVolumeType (ebs : ec2.EbsBlockDevice.t)
    (a : autoScalingGroup.t) : result (option string) :=
  let r := autoScalingGroup.region a in
  let! io1 :=
    and_then (let! vt := deref (ec2.EbsBlockDevice.VolumeType ebs) in Ok (String.eqb vt "io1"))
             (Ok (supportedIO2region r)) in
  if io1 then Ok (Some "io2")
  else
    let! gp2 :=
      and_then (let! vt := deref (ec2.EbsBlockDevice.VolumeType ebs) in Ok (String.eqb vt "gp2"))
               (let! size := deref (ec2.EbsBlockDevice.VolumeSize ebs) in
                Ok (size <=? AutoScalingConfig.GP2ConversionThreshold
                               (autoScalingGroup.config a))%Z) in
    if gp2 then Ok (Some "gp3")
    else Ok (ec2.EbsBlockDevice.VolumeType ebs).

(** The loop of the three mapping conversions: [convert] is the body of one
    iteration, [None] when it ends in [continue]; a panic leaves the loop. *)
Fixpoint convertMappings {A : Type} (convert : A -> result (option ec2.BlockDeviceMapping.t))
    (BDMs : list A) (bds : list ec2.BlockDeviceMapping.t)
  : result (list ec2.BlockDeviceMapping.t) :=
  match BDMs with
  | [] => Ok bds
  | BDM :: BDMs' =>
      let! ec2BDM := convert BDM in
      match ec2BDM with
      | Some m => convertMappings convert BDMs' (bds ++ [m])
      | None => convertMappings convert BDMs' bds
      end
  end.

(** The group handed to the volume-type rewrite is [i.asg]; a nil one
    panics in the rewrite's first line, so only once there is an EBS block
    to convert. *)
Definition convertLaunchConfigurationBlockDeviceMapping (i : instance.t)
    (BDM : autoscaling.BlockDeviceMapping.t) : result (option ec2.BlockDeviceMapping.t) :=
  let! ebs :=
    match autoscaling.BlockDeviceMapping.Ebs BDM with
    | Some e =>
        let! a := deref (instance.asg i) in
        let! vt := convertLaunchConfigurationEBSVolumeType e a in
        Ok (Some {| ec2.EbsBlockDevice.DeleteOnTermination := autoscaling.Ebs.DeleteOnTermination e;
                    ec2.EbsBlockDevice.Encrypted := autoscaling.Ebs.Encrypted e;
                    ec2.EbsBlockDevice.Iops := autoscaling.Ebs.Iops e;
                    ec2.EbsBlockDevice.SnapshotId := autoscaling.Ebs.SnapshotId e;
                    ec2.EbsBlockDevice.VolumeSize := autoscaling.Ebs.VolumeSize e;
                    ec2.EbsBlockDevice.VolumeType := vt |})
    | None => Ok None
    end in
  let ec2BDM :=
    {| ec2.BlockDeviceMapping.DeviceName := autoscaling.BlockDeviceMapping.DeviceName BDM;
       ec2.BlockDeviceMapping.VirtualName := autoscaling.BlockDeviceMapping.VirtualName BDM;
       ec2.BlockDeviceMapping.Ebs := ebs;
       ec2.BlockDeviceMapping.NoDevice := None |} in
  match autoscaling.BlockDeviceMapping.NoDevice BDM with
  | Some true => Ok None
  | _ => Ok (Some ec2BDM)
  end.

Definition convertLaunchTemplateBlockDeviceMapping (i : instance.t)
    (BDM : ec2.LaunchTemplateBlockDeviceMapping.t) : result (option ec2.BlockDeviceMapping.t) :=
  let! ebs :=
    match ec2.LaunchTemplateBlockDeviceMapping.Ebs BDM with
    | Some e =>
        let! a := deref (instance.asg i) in
        let! vt := convertLaunchTemplateEBSVolumeType e a in
        Ok (Some {| ec2.EbsBlockDevice.DeleteOnTermination :=
                      ec2.LaunchTemplateEbsBlockDevice.DeleteOnTermination e;
                    ec2.EbsBlockDevice.Encrypted := ec2.LaunchTemplateEbsBlockDevice.Encrypted e;
                    ec2.EbsBlockDevice.Iops := ec2.LaunchTemplateEbsBlockDevice.Iops e;
                    ec2.EbsBlockDevice.SnapshotId := ec2.LaunchTemplateEbsBlockDevice.SnapshotId e;
                    ec2.EbsBlockDevice.VolumeSize := ec2.LaunchTemplateEbsBlockDevice.VolumeSize e;
                    ec2.EbsBlockDevice.VolumeType := vt |})
    | None => Ok None
    end in
  let ec2BDM :=
    {| ec2.BlockDeviceMapping.DeviceName := ec2.LaunchTemplateBlockDeviceMapping.DeviceName BDM;
       ec2.BlockDeviceMapping.VirtualName := ec2.LaunchTemplateBlockDeviceMapping.VirtualName BDM;
       ec2.BlockDeviceMapping.Ebs := ebs;
       ec2.BlockDeviceMapping.NoDevice := None |} in
  match ec2.LaunchTemplateBlockDeviceMapping.NoDevice BDM with
  | Some nd => if String.eqb nd "true" then Ok None else Ok (Some ec2BDM)
  | None => Ok (Some ec2BDM)
  end.

Definition convertImageBlockDeviceMapping (i : instance.t)
    (BDM : ec2.BlockDeviceMapping.t) : result (option ec2.BlockDeviceMapping.t) :=
  let! ebs :=
    match ec2.BlockDeviceMapping.Ebs BDM with
    | Some e =>
        let! a := deref (instance.asg i) in
        let! vt := convertImageEBSVolumeType e a in
        Ok (Some {| ec2.EbsBlockDevice.DeleteOnTermination := ec2.EbsBlockDevice.DeleteOnTermination e;
                    ec2.EbsBlockDevice.Encrypted := ec2.EbsBlockDevice.Encrypted e;
                    ec2.EbsBlockDevice.Iops := ec2.EbsBlockDevice.Iops e;
                    ec2.EbsBlockDevice.SnapshotId := ec2.EbsBlockDevice.SnapshotId e;
                    ec2.EbsBlockDevice.VolumeSize := ec2.EbsBlockDevice.VolumeSize e;
                    ec2.EbsBlockDevice.VolumeType := vt |})
    | None => Ok None
    end in
  let ec2BDM :=
    {| ec2.BlockDeviceMapping.DeviceName := ec2.BlockDeviceMapping.DeviceName BDM;
       ec2.BlockDeviceMapping.VirtualName := ec2.BlockDeviceMapping.VirtualName BDM;
       ec2.BlockDeviceMapping.Ebs := ebs;
       ec2.BlockDeviceMapping.NoDevice := None |} in
  match ec2.BlockDeviceMapping.NoDevice BDM with
  | Some nd => if String.eqb nd "true" then Ok None else Ok (Some ec2BDM)
  | None => Ok (Some ec2BDM)
  end.

(** The three conversions return the slice built, or nil when it is empty;
    both are the empty list here. *)
Definition convertLaunchConfigurationBlockDeviceMappings (i : instance.t)
    (BDMs : list autoscaling.BlockDeviceMapping.t) : result (list ec2.BlockDeviceMapping.t) :=
  convertMappings (convertLaunchConfigurationBlockDeviceMapping i) BDMs [].

Definition convertLaunchTemplateBlockDeviceMappings (i : instance.t)
    (BDMs : list ec2.LaunchTemplateBlockDeviceMapping.t) : result (list ec2.BlockDeviceMapping.t) :=
  convertMappings (convertLaunchTemplateBlockDeviceMapping i) BDMs [].

Definition convertImageBlockDeviceMappings (i : instance.t)
    (BDMs : list ec2.BlockDeviceMapping.t) : result (list ec2.BlockDeviceMapping.t) :=
  convertMappings (convertImageBlockDeviceMapping i) BDMs [].

(** ** The tags of a spot replacement *)

Definition copiedTag (tag : ec2.Tag.t) : bool :=
  negb (strings_HasPrefix (ec2.Tag.Key tag) "aws:") &&
  negb (String.eqb (ec2.Tag.Key tag) "launched-by-autospotting") &&
  negb (String.eqb (ec2.Tag.Key tag) "launched-for-asg") &&
  negb (String.eqb (ec2.Tag.Key tag) "launched-for-replacing-instance") &&
  negb (String.eqb (ec2.Tag.Key tag) "LaunchTemplateID") &&
  negb (String.eqb (ec2.Tag.Key tag) "LaunchTemplateVersion") &&
  negb (String.eqb (ec2.Tag.Key tag) "LaunchConfiguationName").

Definition generateTagsList (i : instance.t) : result (list ec2.TagSpecification.t) :=
  let! a := deref (instance.asg i) in
  let tags :=
    [ {| ec2.Tag.Key := "launched-by-autospotting"; ec2.Tag.Value := Some "true" |};
      {| ec2.Tag.Key := "launched-for-asg"; ec2.Tag.Value := Some (autoScalingGroup.name a) |};
      {| ec2.Tag.Key := "launched-for-replacing-instance";
         ec2.Tag.Value := Some (instance.InstanceId i) |} ] in
  let tags :=
    match autoScalingGroup.LaunchTemplate a with
    | Some lt =>
        (tags ++ [ {| ec2.Tag.Key := "LaunchTemplateID";
                      ec2.Tag.Value := autoscaling.LaunchTemplateSpecification.LaunchTemplateId lt |} ])
        ++ [ {| ec2.Tag.Key := "LaunchTemplateVersion";
                ec2.Tag.Value := autoscaling.LaunchTemplateSpecification.Version lt |} ]
    | None =>
        match autoScalingGroup.LaunchConfigurationName a with
        | Some _ =>
            tags ++ [ {| ec2.Tag.Key := "LaunchConfigurationName";
                         ec2.Tag.Value := autoScalingGroup.LaunchConfigurationName a |} ]
        | None => tags
        end
    end in
  let tags :=
    foldl (fun tags tag => if copiedTag tag then tags ++ [tag] else tags) tags (instance.Tags i) in
  Ok [ {| ec2.TagSpecification.ResourceType := Some "instance";
          ec2.TagSpecification.Tags := tags |} ].

(** The keys the replacement's own tags use. *)
Definition reservedKeys : list string :=
  [ "launched-by-autospotting"; "launched-for-asg"; "launched-for-replacing-instance";
    "LaunchTemplateID"; "LaunchTemplateVersion"; "LaunchConfigurationName" ].

Fixpoint getReplacementTargetASGName_loop (tags : list ec2.Tag.t) : option string :=
  match tags with
  | [] => None
  | tag :: tags' =>
      if String.eqb (ec2.Tag.Key tag) "launched-for-asg" then ec2.Tag.Value tag
      else getReplacementTargetASGName_loop tags'
  end.

Definition getReplacementTargetASGName (i : instance.t) : option string :=
  getReplacementTargetASGName_loop (instance.Tags i).

Fixpoint getReplacementTargetInstanceID_loop (tags : list ec2.Tag.t) : option string :=
  match tags with
  | [] => None
  | tag :: tags' =>
      if String.eqb (ec2.Tag.Key tag) "launched-for-replacing-instance" then ec2.Tag.Value tag
      else getReplacementTargetInstanceID_loop tags'
  end.

Definition getReplacementTargetInstanceID (i : instance.t) : option string :=
  getReplacementTargetInstanceID_loop (instance.Tags i).

Definition isLaunchedByAutoSpotting (i : instance.t) : bool :=
  existsb (fun tag => String.eqb (ec2.Tag.Key tag) "launched-by-autospotting") (instance.Tags i).

(** ** Calls that leave the file, and programs that issue them *)

(** The loaders [belongsToEnabledASG] runs on the group it found; each is a
    method of the group declared in another file. *)
Inductive asgLoader : Type :=
| scanInstances
| loadDefaultConfig
| loadConfigFromTags
| loadLaunchConfiguration
| loadLaunchTemplate.

(** One constructor per call whose body is not in this file, indexed by the
    type of what the call gives back.  The first two are the EC2 API of the
    SDK ([i.region.services.ec2]); [scanInstance] is the region's method,
    which gives back its error and the region's registry as the scan left
    it; the others are methods of the group, named by the group's name (a
    loader gives back the group as it left it). *)
Inductive event : Type -> Type :=
| DescribeInstanceAttribute (InstanceId Attribute : string)
    : event (option ec2.DescribeInstanceAttributeOutput.t * option error)
| TerminateInstances (InstanceIds : list string) : event (option error)
| scanInstance (instanceID : string) : event (option error * instanceManager.t)
| load (m : asgLoader) (a : autoScalingGroup.t) : event autoScalingGroup.t
| needReplaceOnDemandInstances (a : autoScalingGroup.t) : event bool
| suspendProcesses (asg : string) : event unit
| resumeProcesses (asg : string) : event unit
| setAutoScalingMaxSize (asg : string) (maxSize : Z) : event (option error)
| attachSpotInstance (asg : string) (spotInstanceID : string) (wait : bool)
    : event (option error)
| terminateInstanceInAutoScalingGroup (asg : string) (instanceID : string)
    (wait decreaseCapacity : bool) : event (option error).

(** A program: it returns, or issues a call and goes on with the answer. *)
Inductive prog (A : Type) : Type :=
| Ret (a : A)
| Vis (X : Type) (e : event X) (k : X -> prog A).
Arguments Ret {A} a.
Arguments Vis {A X} e k.

Fixpoint prog_bind {A B : Type} (p : prog A) (f : A -> prog B) : prog B :=
  match p with
  | Ret a => f a
  | Vis e k => Vis e (fun x => prog_bind (k x) f)
  end.

Definition trigger {X : Type} (e : event X) : prog X := Vis e Ret.

(** A program that may panic. *)
Definition exec (A : Type) : Type := prog (result A).

Definition exec_ret {A : Type} (a : A) : exec A := Ret (Ok a).

Definition exec_bind {A B : Type} (m : exec A) (f : A -> exec B) : exec B :=
  prog_bind m (fun r => match r with Ok a => f a | Panic => Ret Panic end).

Definition lift {A : Type} (p : prog A) : exec A := prog_bind p exec_ret.

(** The body of a function that uses [defer]: it runs from the deferred
    calls registered so far (the last one first) to a result or a panic and
    the deferred calls registered by then. *)
Definition fn (A : Type) : Type :=
  list (prog unit) -> prog (result A * list (prog unit)).

Definition fn_ret {A : Type} (a : A) : fn A := fun ds => Ret (Ok a, ds).

Definition fn_bind {A B : Type} (m : fn A) (f : A -> fn B) : fn B :=
  fun ds =>
    prog_bind (m ds) (fun rd =>
      match fst rd with
      | Ok a => f a (snd rd)
      | Panic => Ret (Panic, snd rd)
      end).

Definition fn_exec {A : Type} (m : exec A) : fn A :=
  fun ds => prog_bind m (fun r => Ret (r, ds)).

Definition defer (d : prog unit) : fn unit := fun ds => Ret (Ok tt, d :: ds).

Fixpoint run_deferred (ds : list (prog unit)) : prog unit :=
  match ds with
  | [] => Ret tt
  | d :: ds' => prog_bind d (fun _ => run_deferred ds')
  end.

(** A call of such a function: its body, then the deferred calls in reverse
    order of registration, on a return and on a panic alike. *)
Definition call_fn {A : Type} (m : fn A) : exec A :=
  prog_bind (m []) (fun rd => prog_bind (run_deferred (snd rd)) (fun _ => Ret (fst rd))).

Notation "x <- m ;; k" := (exec_bind m (fun x => k))
  (at level 62, m at next level, right associativity).
Notation "x <~ m ;; k" := (fn_bind m (fun x => k))
  (at level 62, m at next level, right associativity).

(** ** [terminate], the replacement predicate and the swap *)

Definition isProtectedFromTermination (i : instance.t) : prog (bool * option error) :=
  prog_bind (trigger (DescribeInstanceAttribute (instance.InstanceId i) "disableApiTermination"))
    (fun res =>
       match snd res with
       | Some err => Ret (true, Some err)
       | None =>
           match fst res with
           | Some diaRes =>
               match ec2.DescribeInstanceAttributeOutput.DisableApiTermination diaRes with
               | Some v =>
                   match ec2.AttributeBooleanValue.Value v with
                   | Some true => Ret (true, None)
                   | _ => Ret (false, None)
                   end
               | None => Ret (false, None)
               end
           | None => Ret (false, None)
           end
       end).

Definition isProtectedFromScaleIn (i : instance.t) : bool :=
  match instance.asg i with
  | None => false
  | Some a =>
      existsb (fun inst =>
                 String.eqb (autoscaling.Instance.InstanceId inst) (instance.InstanceId i) &&
                 autoscaling.Instance.ProtectedFromScaleIn inst)
              (autoScalingGroup.Instances a)
  end.

Definition canTerminate (i : instance.t) : bool :=
  negb (String.eqb (instance.StateName i) ec2.InstanceStateNameTerminated) &&
  negb (String.eqb (instance.StateName i) ec2.InstanceStateNameShuttingDown).

Definition terminate (i : instance.t) : prog (option error) :=
  if negb (canTerminate i) then
    Ret (Some (String.append "can't terminate " (instance.InstanceId i)))
  else
    prog_bind (trigger (TerminateInstances [instance.InstanceId i])) (fun err => Ret err).

Fixpoint belongsToAnASG_loop (tags : list ec2.Tag.t) : bool * option string :=
  match tags with
  | [] => (false, None)
  | tag :: tags' =>
      if String.eqb (ec2.Tag.Key tag) "aws:autoscaling:groupName" then (true, ec2.Tag.Value tag)
      else belongsToAnASG_loop tags'
  end.

Definition belongsToAnASG (i : instance.t) : bool * option string :=
  belongsToAnASG_loop (instance.Tags i).

(** The loop of [belongsToEnabledASG] over [i.region.enabledASGs]; it gives
    back the instance as the loop left it ([i.asg] and [i.price] are set on
    a match). *)
Fixpoint belongsToEnabledASG_loop (i : instance.t) (asgName : option string)
    (asgs : list autoScalingGroup.t) : exec (bool * instance.t) :=
  match asgs with
  | [] => exec_ret (false, i)
  | asg :: asgs' =>
      name <- Ret (deref asgName) ;;
      if String.eqb (autoScalingGroup.name asg) name then
        let asg :=
          autoScalingGroup.set_config
            (Config.AutoScalingConfig (region.conf (instance.region i))) asg in
        asg <- lift (trigger (load scanInstances asg)) ;;
        asg <- lift (trigger (load loadDefaultConfig asg)) ;;
        asg <- lift (trigger (load loadConfigFromTags asg)) ;;
        asg <- lift (trigger (load loadLaunchConfiguration asg)) ;;
        asg <- lift (trigger (load loadLaunchTemplate asg)) ;;
        let i := instance.set_asg (Some asg) i in
        let i :=
          instance.set_price
            (prices.onDemand (instanceTypeInformation.pricing (instance.typeInfo i))
             / Config.OnDemandPriceMultiplier (region.conf (instance.region i))
             * AutoScalingConfig.OnDemandPriceMultiplier (autoScalingGroup.config asg))%float
            i in
        exec_ret (true, i)
      else belongsToEnabledASG_loop i asgName asgs'
  end.

Definition belongsToEnabledASG (i : instance.t) : exec (bool * instance.t) :=
  let (belongs, asgName) := belongsToAnASG i in
  if negb belongs then exec_ret (false, i)
  else belongsToEnabledASG_loop i asgName (region.enabledASGs (instance.region i)).

(** [i.asg] is set by the time this is called; a nil group is taken to
    panic in the method. *)
Definition asgNeedsReplacement (i : instance.t) : exec bool :=
  a <- Ret (deref (instance.asg i)) ;;
  lift (trigger (needReplaceOnDemandInstances a)).

(** [shouldBeReplacedWithSpot], with the instance as the call left it. *)
Definition shouldBeReplacedWithSpot (i : instance.t) : exec (bool * instance.t) :=
  prot <- lift (isProtectedFromTermination i) ;;
  let protT := fst prot in
  belongs <- belongsToEnabledASG i ;;
  let i := snd belongs in
  if negb (fst belongs) then exec_ret (false, i)
  else
    needs <- asgNeedsReplacement i ;;
    exec_ret (needs && negb (isSpot i) && negb (isProtectedFromScaleIn i) && negb protT, i).

Definition swapWithGroupMember (i : instance.t) (asg : autoScalingGroup.t)
  : exec (option instance.t * option error) :=
  call_fn (
    match getReplacementTargetInstanceID i with
    | None =>
        fn_ret (None, Some (String.append "couldn't find target instance for "
                                          (instance.InstanceId i)))
    | Some odInstanceID =>
        scan <~ fn_exec (lift (trigger (scanInstance odInstanceID))) ;;
        match fst scan with
        | Some _ =>
            fn_ret (None, Some (String.append "target instance "
                                  (String.append odInstanceID " couldn't be described")))
        | None =>
            match get odInstanceID (snd scan) with
            | None =>
                fn_ret (None, Some (String.append "target instance "
                                      (String.append odInstanceID " is missing")))
            | Some odInstance =>
                should <~ fn_exec (shouldBeReplacedWithSpot odInstance) ;;
                let odInstance := snd should in
                if negb (fst should) then
                  _ <~ fn_exec (lift (terminate i)) ;;
                  fn_ret (None, Some (String.append "target instance "
                                        (String.append odInstanceID
                                           " should not be replaced with spot")))
                else
                  _ <~ fn_exec (lift (trigger (suspendProcesses (autoScalingGroup.name asg)))) ;;
                  _ <~ defer (trigger (resumeProcesses (autoScalingGroup.name asg))) ;;
                  let desiredCapacity := autoScalingGroup.DesiredCapacity asg in
                  let maxSize := autoScalingGroup.MaxSize asg in
                  _ <~ (if (desiredCapacity =? maxSize)%Z then
                          _ <~ fn_exec (lift (trigger (setAutoScalingMaxSize
                                                         (autoScalingGroup.name asg)
                                                         (wrap64 (maxSize + 1))))) ;;
                          defer (prog_bind (trigger (setAutoScalingMaxSize
                                                       (autoScalingGroup.name asg) maxSize))
                                           (fun _ => Ret tt))
                        else fn_ret tt) ;;
                  err <~ fn_exec (lift (trigger (attachSpotInstance (autoScalingGroup.name asg)
                                                   (instance.InstanceId i) true))) ;;
                  match err with
                  | Some _ =>
                      _ <~ fn_exec (lift (terminate i)) ;;
                      fn_ret (None, Some (String.append "couldn't attach spot instance "
                                            (String.append (instance.InstanceId i) " ")))
                  | None =>
                      err <~ fn_exec (lift (trigger (terminateInstanceInAutoScalingGroup
                                                       (autoScalingGroup.name asg) odInstanceID
                                                       true true))) ;;
                      match err with
                      | Some _ =>
                          fn_ret (None, Some (String.append "couldn't terminate on-demand instance "
                                                            odInstanceID))
                      | None => fn_ret (Some odInstance, None)
                      end
                  end
            end
        end
    end).

(** ** Running a program against an environment *)

(** A call as the trace records it. *)
Definition issued : Type := sigT event.

Definition issue {X : Type} (e : event X) : issued := existT X e.

(** The environment: the answer to a call, given the calls issued before. *)
Definition oracle : Type := forall X : Type, list issued -> event X -> X.

Fixpoint run_from {A : Type} (o : oracle) (tr : list issued) (p : prog A) : A * list issued :=
  match p with
  | Ret a => (a, tr)
  | Vis e k => run_from o (tr ++ [issue e]) (k (o _ tr e))
  end.

Definition run {A : Type} (o : oracle) (p : prog A) : A * list issued := run_from o [] p.

(** ** Reading a trace *)

(** Calls that only read or load: the ones [shouldBeReplacedWithSpot]
    issues. *)
Definition isProbe (c : issued) : bool :=
  match projT2 c with
  | DescribeInstanceAttribute _ _ => true
  | load _ _ => true
  | needReplaceOnDemandInstances _ => true
  | _ => false
  end.

Definition isSuspend (c : issued) : bool :=
  match projT2 c with
  | suspendProcesses _ => true
  | _ => false
  end.

Definition isTerminateInstances (c : issued) : bool :=
  match projT2 c with
  | TerminateInstances _ => true
  | _ => false
  end.

(** The calls the two [defer]s of the swap make, in the order they run. *)
Definition release (asg : autoScalingGroup.t) : list issued :=
  (if (autoScalingGroup.DesiredCapacity asg =? autoScalingGroup.MaxSize asg)%Z
   then [issue (setAutoScalingMaxSize (autoScalingGroup.name asg)
                                      (autoScalingGroup.MaxSize asg))]
   else []) ++ [issue (resumeProcesses (autoScalingGroup.name asg))].

(** Modelled from the spec: what the group's calls do to the group in the
    cloud is implemented outside the repository; [suspend_processes] and
    [resume_processes] suspend and resume the group's lifecycle processes,
    [set_auto_scaling_max_size(group, n)] sets its maximum size.  Each call
    issued is taken to take effect. *)
Module cloud.
Record group : Type := { suspended : bool; maxSize : Z }.

Definition step (asg : string) (g : group) (c : issued) : group :=
  match projT2 c with
  | suspendProcesses a =>
      if String.eqb a asg then {| suspended := true; maxSize := maxSize g |} else g
  | resumeProcesses a =>
      if String.eqb a asg then {| suspended := false; maxSize := maxSize g |} else g
  | setAutoScalingMaxSize a n =>
      if String.eqb a asg then {| suspended := suspended g; maxSize := n |} else g
  | _ => g
  end.

Definition after (asg : string) (g : group) (tr : list issued) : group :=
  foldl (step asg) g tr.
End cloud.

(** ** Further definitions: locals of the functions above, and readings of
    a trace *)

(** The local [tags.Tags] of [generateTagsList] before the copying loop:
    the replacement's own tags, for the group [a] of the instance. *)
Definition replacementTags (i : instance.t) (a : autoScalingGroup.t) : list ec2.Tag.t :=
  let tags :=
    [ {| ec2.Tag.Key := "launched-by-autospotting"; ec2.Tag.Value := Some "true" |};
      {| ec2.Tag.Key := "launched-for-asg"; ec2.Tag.Value := Some (autoScalingGroup.name a) |};
      {| ec2.Tag.Key := "launched-for-replacing-instance";
         ec2.Tag.Value := Some (instance.InstanceId i) |} ] in
  match autoScalingGroup.LaunchTemplate a with
  | Some lt =>
      (tags ++ [ {| ec2.Tag.Key := "LaunchTemplateID";
                    ec2.Tag.Value := autoscaling.LaunchTemplateSpecification.LaunchTemplateId lt |} ])
      ++ [ {| ec2.Tag.Key := "LaunchTemplateVersion";
              ec2.Tag.Value := autoscaling.LaunchTemplateSpecification.Version lt |} ]
  | None =>
      match autoScalingGroup.LaunchConfigurationName a with
      | Some _ =>
          tags ++ [ {| ec2.Tag.Key := "LaunchConfigurationName";
                       ec2.Tag.Value := autoScalingGroup.LaunchConfigurationName a |} ]
      | None => tags
      end
  end.

(** The mappings the three conversions keep: the ones not flagged
    [NoDevice] (a boolean in a launch configuration, the string ["true"] in
    a launch template and in an image). *)
Definition keptLaunchConfigurationMapping (BDM : autoscaling.BlockDeviceMapping.t) : bool :=
  match autoscaling.BlockDeviceMapping.NoDevice BDM with
  | Some true => false
  | _ => true
  end.

Definition keptLaunchTemplateMapping (BDM : ec2.LaunchTemplateBlockDeviceMapping.t) : bool :=
  match ec2.LaunchTemplateBlockDeviceMapping.NoDevice BDM with
  | Some nd => negb (String.eqb nd "true")
  | None => true
  end.

Definition keptImageMapping (BDM : ec2.BlockDeviceMapping.t) : bool :=
  match ec2.BlockDeviceMapping.NoDevice BDM with
  | Some nd => negb (String.eqb nd "true")
  | None => true
  end.

(** Further readings of a trace: the two calls of the swap that change the
    group's members. *)
Definition isAttach (c : issued) : bool :=
  match projT2 c with
  | attachSpotInstance _ _ _ => true
  | _ => false
  end.

Definition isGroupTerminate (c : issued) : bool :=
  match projT2 c with
  | terminateInstanceInAutoScalingGroup _ _ _ _ => true
  | _ => false
  end.

(** The calls of the swap that act on the group: the suspension and the
    resumption of its processes, the change of its maximum size, the attach
    and the termination of a member. *)
Definition isGroupCall (c : issued) : bool :=
  match projT2 c with
  | suspendProcesses _ => true
  | resumeProcesses _ => true
  | setAutoScalingMaxSize _ _ => true
  | attachSpotInstance _ _ _ => true
  | terminateInstanceInAutoScalingGroup _ _ _ _ => true
  | _ => false
  end.

(** ** Instances that wait to be attached *)

Section Attachment.

(** [region.findEnabledASGByName] and [autoScalingGroup.hasMemberInstance],
    methods declared in other files of the package. *)
Variable findEnabledASGByName : region.t -> string -> option autoScalingGroup.t.
Variable hasMemberInstance : autoScalingGroup.t -> instance.t -> bool.

Definition isUnattachedSpotInstanceLaunchedForAnEnabledASG (i : instance.t) : bool :=
  match getReplacementTargetASGName i with
  | None => false
  | Some asgName =>
      match findEnabledASGByName (instance.region i) asgName with
      | Some asg => if negb (hasMemberInstance asg i) && isSpot i then true else false
      | None => false
      end
  end.

Definition handleInstanceStates (i : instance.t) : bool * option error :=
  if negb (String.eqb (instance.StateName i) "running") then
    (true, Some "instance not in running state")
  else
    let unattached := isUnattachedSpotInstanceLaunchedForAnEnabledASG i in
    if negb unattached then (true, None)
    else (false, None).

End Attachment.

(** [isReadyToAttach].  [now] is [time.Now().Unix()], read from the clock,
    and [launchTime] is [i.LaunchTime.Unix()], of a field of the SDK's
    instance that [ec2.Instance.t] does not keep; both are [int64] seconds,
    and so is their difference. *)
Definition isReadyToAttach (now launchTime : Z) (i : instance.t) (asg : autoScalingGroup.t)
  : bool :=
  let gracePeriod := autoScalingGroup.HealthCheckGracePeriod asg in
  let instanceUpTime := wrap64 (now - launchTime) in
  if String.eqb (instance.StateName i) ec2.InstanceStateNameRunning &&
     (instanceUpTime >? gracePeriod)%Z then true
  else if String.eqb (instance.StateName i) ec2.InstanceStateNameRunning &&
          (instanceUpTime <? gracePeriod)%Z then false
  else if String.eqb (instance.StateName i) ec2.InstanceStateNamePending then false
  else false.

(** ** The launch of a spot replacement *)

(** What the launch reads of its receiver beyond [instance.t]: the subnet,
    the security groups and the image of the embedded [ec2.Instance], and
    the SDK's launch configuration embedded in [i.asg.launchConfiguration]
    (read only when the group has one). *)
Module launchData.
Record t : Type := {
  SubnetId : option string;
  SecurityGroups : list sdk.GroupIdentifier.t;
  ImageId : option string;
  LaunchConfiguration : sdk.LaunchConfiguration.t
}.
End launchData.

(** The EC2 API calls of the launch ([i.region.services.ec2]), indexed by
    what they give back: the output and the error. *)
Inductive ec2Call : Type -> Type :=
| DescribeImages (ImageIds : list (option string))
    : ec2Call (sdk.DescribeImagesOutput.t * option error)
| DescribeLaunchTemplateVersions (LaunchTemplateId : option string)
    (Versions : list (option string))
    : ec2Call (sdk.DescribeLaunchTemplateVersionsOutput.t * option error)
| RunInstances (input : option sdk.RunInstancesInput.t)
    : ec2Call (sdk.Reservation.t * option error).

(** A program over these calls that may panic, with its bind. *)
Inductive launch (A : Type) : Type :=
| Return (r : result A)
| Request (X : Type) (c : ec2Call X) (k : X -> launch A).
Arguments Return {A} r.
Arguments Request {A X} c k.

Fixpoint launch_bind {A B : Type} (m : launch A) (f : A -> launch B) : launch B :=
  match m with
  | Return (Ok a) => f a
  | Return Panic => Return Panic
  | Request c k => Request c (fun x => launch_bind (k x) f)
  end.

Definition request {X : Type} (c : ec2Call X) : launch X := Request c (fun x => Return (Ok x)).

Notation "x <~~ m ;; k" := (launch_bind m (fun x => k))
  (at level 62, m at next level, right associativity).

(** A call as the trace records it, the environment, and a run. *)
Definition requested : Type := sigT ec2Call.

Definition ask {X : Type} (c : ec2Call X) : requested := existT X c.

Definition ec2Service : Type := forall X : Type, list requested -> ec2Call X -> X.

Fixpoint launch_from {A : Type} (svc : ec2Service) (tr : list requested) (m : launch A)
  : result A * list requested :=
  match m with
  | Return r => (r, tr)
  | Request c k => launch_from svc (tr ++ [ask c]) (k (svc _ tr c))
  end.

(** The instance type a [RunInstances] call asks for. *)
Definition requestedType (c : requested) : option string :=
  match projT2 c with
  | RunInstances (Some input) => sdk.RunInstancesInput.InstanceType input
  | _ => None
  end.

Definition convertSecurityGroups (d : launchData.t) : list (option string) :=
  foldl (fun groupIDs sg => groupIDs ++ [sdk.GroupIdentifier.GroupId sg]) []
        (launchData.SecurityGroups d).

Definition getlaunchTemplate (id ver : option string)
  : launch (option sdk.ResponseLaunchTemplateData.t * option error) :=
  r <~~ request (DescribeLaunchTemplateVersions id [ver]) ;;
  let res := fst r in
  match snd r with
  | Some err =>
      (* the log line dereferences both *)
      _ <~~ Return (deref id) ;;
      _ <~~ Return (deref ver) ;;
      Return (Ok (None, Some err))
  | None =>
      if (Z.of_nat (length (sdk.DescribeLaunchTemplateVersionsOutput.LaunchTemplateVersions res))
            =? 1)%Z
      then
        v <~~ Return (deref (sdk.DescribeLaunchTemplateVersionsOutput.LaunchTemplateVersions res
                               !! 0%nat)) ;;
        Return (Ok (sdk.LaunchTemplateVersion.LaunchTemplateData v, None))
      else Return (Ok (None, Some "missing launch template version information"))
  end.

Definition launchTemplateHasNetworkInterfaces
    (ltData : option sdk.ResponseLaunchTemplateData.t)
  : bool * list sdk.LaunchTemplateInstanceNetworkInterfaceSpecification.t :=
  match ltData with
  | None => (false, [])
  | Some ltData =>
      let nis := sdk.ResponseLaunchTemplateData.NetworkInterfaces ltData in
      if (Z.of_nat (length nis) >? 0)%Z then (true, nis) else (false, [])
  end.

Definition processLaunchTemplate (i : instance.t) (d : launchData.t)
    (retval : sdk.RunInstancesInput.t) : launch (sdk.RunInstancesInput.t * option error) :=
  a <~~ Return (deref (instance.asg i)) ;;
  lt <~~ Return (deref (autoScalingGroup.LaunchTemplate a)) ;;
  let ver := autoscaling.LaunchTemplateSpecification.Version lt in
  let id := autoscaling.LaunchTemplateSpecification.LaunchTemplateId lt in
  let retval :=
    sdk.RunInstancesInput.set_LaunchTemplate
      (Some {| sdk.LaunchTemplateSpecification.LaunchTemplateId := id;
               sdk.LaunchTemplateSpecification.Version := ver |}) retval in
  r <~~ getlaunchTemplate id ver ;;
  match snd r with
  | Some err => Return (Ok (retval, Some err))
  | None =>
      data <~~ Return (deref (fst r)) ;;
      bds <~~ Return (convertLaunchTemplateBlockDeviceMappings i
                        (sdk.ResponseLaunchTemplateData.BlockDeviceMappings data)) ;;
      let retval := sdk.RunInstancesInput.set_BlockDeviceMappings bds retval in
      let (having, nis) := launchTemplateHasNetworkInterfaces (fst r) in
      if having then
        let retval :=
          foldl (fun retval ni =>
                   sdk.RunInstancesInput.set_NetworkInterfaces
                     (sdk.RunInstancesInput.NetworkInterfaces retval ++
                      [ {| sdk.InstanceNetworkInterfaceSpecification.AssociatePublicIpAddress :=
                             sdk.LaunchTemplateInstanceNetworkInterfaceSpecification.AssociatePublicIpAddress ni;
                           sdk.InstanceNetworkInterfaceSpecification.DeviceIndex :=
                             sdk.LaunchTemplateInstanceNetworkInterfaceSpecification.DeviceIndex ni;
                           sdk.InstanceNetworkInterfaceSpecification.Groups :=
                             convertSecurityGroups d;
                           sdk.InstanceNetworkInterfaceSpecification.SubnetId :=
                             launchData.SubnetId d |} ])
                     retval)
                retval nis in
        Return (Ok (sdk.RunInstancesInput.set_SecurityGroupIds []
                      (sdk.RunInstancesInput.set_SubnetId None retval), None))
      else Return (Ok (retval, None))
  end.

Section Launch.

(** Go's library: [strings.ToLower], and [strconv.FormatFloat(price, 'g',
    10, 64)]. *)
Variable strings_ToLower : string -> string.
Variable strconv_FormatFloat : float -> string.

(** Functions declared in other files of the package:
    [getPatchedUserDataForBeanstalk], and the group's methods that give the
    lists of allowed and disallowed instance types. *)
Variable getPatchedUserDataForBeanstalk : option string -> option string.
Variable getAllowedInstanceTypes : autoScalingGroup.t -> instance.t -> list string.
Variable getDisallowedInstanceTypes : autoScalingGroup.t -> instance.t -> list string.

(** The parameters of the filter and ranker. *)
Variable filepath_Match : string -> string -> bool.
Variable sort_Slice :
  (acceptableInstance.t -> acceptableInstance.t -> bool) ->
  list acceptableInstance.t -> list acceptableInstance.t.
Variable countLaunchConfigEphemeralVolumes : option launchConfiguration.t -> Z.
Variable countLaunchTemplateEphemeralVolumes : option launchTemplate.t -> Z.

Definition processLaunchConfiguration (i : instance.t) (d : launchData.t)
    (retval : sdk.RunInstancesInput.t) : result sdk.RunInstancesInput.t :=
  let! a := deref (instance.asg i) in
  let! wrapper := deref (autoScalingGroup.launchConfiguration a) in
  let lc := launchData.LaunchConfiguration d in
  let retval :=
    match sdk.LaunchConfiguration.KeyName lc with
    | Some keyName =>
        if negb (String.eqb keyName "")
        then sdk.RunInstancesInput.set_KeyName (sdk.LaunchConfiguration.KeyName lc) retval
        else retval
    | None => retval
    end in
  let retval :=
    match sdk.LaunchConfiguration.IamInstanceProfile lc with
    | Some profile =>
        if strings_HasPrefix profile "arn:aws:iam:" then
          sdk.RunInstancesInput.set_IamInstanceProfile
            (Some {| sdk.IamInstanceProfileSpecification.Arn :=
                       sdk.LaunchConfiguration.IamInstanceProfile lc;
                     sdk.IamInstanceProfileSpecification.Name := None |}) retval
        else
          sdk.RunInstancesInput.set_IamInstanceProfile
            (Some {| sdk.IamInstanceProfileSpecification.Arn := None;
                     sdk.IamInstanceProfileSpecification.Name :=
                       sdk.LaunchConfiguration.IamInstanceProfile lc |}) retval
    | None => retval
    end in
  let retval := sdk.RunInstancesInput.set_ImageId (sdk.LaunchConfiguration.ImageId lc) retval in
  let retval :=
    if String.eqb (strings_ToLower (AutoScalingConfig.PatchBeanstalkUserdata
                                      (autoScalingGroup.config a))) "true"
    then sdk.RunInstancesInput.set_UserData
           (getPatchedUserDataForBeanstalk (sdk.LaunchConfiguration.UserData lc)) retval
    else sdk.RunInstancesInput.set_UserData (sdk.LaunchConfiguration.UserData lc) retval in
  let! BDMs :=
    convertLaunchConfigurationBlockDeviceMappings i
      (launchConfiguration.BlockDeviceMappings wrapper) in
  let retval :=
    if (Z.of_nat (length BDMs) >? 0)%Z
    then sdk.RunInstancesInput.set_BlockDeviceMappings BDMs retval
    else retval in
  let retval :=
    match sdk.LaunchConfiguration.InstanceMonitoring lc with
    | Some monitoring =>
        sdk.RunInstancesInput.set_Monitoring
          (Some {| sdk.RunInstancesMonitoringEnabled.Enabled :=
                     sdk.InstanceMonitoring.Enabled monitoring |}) retval
    | None => retval
    end in
  let retval :=
    match sdk.LaunchConfiguration.AssociatePublicIpAddress lc, launchData.SubnetId d with
    | None, None => retval
    | _, _ =>
        sdk.RunInstancesInput.set_SecurityGroupIds []
          (sdk.RunInstancesInput.set_SubnetId None
             (sdk.RunInstancesInput.set_NetworkInterfaces
                [ {| sdk.InstanceNetworkInterfaceSpecification.AssociatePublicIpAddress :=
                       sdk.LaunchConfiguration.AssociatePublicIpAddress lc;
                     sdk.InstanceNetworkInterfaceSpecification.DeviceIndex := Some 0%Z;
                     sdk.InstanceNetworkInterfaceSpecification.Groups := convertSecurityGroups d;
                     sdk.InstanceNetworkInterfaceSpecification.SubnetId :=
                       launchData.SubnetId d |} ]
                retval))
    end in
  Ok retval.

Definition processImageBlockDevices (i : instance.t) (d : launchData.t)
    (rii : sdk.RunInstancesInput.t) : launch sdk.RunInstancesInput.t :=
  r <~~ request (DescribeImages [launchData.ImageId d]) ;;
  let resp := fst r in
  match snd r with
  | Some _ => Return (Ok rii)
  | None =>
      if (Z.of_nat (length (sdk.DescribeImagesOutput.Images resp)) =? 0)%Z then Return (Ok rii)
      else
        image <~~ Return (deref (sdk.DescribeImagesOutput.Images resp !! 0%nat)) ;;
        bds <~~ Return (convertImageBlockDeviceMappings i
                          (sdk.Image.BlockDeviceMappings image)) ;;
        Return (Ok (sdk.RunInstancesInput.set_BlockDeviceMappings bds rii))
  end.

Definition createRunInstancesInput (i : instance.t) (d : launchData.t)
    (instanceType : string) (price : float)
  : launch (option sdk.RunInstancesInput.t * option error) :=
  tags <~~ Return (generateTagsList i) ;;
  let retval :=
    {| sdk.RunInstancesInput.BlockDeviceMappings := [];
       sdk.RunInstancesInput.EbsOptimized := ec2.Instance.EbsOptimized (instance.Instance i);
       sdk.RunInstancesInput.IamInstanceProfile := None;
       sdk.RunInstancesInput.ImageId := None;
       sdk.RunInstancesInput.InstanceMarketOptions :=
         Some {| sdk.InstanceMarketOptionsRequest.MarketType := Some Spot;
                 sdk.InstanceMarketOptionsRequest.SpotOptions :=
                   Some {| sdk.SpotMarketOptions.MaxPrice :=
                             Some (strconv_FormatFloat price) |} |};
       sdk.RunInstancesInput.InstanceType := Some instanceType;
       sdk.RunInstancesInput.KeyName := None;
       sdk.RunInstancesInput.LaunchTemplate := None;
       sdk.RunInstancesInput.MaxCount := Some 1%Z;
       sdk.RunInstancesInput.MinCount := Some 1%Z;
       sdk.RunInstancesInput.Monitoring := None;
       sdk.RunInstancesInput.NetworkInterfaces := [];
       sdk.RunInstancesInput.Placement := ec2.Instance.Placement (instance.Instance i);
       sdk.RunInstancesInput.SecurityGroupIds := convertSecurityGroups d;
       sdk.RunInstancesInput.SubnetId := launchData.SubnetId d;
       sdk.RunInstancesInput.TagSpecifications := tags;
       sdk.RunInstancesInput.UserData := None |} in
  retval <~~ processImageBlockDevices i d retval ;;
  a <~~ Return (deref (instance.asg i)) ;;
  r <~~ match autoScalingGroup.LaunchTemplate a with
        | Some _ => processLaunchTemplate i d retval
        | None => Return (Ok (retval, None))
        end ;;
  match snd r with
  | Some err => Return (Ok (None, Some err))
  | None =>
      let retval := fst r in
      match autoScalingGroup.launchConfiguration a with
      | Some _ =>
          retval <~~ Return (processLaunchConfiguration i d retval) ;;
          Return (Ok (Some retval, None))
      | None => Return (Ok (Some retval, None))
      end
  end.

(** The loop of [launchSpotReplacement] over the compatible types;
    [FinalRecap] is the map of that name in the configuration
    ([i.region.conf.FinalRecap]), which the loop extends on a launch. *)
Fixpoint launchSpotReplacement_loop (i : instance.t) (d : launchData.t)
    (FinalRecap : gmap string (list string))
    (instanceTypes : list instanceTypeInformation.t)
  : launch ((option string * option error) * gmap string (list string)) :=
  match instanceTypes with
  | [] =>
      (* the log line reads [i.asg.name] *)
      _ <~~ Return (deref (instance.asg i)) ;;
      Return (Ok ((None, Some "exhausted all compatible instance types"), FinalRecap))
  | instanceType :: instanceTypes' =>
      let az := instance.AvailabilityZone i in
      let bidPrice :=
        getPriceToBid i (instance.price i)
          (default 0%float
             (prices.spot (instanceTypeInformation.pricing instanceType) !! az))
          (prices.premium (instanceTypeInformation.pricing instanceType)) in
      r <~~ createRunInstancesInput i d
              (instanceTypeInformation.instanceType instanceType) bidPrice ;;
      match snd r with
      | Some _ => launchSpotReplacement_loop i d FinalRecap instanceTypes'
      | None =>
          run <~~ request (RunInstances (fst r)) ;;
          match snd run with
          | Some _ => launchSpotReplacement_loop i d FinalRecap instanceTypes'
          | None =>
              spotInst <~~ Return (deref (sdk.Reservation.Instances (fst run) !! 0%nat)) ;;
              a <~~ Return (deref (instance.asg i)) ;;
              (* the log line dereferences both *)
              id <~~ Return (deref (sdk.Instance.InstanceId spotInst)) ;;
              _ <~~ Return (deref (sdk.Instance.InstanceType spotInst)) ;;
              let recapText :=
                String.append (autoScalingGroup.name a)
                  (String.append " Launched spot instance " id) in
              let name := region.name (instance.region i) in
              Return (Ok ((sdk.Instance.InstanceId spotInst, None),
                          <[name := default [] (FinalRecap !! name) ++ [recapText]]>
                            FinalRecap))
          end
      end
  end.

(** [launchSpotReplacement]; it gives back, with its two results, the
    instance as it left it ([i.price] is set) and [FinalRecap]. *)
Definition launchSpotReplacement (i : instance.t) (d : launchData.t)
    (FinalRecap : gmap string (list string))
  : launch ((option string * option error) * (instance.t * gmap string (list string))) :=
  a <~~ Return (deref (instance.asg i)) ;;
  let i :=
    instance.set_price
      (prices.onDemand (instanceTypeInformation.pricing (instance.typeInfo i))
       / Config.OnDemandPriceMultiplier (region.conf (instance.region i))
       * AutoScalingConfig.OnDemandPriceMultiplier (autoScalingGroup.config a))%float i in
  types <~~ Return (getCompatibleSpotInstanceTypesListSortedAscendingByPrice
                      filepath_Match sort_Slice countLaunchConfigEphemeralVolumes
                      countLaunchTemplateEphemeralVolumes i
                      (getAllowedInstanceTypes a i) (getDisallowedInstanceTypes a i)) ;;
  match snd types with
  | Some err => Return (Ok ((None, Some err), (i, FinalRecap)))
  | None =>
      out <~~ launchSpotReplacement_loop i d FinalRecap (fst types) ;;
      Return (Ok (fst out, (i, snd out)))
  end.

End Launch.

(** Reading a trace of the launch: a call is refused when it is a
    [RunInstances] that the service answers with an error (any other call
    counts as refused), and [allRefused svc tr reqs] says so of each call
    of [reqs], issued one after the other after [tr]. *)
Definition refused (svc : ec2Service) (tr : list requested) (c : requested) : bool :=
  match projT2 c with
  | RunInstances input =>
      match snd (svc _ tr (RunInstances input)) with
      | Some _ => true
      | None => false
      end
  | _ => true
  end.

Fixpoint allRefused (svc : ec2Service) (tr : list requested) (reqs : list requested) : bool :=
  match reqs with
  | [] => true
  | c :: reqs' => refused svc tr c && allRefused svc (tr ++ [c]) reqs'
  end.

(** What the functions that fill the request leave of it: the fields that
    [createRunInstancesInput] sets and none of them assigns again. *)
Definition sameRequest (r r' : sdk.RunInstancesInput.t) : Prop :=
  sdk.RunInstancesInput.EbsOptimized r' = sdk.RunInstancesInput.EbsOptimized r /\
  sdk.RunInstancesInput.InstanceMarketOptions r' = sdk.RunInstancesInput.InstanceMarketOptions r /\
  sdk.RunInstancesInput.InstanceType r' = sdk.RunInstancesInput.InstanceType r /\
  sdk.RunInstancesInput.MaxCount r' = sdk.RunInstancesInput.MaxCount r /\
  sdk.RunInstancesInput.MinCount r' = sdk.RunInstancesInput.MinCount r /\
  sdk.RunInstancesInput.Placement r' = sdk.RunInstancesInput.Placement r /\
  sdk.RunInstancesInput.TagSpecifications r' = sdk.RunInstancesInput.TagSpecifications r.

(** The subnet and the security groups of a request are given at its top
    level, or on its network interfaces and not at the top level. *)
Definition placedInNetwork (d : launchData.t) (r : sdk.RunInstancesInput.t) : Prop :=
  (sdk.RunInstancesInput.NetworkInterfaces r = [] /\
   sdk.RunInstancesInput.SubnetId r = launchData.SubnetId d /\
   sdk.RunInstancesInput.SecurityGroupIds r = convertSecurityGroups d) \/
  (sdk.RunInstancesInput.NetworkInterfaces r <> [] /\
   sdk.RunInstancesInput.SubnetId r = None /\
   sdk.RunInstancesInput.SecurityGroupIds r = [] /\
   Forall (fun ni =>
             sdk.InstanceNetworkInterfaceSpecification.SubnetId ni = launchData.SubnetId d /\
             sdk.InstanceNetworkInterfaceSpecification.Groups ni = convertSecurityGroups d)
          (sdk.RunInstancesInput.NetworkInterfaces r)).

(** The outcome of the loop of [launchSpotReplacement] over the ranked
    types, read off the calls [reqs] it issued after [tr]: an instance id
    comes from the last call, a [RunInstances] that was answered without an
    error, after the earlier ones were refused; the error comes after all
    of them were refused. *)
Definition loopOutcome (svc : ec2Service) (tr : list requested) (i : instance.t)
    (FinalRecap : gmap string (list string)) (reqs : list requested)
    (r : result ((option string * option error) * gmap string (list string))) : Prop :=
  match r with
  | Panic => True
  | Ok ((Some id, err), FinalRecap') =>
      err = None /\
      exists before input inst a,
        reqs = before ++ [ask (RunInstances (Some input))] /\
        allRefused svc tr before = true /\
        snd (svc _ (tr ++ before) (RunInstances (Some input))) = None /\
        sdk.Reservation.Instances (fst (svc _ (tr ++ before) (RunInstances (Some input))))
          !! 0%nat = Some inst /\
        sdk.Instance.InstanceId inst = Some id /\
        instance.asg i = Some a /\
        FinalRecap' =
          <[region.name (instance.region i) :=
              default [] (FinalRecap !! region.name (instance.region i)) ++
              [String.append (autoScalingGroup.name a)
                 (String.append " Launched spot instance " id)]]> FinalRecap
  | Ok ((None, err), FinalRecap') =>
      err = Some "exhausted all compatible instance types" /\
      FinalRecap' = FinalRecap /\
      allRefused svc tr reqs = true
  end.

End autospotting.

Export autospotting.

(** ** Concrete inputs: the scenarios of the specification *)

Module scenario.

Definition az : string := "eu-west-1a".

(** A two-vCPU, 8 GiB, HVM type without instance store, on-demand at 0.125;
    prices are binary fractions, so they are the binary64 numbers written. *)
Definition typeInfo (name cpu : string) (spotPrice surcharge : float)
  : instanceTypeInformation.t :=
  {| instanceTypeInformation.instanceType := name;
     instanceTypeInformation.vCPU := 2;
     instanceTypeInformation.PhysicalProcessor := cpu;
     instanceTypeInformation.GPU := 0;
     instanceTypeInformation.pricing :=
       {| prices.onDemand := 0.125; prices.spot := {[ az := spotPrice ]};
          prices.ebsSurcharge := surcharge; prices.premium := 0 |};
     instanceTypeInformation.memory := 8;
     instanceTypeInformation.virtualizationTypes := ["HVM"];
     instanceTypeInformation.hasInstanceStore := false;
     instanceTypeInformation.instanceStoreDeviceSize := 0;
     instanceTypeInformation.instanceStoreDeviceCount := 0;
     instanceTypeInformation.instanceStoreIsSSD := false;
     instanceTypeInformation.hasEBSOptimization := true;
     instanceTypeInformation.EBSThroughput := 4750 |}.

Definition m5_large : instanceTypeInformation.t :=
  typeInfo "m5.large" "Intel Xeon Platinum 8175" 0.0625 0.

Definition m5a_large : instanceTypeInformation.t :=
  typeInfo "m5a.large" "AMD EPYC 7571" 0.03125 0.0078125.

Definition a1_large : instanceTypeInformation.t :=
  typeInfo "a1.large" "AWS Graviton Processor" 0.015625 0.

(** A type whose spot price in the zone is negative. *)
Definition rebate : instanceTypeInformation.t :=
  typeInfo "m5a.large" "AMD EPYC 7571" (-0.0625) 0.

(** Seven types, two of them at the same price, the last one cheapest. *)
Definition t1 : instanceTypeInformation.t := typeInfo "t1" "Intel Xeon" 0.0625 0.
Definition t2 : instanceTypeInformation.t := typeInfo "t2" "Intel Xeon" 0.0625 0.
Definition t3 : instanceTypeInformation.t := typeInfo "t3" "Intel Xeon" 0.09375 0.
Definition t4 : instanceTypeInformation.t := typeInfo "t4" "Intel Xeon" 0.09375 0.
Definition t5 : instanceTypeInformation.t := typeInfo "t5" "Intel Xeon" 0.09375 0.
Definition t6 : instanceTypeInformation.t := typeInfo "t6" "Intel Xeon" 0.09375 0.
Definition t7 : instanceTypeInformation.t := typeInfo "t7" "Intel Xeon" 0.03125 0.

Definition groupConfig : AutoScalingConfig.t :=
  {| AutoScalingConfig.OnDemandPriceMultiplier := 1;
     AutoScalingConfig.GP2ConversionThreshold := 200;
     AutoScalingConfig.PatchBeanstalkUserdata := "false" |}.

Definition conf (policy : string) (buffer : float) : Config.t :=
  {| Config.AutoScalingConfig := groupConfig;
     Config.OnDemandPriceMultiplier := 1;
     Config.BiddingPolicy := policy;
     Config.SpotPriceBufferPercentage := buffer |}.

(** The group [web]: a launch configuration, desired capacity at the
    maximum size. *)
Definition web : autoScalingGroup.t :=
  {| autoScalingGroup.name := "web";
     autoScalingGroup.region := "eu-west-1";
     autoScalingGroup.config := groupConfig;
     autoScalingGroup.launchConfiguration := None;
     autoScalingGroup.launchTemplate := None;
     autoScalingGroup.LaunchTemplate := None;
     autoScalingGroup.LaunchConfigurationName := Some "web-lc";
     autoScalingGroup.Instances := [];
     autoScalingGroup.DesiredCapacity := 2;
     autoScalingGroup.MaxSize := 2;
     autoScalingGroup.HealthCheckGracePeriod := 300 |}.

Definition regionOf (policy : string) (buffer : float)
    (types : list instanceTypeInformation.t) : region.t :=
  {| region.name := "eu-west-1";
     region.conf := conf policy buffer;
     region.instanceTypeInformation :=
       list_to_map (map (fun t => (instanceTypeInformation.instanceType t, t)) types);
     region.enabledASGs := [web] |}.

Definition machine (id state : string) (ebsOptimized : option bool)
    (lifecycle : option string) (tags : list ec2.Tag.t) : ec2.Instance.t :=
  {| ec2.Instance.InstanceId := id;
     ec2.Instance.Placement := {| ec2.Placement.AvailabilityZone := az |};
     ec2.Instance.EbsOptimized := ebsOptimized;
     ec2.Instance.InstanceLifecycle := lifecycle;
     ec2.Instance.State := {| ec2.InstanceState.Name := state |};
     ec2.Instance.VirtualizationType := "hvm";
     ec2.Instance.Tags := tags |}.

Definition tag (key value : string) : ec2.Tag.t :=
  {| ec2.Tag.Key := key; ec2.Tag.Value := Some value |}.

(** The on-demand member [i-abc] of the group, an [m5.large] at 0.125. *)
Definition onDemand (r : region.t) (ebsOptimized : option bool) (tags : list ec2.Tag.t)
  : instance.t :=
  {| instance.Instance := machine "i-abc" "running" ebsOptimized None tags;
     instance.typeInfo := m5_large;
     instance.price := 0.125;
     instance.region := r;
     instance.protected := false;
     instance.asg := Some web |}.

(** The spot replacement [i-spot] launched for [i-abc], not yet attached. *)
Definition spotReplacement (r : region.t) (state : string) : instance.t :=
  {| instance.Instance :=
       machine "i-spot" state (Some true) (Some "spot")
         [ tag "launched-by-autospotting" "true";
           tag "launched-for-asg" "web";
           tag "launched-for-replacing-instance" "i-abc" ];
     instance.typeInfo := m5a_large;
     instance.price := 0.125;
     instance.region := r;
     instance.protected := false;
     instance.asg := None |}.

(** Scenario 1, the happy path, with a Graviton type beside the AMD one. *)
Definition happySource : instance.t :=
  onDemand (regionOf "normal" 10 [m5a_large; a1_large]) (Some true)
    [ tag "Name" "web"; tag "aws:autoscaling:groupName" "web" ].

Definition rebateSource : instance.t := onDemand (regionOf "normal" 10 [rebate]) None [].

Definition sevenSource : instance.t :=
  onDemand (regionOf "normal" 10 [t1; t2; t3; t4; t5; t6; t7]) None [].

(** A source whose region bids with the aggressive policy. *)
Definition bidder (buffer : float) : instance.t :=
  onDemand (regionOf "aggressive" buffer []) None [].

(** A source that carries both spellings of the launch configuration key. *)
Definition tagged : instance.t :=
  onDemand (regionOf "normal" 10 [m5a_large]) None
    [ tag "Name" "web"; tag "aws:autoscaling:groupName" "web";
      tag "LaunchConfigurationName" "old"; tag "LaunchConfiguationName" "typo" ].

(** Scenarios 5 and 6: the target in the registry, its replacement. *)
Definition swapRegion : region.t := regionOf "normal" 10 [m5_large; m5a_large].

Definition target : instance.t :=
  onDemand swapRegion (Some true) [ tag "aws:autoscaling:groupName" "web" ].

Definition registry : instanceManager.t := add (Some target) makeInstances.

Definition spot : instance.t := spotReplacement swapRegion "running".

Definition goneSpot : instance.t := spotReplacement swapRegion "terminated".

(** An environment: the scan's error and the registry it leaves, the errors
    of attach and of the termination through the group; every other call
    succeeds, the group needs replacement and nothing is protected. *)
Definition answers (scanErr : option error) (registry : instanceManager.t)
    (attachErr terminateErr : option error) : oracle :=
  fun X tr e =>
    match e in event X return X with
    | DescribeInstanceAttribute _ _ => (None, None)
    | TerminateInstances _ => None
    | scanInstance _ => (scanErr, registry)
    | load _ a => a
    | needReplaceOnDemandInstances _ => true
    | suspendProcesses _ => tt
    | resumeProcesses _ => tt
    | setAutoScalingMaxSize _ _ => None
    | attachSpotInstance _ _ _ => attachErr
    | terminateInstanceInAutoScalingGroup _ _ _ _ => terminateErr
    end.

(** Stand-ins for the library and for the other files: no glob patterns
    are given in the scenarios, and the group declares no ephemeral
    volumes. *)
Definition literalMatch (pattern name : string) : bool := String.eqb pattern name.

Definition noVolumes {A : Type} (x : option A) : Z := 0.

Definition stableSort (less : acceptableInstance.t -> acceptableInstance.t -> bool)
    (l : list acceptableInstance.t) : list acceptableInstance.t :=
  sort_by less l.

Definition smallSliceSort (less : acceptableInstance.t -> acceptableInstance.t -> bool)
    (l : list acceptableInstance.t) : list acceptableInstance.t :=
  shellInsertionSort less l.

(** A type that has a spot price in another zone only. *)
Definition elsewhere : instanceTypeInformation.t :=
  {| instanceTypeInformation.instanceType := "m5n.large";
     instanceTypeInformation.vCPU := 2;
     instanceTypeInformation.PhysicalProcessor := "Intel Xeon Platinum 8259";
     instanceTypeInformation.GPU := 0;
     instanceTypeInformation.pricing :=
       {| prices.onDemand := 0.125; prices.spot := {[ "eu-west-1b" := 0.03125%float ]};
          prices.ebsSurcharge := 0; prices.premium := 0 |};
     instanceTypeInformation.memory := 8;
     instanceTypeInformation.virtualizationTypes := ["HVM"];
     instanceTypeInformation.hasInstanceStore := false;
     instanceTypeInformation.instanceStoreDeviceSize := 0;
     instanceTypeInformation.instanceStoreDeviceCount := 0;
     instanceTypeInformation.instanceStoreIsSSD := false;
     instanceTypeInformation.hasEBSOptimization := true;
     instanceTypeInformation.EBSThroughput := 4750 |}.

Definition elsewhereSource : instance.t :=
  onDemand (regionOf "normal" 10 [m5a_large; elsewhere]) None [].

(** A source whose processor is none the file knows. *)
Definition mac : instanceTypeInformation.t := typeInfo "mac2.metal" "Apple M1" 0.0625 0.

Definition macSource : instance.t :=
  {| instance.Instance := machine "i-mac" "running" None None [];
     instance.typeInfo := mac;
     instance.price := 0.125;
     instance.region := regionOf "normal" 10 [m5_large; m5a_large; a1_large];
     instance.protected := false;
     instance.asg := Some web |}.

(** An on-demand instance [i-abc] that carries no group tag, in a registry
    of its own. *)
Definition stray : instance.t := onDemand swapRegion (Some true) [].

Definition strayRegistry : instanceManager.t := add (Some stray) makeInstances.

(** The launch: what it reads of the source beyond [instance.t], and an
    EC2 service that knows no image and no launch template version and
    launches one instance type only. *)
Definition launchFields : launchData.t :=
  {| launchData.SubnetId := Some "subnet-1";
     launchData.SecurityGroups := [ {| sdk.GroupIdentifier.GroupId := Some "sg-1" |} ];
     launchData.ImageId := Some "ami-1";
     launchData.LaunchConfiguration :=
       {| sdk.LaunchConfiguration.AssociatePublicIpAddress := Some true;
          sdk.LaunchConfiguration.IamInstanceProfile := Some "web-profile";
          sdk.LaunchConfiguration.ImageId := Some "ami-1";
          sdk.LaunchConfiguration.InstanceMonitoring := None;
          sdk.LaunchConfiguration.KeyName := Some "web-key";
          sdk.LaunchConfiguration.UserData := None |} |}.

Definition launches (instanceType : string) : ec2Service :=
  fun X tr c =>
    match c in ec2Call X return X with
    | DescribeImages _ => ({| sdk.DescribeImagesOutput.Images := [] |}, None)
    | DescribeLaunchTemplateVersions _ _ =>
        ({| sdk.DescribeLaunchTemplateVersionsOutput.LaunchTemplateVersions := [] |}, None)
    | RunInstances input =>
        ({| sdk.Reservation.Instances :=
             [ {| sdk.Instance.InstanceId := Some "i-new";
                  sdk.Instance.InstanceType := requestedType (ask (RunInstances input)) |} ] |},
         match requestedType (ask (RunInstances input)) with
         | Some t => if String.eqb t instanceType then None
                     else Some "InsufficientInstanceCapacity"
         | None => Some "MissingParameter"
         end)
    end.

(** The group [web] with a launch configuration of one gp2 volume. *)
Definition webConfigured : autoScalingGroup.t :=
  {| autoScalingGroup.name := "web";
     autoScalingGroup.region := "eu-west-1";
     autoScalingGroup.config := groupConfig;
     autoScalingGroup.launchConfiguration :=
       Some {| launchConfiguration.BlockDeviceMappings :=
                 [ {| autoscaling.BlockDeviceMapping.DeviceName := Some "/dev/xvda";
                      autoscaling.BlockDeviceMapping.VirtualName := None;
                      autoscaling.BlockDeviceMapping.Ebs :=
                        Some {| autoscaling.Ebs.DeleteOnTermination := Some true;
                                autoscaling.Ebs.Encrypted := None;
                                autoscaling.Ebs.Iops := None;
                                autoscaling.Ebs.SnapshotId := None;
                                autoscaling.Ebs.VolumeSize := Some 150%Z;
                                autoscaling.Ebs.VolumeType := Some "gp2" |};
                      autoscaling.BlockDeviceMapping.NoDevice := None |} ] |};
     autoScalingGroup.launchTemplate := None;
     autoScalingGroup.LaunchTemplate := None;
     autoScalingGroup.LaunchConfigurationName := Some "web-lc";
     autoScalingGroup.Instances := [];
     autoScalingGroup.DesiredCapacity := 2;
     autoScalingGroup.MaxSize := 2;
     autoScalingGroup.HealthCheckGracePeriod := 300 |}.

Definition configuredSource : instance.t := instance.set_asg (Some webConfigured) happySource.

(** Stand-ins for the library and for the other files in the launch: the
    flag of the scenarios is in lower case already, their one bid is 0.125,
    user data is not patched and no type is listed. *)
Definition lowerCase (s : string) : string := s.

Definition formatPrice (price : float) : string :=
  if (price =? 0.125)%float then "0.125" else "".

Definition unpatched (userData : option string) : option string := userData.

Definition noTypes (a : autoScalingGroup.t) (i : instance.t) : list string := [].

End scenario.

(* ===================================================================== *)
(** * Part II: the properties *)
(* ===================================================================== *)

(** ** The order of binary64 numbers *)

Section FloatOrder.

Lemma SFcompare_key x y :
  sf_num x = true -> sf_num y = true ->
  exists c, SFcompare x y = Some c /\
    (c = Lt <-> lex_lt (sf_key x) (sf_key y)) /\
    (c = Gt <-> lex_lt (sf_key y) (sf_key x)).
Proof.
  unfold lex_lt.
  destruct x as [sx|sx| |sx mx ex], y as [sy|sy| |sy my ey]; simpl; try discriminate; intros _ _;
    try (destruct sx); try (destruct sy); simpl;
    try (eexists; split; [reflexivity|]; split; split; (discriminate || lia || reflexivity)).
  - rewrite Pos.compare_cont_spec; simpl.
    destruct (Z.compare_spec ex ey), (Pos.compare_spec mx my); simpl;
      eexists; (split; [reflexivity|]); split; split; (discriminate || lia || reflexivity).
  - rewrite Pos.compare_cont_spec; simpl.
    destruct (Z.compare_spec ex ey), (Pos.compare_spec mx my); simpl;
      eexists; (split; [reflexivity|]); split; split; (discriminate || lia || reflexivity).
Qed.

Lemma SFcompare_nan_l y : SFcompare S754_nan y = None.
Proof. destruct y; reflexivity. Qed.

Lemma SFcompare_nan_r x : SFcompare x S754_nan = None.
Proof. destruct x; reflexivity. Qed.

Lemma is_nan_num x : is_nan x = false <-> sf_num (Prim2SF x) = true.
Proof.
  unfold is_nan. rewrite FloatAxioms.eqb_spec. unfold SFeqb.
  destruct (Prim2SF x) as [s|s| |s m e] eqn:E; simpl.
  - tauto.
  - destruct s; simpl; tauto.
  - split; discriminate.
  - destruct s; rewrite Z.compare_refl, Pos.compare_cont_refl; simpl; tauto.
Qed.

Lemma ltb_lex x y :
  is_nan x = false -> is_nan y = false ->
  ((x <? y)%float = true <-> lex_lt (fkey x) (fkey y)).
Proof.
  intros Hx%is_nan_num Hy%is_nan_num. rewrite FloatAxioms.ltb_spec. unfold SFltb, fkey.
  destruct (SFcompare_key _ _ Hx Hy) as (c & -> & HLt & HGt).
  rewrite <- HLt. destruct c; split; congruence.
Qed.

Lemma leb_lex x y :
  is_nan x = false -> is_nan y = false ->
  ((x <=? y)%float = true <-> ~ lex_lt (fkey y) (fkey x)).
Proof.
  intros Hx%is_nan_num Hy%is_nan_num. rewrite FloatAxioms.leb_spec. unfold SFleb, fkey.
  destruct (SFcompare_key _ _ Hx Hy) as (c & -> & HLt & HGt).
  rewrite <- HGt. destruct c; split; congruence.
Qed.

Lemma eqb_lex x y :
  is_nan x = false -> is_nan y = false ->
  ((x =? y)%float = true <-> ~ lex_lt (fkey x) (fkey y) /\ ~ lex_lt (fkey y) (fkey x)).
Proof.
  intros Hx%is_nan_num Hy%is_nan_num. rewrite FloatAxioms.eqb_spec. unfold SFeqb, fkey.
  destruct (SFcompare_key _ _ Hx Hy) as (c & -> & HLt & HGt).
  rewrite <- HLt, <- HGt. destruct c; intuition congruence.
Qed.

(** A comparison that holds has no NaN on either side. *)
Lemma leb_true_num x y : (x <=? y)%float = true -> is_nan x = false /\ is_nan y = false.
Proof.
  rewrite FloatAxioms.leb_spec, !is_nan_num. unfold SFleb.
  destruct (Prim2SF x) eqn:Ex; [| | rewrite SFcompare_nan_l; discriminate |];
  (destruct (Prim2SF y) eqn:Ey; [| | rewrite SFcompare_nan_r; discriminate |]); auto.
Qed.

Lemma ltb_true_num x y : (x <? y)%float = true -> is_nan x = false /\ is_nan y = false.
Proof.
  rewrite FloatAxioms.ltb_spec, !is_nan_num. unfold SFltb.
  destruct (Prim2SF x) eqn:Ex; [| | rewrite SFcompare_nan_l; discriminate |];
  (destruct (Prim2SF y) eqn:Ey; [| | rewrite SFcompare_nan_r; discriminate |]); auto.
Qed.

Lemma lex_lt_trans a b c : lex_lt a b -> lex_lt b c -> lex_lt a c.
Proof. unfold lex_lt. lia. Qed.

Lemma lex_lt_neg_trans a b c : ~ lex_lt a b -> ~ lex_lt b c -> ~ lex_lt a c.
Proof. unfold lex_lt. lia. Qed.

Lemma lex_lt_irrefl a : ~ lex_lt a a.
Proof. unfold lex_lt. lia. Qed.

Lemma lex_lt_asym a b : lex_lt a b -> ~ lex_lt b a.
Proof. unfold lex_lt. lia. Qed.

Lemma leb_refl x : is_nan x = false -> (x <=? x)%float = true.
Proof. intros H. apply leb_lex; auto. apply lex_lt_irrefl. Qed.

Lemma leb_trans x y z :
  (x <=? y)%float = true -> (y <=? z)%float = true -> (x <=? z)%float = true.
Proof.
  intros Hxy Hyz. destruct (leb_true_num _ _ Hxy) as [Hx Hy], (leb_true_num _ _ Hyz) as [_ Hz].
  apply leb_lex in Hxy, Hyz; auto. apply leb_lex; auto. eauto using lex_lt_neg_trans.
Qed.

Lemma ltb_false_leb x y :
  is_nan x = false -> is_nan y = false -> (y <? x)%float = false -> (x <=? y)%float = true.
Proof.
  intros Hx Hy H. apply leb_lex; auto. intros Hlt. apply ltb_lex in Hlt; auto. congruence.
Qed.

Lemma ltb_irrefl x : (x <? x)%float = false.
Proof.
  destruct (x <? x)%float eqn:H; [|reflexivity]. exfalso.
  destruct (ltb_true_num _ _ H) as [Hx _]. apply ltb_lex in H; auto.
  now apply lex_lt_irrefl in H.
Qed.

Lemma ltb_trans x y z :
  (x <? y)%float = true -> (y <? z)%float = true -> (x <? z)%float = true.
Proof.
  intros Hxy Hyz. destruct (ltb_true_num _ _ Hxy) as [Hx Hy], (ltb_true_num _ _ Hyz) as [_ Hz].
  apply ltb_lex in Hxy, Hyz; auto. apply ltb_lex; auto. eauto using lex_lt_trans.
Qed.

Lemma ltb_neg_trans x y z :
  is_nan x = false -> is_nan y = false -> is_nan z = false ->
  (x <? y)%float = false -> (y <? z)%float = false -> (x <? z)%float = false.
Proof.
  intros Hx Hy Hz Hxy Hyz.
  destruct (x <? z)%float eqn:Hxz; [|reflexivity]. exfalso.
  apply ltb_lex in Hxz; auto.
  assert (A : ~ lex_lt (fkey x) (fkey y)) by (intros L; apply ltb_lex in L; auto; congruence).
  assert (B : ~ lex_lt (fkey y) (fkey z)) by (intros L; apply ltb_lex in L; auto; congruence).
  exact (lex_lt_neg_trans _ _ _ A B Hxz).
Qed.

Lemma neg_infinity_leb x : is_nan x = false -> (neg_infinity <=? x)%float = true.
Proof.
  intros Hx. apply leb_lex; auto. unfold fkey.
  replace (Prim2SF neg_infinity) with (S754_infinity true) by reflexivity.
  apply is_nan_num in Hx. unfold lex_lt.
  destruct (Prim2SF x) as [s|s| |s m e]; try discriminate; destruct s; simpl; lia.
Qed.

(** [math.Min] of two numbers is at most the first. *)
Lemma math_Min_leb_l x y :
  is_nan x = false -> is_nan y = false -> (math_Min x y <=? x)%float = true.
Proof.
  intros Hx Hy. unfold math_Min, math_IsNaN. rewrite Hx, Hy. simpl.
  destruct (math_IsNegInf x || math_IsNegInf y); [now apply neg_infinity_leb|].
  destruct ((x =? 0)%float && (x =? y)%float) eqn:Hz.
  - apply andb_prop in Hz as [_ Hxy]. destruct (math_Signbit x); [now apply leb_refl|].
    apply eqb_lex in Hxy; auto. apply leb_lex; tauto.
  - destruct (x <? y)%float eqn:Hlt; [now apply leb_refl|].
    now apply ltb_false_leb.
Qed.

(** Whatever the arguments, [math.Min] is never greater than the first. *)
Lemma math_Min_not_gt x y : (x <? math_Min x y)%float = false.
Proof.
  destruct (x <? math_Min x y)%float eqn:H; [|reflexivity]. exfalso.
  destruct (ltb_true_num _ _ H) as [Hx Hm].
  apply ltb_lex in H; auto.
  destruct (is_nan y) eqn:Hy.
  - unfold math_Min, math_IsNaN in H, Hm. rewrite Hx, Hy in H, Hm. simpl in H, Hm.
    destruct (math_IsNegInf x || math_IsNegInf y).
    + pose proof (neg_infinity_leb x Hx) as L. apply leb_lex in L; auto.
    + discriminate Hm.
  - pose proof (math_Min_leb_l x y Hx Hy) as L. apply leb_lex in L; auto.
Qed.

End FloatOrder.

(** ** The size of binary64 numbers

    The results of [+], [-], [*] and [/] are given by [SpecFloat]: a
    mantissa and an exponent, rounded by [binary_round_aux].  The size of
    a positive number is the number of binary digits of its mantissa plus
    its exponent: a number of size [k] is in [[2^(k-1), 2^k)]. *)

Section Digits.
Local Open Scope Z_scope.

Lemma digits2_pos_bounds p :
  2 ^ (Zpos (digits2_pos p) - 1) <= Zpos p < 2 ^ Zpos (digits2_pos p).
Proof.
  induction p as [p IH|p IH|]; simpl digits2_pos.
  - rewrite Pos2Z.inj_succ. change (Z.pos p~1) with (2 * Z.pos p + 1).
    replace (Z.succ (Z.pos (digits2_pos p)) - 1) with (Z.succ (Z.pos (digits2_pos p) - 1)) by lia.
    rewrite !Z.pow_succ_r by lia.
    revert IH. generalize (2 ^ (Z.pos (digits2_pos p) - 1)) (2 ^ Z.pos (digits2_pos p)) (Z.pos p).
    intros; lia.
  - rewrite Pos2Z.inj_succ. change (Z.pos p~0) with (2 * Z.pos p).
    replace (Z.succ (Z.pos (digits2_pos p)) - 1) with (Z.succ (Z.pos (digits2_pos p) - 1)) by lia.
    rewrite !Z.pow_succ_r by lia.
    revert IH. generalize (2 ^ (Z.pos (digits2_pos p) - 1)) (2 ^ Z.pos (digits2_pos p)) (Z.pos p).
    intros; lia.
  - simpl. lia.
Qed.

Lemma Zdigits2_nonneg m : 0 <= Zdigits2 m.
Proof. destruct m; simpl; lia. Qed.

Lemma Zdigits2_bounds m :
  0 < m -> 2 ^ (Zdigits2 m - 1) <= m < 2 ^ Zdigits2 m.
Proof. destruct m as [|p|p]; try lia. intros _. apply digits2_pos_bounds. Qed.

Lemma Zdigits2_pos m : 0 < m -> 1 <= Zdigits2 m.
Proof. destruct m; simpl; lia. Qed.

(** A number below [2^k] has at most [k] digits, and one from [2^(k-1)] on
    has at least [k]. *)
Lemma Zdigits2_le m k : 0 <= m -> 0 <= k -> m < 2 ^ k -> Zdigits2 m <= k.
Proof.
  intros Hm Hk Hlt. destruct (Z.eq_dec m 0) as [->|Hne]; [simpl; lia|].
  destruct (Zdigits2_bounds m ltac:(lia)) as [Hlo _].
  destruct (Z.le_gt_cases (Zdigits2 m) k) as [|Hgt]; [assumption|exfalso].
  assert (2 ^ k <= 2 ^ (Zdigits2 m - 1)) by (apply Z.pow_le_mono_r; lia). lia.
Qed.

Lemma Zdigits2_ge m k : 2 ^ (k - 1) <= m -> 1 <= k -> k <= Zdigits2 m.
Proof.
  intros Hlo Hk.
  assert (Hm : 0 < m) by (pose proof (Z.pow_pos_nonneg 2 (k - 1)); lia).
  destruct (Zdigits2_bounds m Hm) as [_ Hhi].
  destruct (Z.le_gt_cases k (Zdigits2 m)) as [|Hgt]; [assumption|exfalso].
  assert (2 ^ Zdigits2 m <= 2 ^ (k - 1)) by (apply Z.pow_le_mono_r; lia). lia.
Qed.

Lemma Zdigits2_mono a b : 0 <= a <= b -> Zdigits2 a <= Zdigits2 b.
Proof.
  intros [Ha Hab]. destruct (Z.eq_dec a 0) as [->|Hne]; [apply Zdigits2_nonneg|].
  apply Zdigits2_ge; [|apply Zdigits2_pos; lia].
  destruct (Zdigits2_bounds a ltac:(lia)). lia.
Qed.

Lemma Zdigits2_succ m : 0 <= m -> Zdigits2 (m + 1) <= Zdigits2 m + 1.
Proof.
  intros Hm. pose proof (Zdigits2_nonneg m) as Hd.
  apply Zdigits2_le; [lia|lia|].
  rewrite Z.pow_add_r by lia. change (2 ^ 1) with 2.
  destruct (Z.eq_dec m 0) as [->|Hne]; [simpl; lia|].
  destruct (Zdigits2_bounds m ltac:(lia)).
  pose proof (Z.pow_pos_nonneg 2 (Zdigits2 m)). lia.
Qed.

Lemma Zdigits2_add a b : 0 <= a -> 0 <= b ->
  Zdigits2 (a + b) <= Z.max (Zdigits2 a) (Zdigits2 b) + 1.
Proof.
  intros Ha Hb. pose proof (Zdigits2_nonneg a). pose proof (Zdigits2_nonneg b).
  apply Zdigits2_le; [lia|lia|].
  rewrite Z.pow_add_r by lia. change (2 ^ 1) with 2.
  assert (A : a < 2 ^ Z.max (Zdigits2 a) (Zdigits2 b)).
  { destruct (Z.eq_dec a 0) as [->|]; [apply Z.pow_pos_nonneg; lia|].
    destruct (Zdigits2_bounds a ltac:(lia)).
    assert (2 ^ Zdigits2 a <= 2 ^ Z.max (Zdigits2 a) (Zdigits2 b))
      by (apply Z.pow_le_mono_r; lia). lia. }
  assert (B : b < 2 ^ Z.max (Zdigits2 a) (Zdigits2 b)).
  { destruct (Z.eq_dec b 0) as [->|]; [apply Z.pow_pos_nonneg; lia|].
    destruct (Zdigits2_bounds b ltac:(lia)).
    assert (2 ^ Zdigits2 b <= 2 ^ Z.max (Zdigits2 a) (Zdigits2 b))
      by (apply Z.pow_le_mono_r; lia). lia. }
  lia.
Qed.

Lemma Zdigits2_mul_pow m n : 0 < m -> 0 <= n -> Zdigits2 (m * 2 ^ n) = Zdigits2 m + n.
Proof.
  intros Hm Hn. destruct (Zdigits2_bounds m Hm) as [Hlo Hhi].
  pose proof (Zdigits2_pos m Hm) as Hd.
  pose proof (Z.pow_pos_nonneg 2 n ltac:(lia) Hn) as Hp.
  apply Z.le_antisymm.
  - apply Zdigits2_le; [nia|lia|]. rewrite Z.pow_add_r by lia. nia.
  - apply Zdigits2_ge; [|lia].
    replace (Zdigits2 m + n - 1) with (Zdigits2 m - 1 + n) by lia.
    rewrite Z.pow_add_r by lia. nia.
Qed.

Lemma Zdigits2_div_pow m n : 0 <= m -> 0 <= n ->
  Zdigits2 (m / 2 ^ n) = Z.max (Zdigits2 m - n) 0.
Proof.
  intros Hm Hn. pose proof (Z.pow_pos_nonneg 2 n ltac:(lia) Hn) as Hp.
  destruct (Z.eq_dec m 0) as [->|Hne]; [rewrite Z.div_0_l by lia; simpl; lia|].
  destruct (Zdigits2_bounds m ltac:(lia)) as [Hlo Hhi].
  pose proof (Zdigits2_pos m ltac:(lia)) as Hd.
  destruct (Z.le_gt_cases (Zdigits2 m) n) as [Hle|Hgt].
  - assert (m < 2 ^ n).
    { assert (2 ^ Zdigits2 m <= 2 ^ n) by (apply Z.pow_le_mono_r; lia). lia. }
    rewrite Z.div_small by lia. simpl. lia.
  - assert (E : 2 ^ Zdigits2 m = 2 ^ (Zdigits2 m - n) * 2 ^ n).
    { rewrite <- Z.pow_add_r by lia. f_equal. lia. }
    assert (E' : 2 ^ (Zdigits2 m - 1) = 2 ^ (Zdigits2 m - n - 1) * 2 ^ n).
    { rewrite <- Z.pow_add_r by lia. f_equal. lia. }
    rewrite Z.max_l by lia. apply Z.le_antisymm.
    + apply Zdigits2_le; [apply Z.div_pos; lia|lia|].
      apply Z.div_lt_upper_bound; [lia|]. rewrite Z.mul_comm. lia.
    + apply Zdigits2_ge; [|lia].
      apply Z.div_le_lower_bound; [lia|]. rewrite Z.mul_comm. lia.
Qed.

End Digits.

(** ** Rounding to binary64 *)

Section Rounding.
Local Open Scope Z_scope.

Lemma shr_1_m mrs : 0 <= shr_m mrs -> shr_m (shr_1 mrs) = shr_m mrs / 2.
Proof.
  destruct mrs as [m r s]. cbn [shr_m]. intros Hm.
  destruct m as [|q|q]; [reflexivity| |lia].
  destruct q as [q|q|]; cbn [shr_1 shr_m].
  - change (Z.pos q~1) with (2 * Z.pos q + 1).
    apply Z.div_unique with (r := 1); lia.
  - change (Z.pos q~0) with (2 * Z.pos q).
    apply Z.div_unique with (r := 0); lia.
  - reflexivity.
Qed.

Lemma iter_shr_1_m n : forall mrs,
  0 <= shr_m mrs -> shr_m (SpecFloat.iter_pos shr_1 n mrs) = shr_m mrs / 2 ^ Zpos n.
Proof.
  assert (P : forall k, 0 < 2 ^ Zpos k) by (intros; apply Z.pow_pos_nonneg; lia).
  induction n as [n IH|n IH|]; intros mrs Hm; cbn [SpecFloat.iter_pos].
  - pose proof (shr_1_m mrs Hm) as E1.
    assert (H1 : 0 <= shr_m (shr_1 mrs)) by (rewrite E1; apply Z.div_pos; lia).
    pose proof (IH _ H1) as E2.
    assert (H2 : 0 <= shr_m (SpecFloat.iter_pos shr_1 n (shr_1 mrs)))
      by (rewrite E2; apply Z.div_pos; [lia|apply P]).
    rewrite (IH _ H2), E2, E1, !Z.div_div by (try apply P; lia).
    f_equal. change (Z.pos n~1) with (2 * Z.pos n + 1).
    replace (2 * Z.pos n + 1) with (1 + Z.pos n + Z.pos n) by lia.
    rewrite !Z.pow_add_r by lia. lia.
  - pose proof (IH _ Hm) as E2.
    assert (H2 : 0 <= shr_m (SpecFloat.iter_pos shr_1 n mrs))
      by (rewrite E2; apply Z.div_pos; [lia|apply P]).
    rewrite (IH _ H2), E2, !Z.div_div by (try apply P; lia).
    f_equal. change (Z.pos n~0) with (2 * Z.pos n).
    replace (2 * Z.pos n) with (Z.pos n + Z.pos n) by lia.
    rewrite !Z.pow_add_r by lia. lia.
  - now rewrite shr_1_m.
Qed.

Lemma shr_spec mrs e n :
  0 <= shr_m mrs ->
  shr_m (fst (shr mrs e n)) = shr_m mrs / 2 ^ Z.max n 0 /\
  snd (shr mrs e n) = e + Z.max n 0.
Proof.
  intros Hm. destruct n as [|p|p]; simpl.
  - rewrite Z.div_1_r. lia.
  - rewrite iter_shr_1_m by assumption. split; [reflexivity|lia].
  - rewrite Z.div_1_r. lia.
Qed.

Lemma shr_record_of_loc_m m l : shr_m (shr_record_of_loc m l) = m.
Proof. destruct l as [|[]]; reflexivity. Qed.

Lemma round_nearest_even_bounds m l : m <= round_nearest_even m l <= m + 1.
Proof. destruct l as [|[]]; simpl; try lia. destruct (Z.even m); lia. Qed.

(** What [binary_round_aux] computes on a mantissa that is not negative:
    two shifts to the right with a rounding between them. *)
Lemma binary_round_aux_spec sx mx ex lx :
  0 <= mx ->
  exists m1 mr m2 e1 e2,
    m1 = mx / 2 ^ Z.max (fexp prec emax (Zdigits2 mx + ex) - ex) 0 /\
    e1 = ex + Z.max (fexp prec emax (Zdigits2 mx + ex) - ex) 0 /\
    m1 <= mr <= m1 + 1 /\
    m2 = mr / 2 ^ Z.max (fexp prec emax (Zdigits2 mr + e1) - e1) 0 /\
    e2 = e1 + Z.max (fexp prec emax (Zdigits2 mr + e1) - e1) 0 /\
    binary_round_aux prec emax sx mx ex lx =
      match m2 with
      | Z0 => S754_zero sx
      | Zpos m => if e2 <=? emax - prec then S754_finite sx m e2 else S754_infinity sx
      | Zneg _ => S754_nan
      end.
Proof.
  intros Hm. unfold binary_round_aux, shr_fexp.
  set (n1 := fexp prec emax (Zdigits2 mx + ex) - ex).
  pose proof (shr_spec (shr_record_of_loc mx lx) ex n1) as S1.
  rewrite shr_record_of_loc_m in S1. specialize (S1 Hm).
  destruct (shr (shr_record_of_loc mx lx) ex n1) as [mrs' e'] eqn:E1.
  simpl in S1. destruct S1 as [S1m S1e].
  set (mr := round_nearest_even (shr_m mrs') (loc_of_shr_record mrs')).
  pose proof (round_nearest_even_bounds (shr_m mrs') (loc_of_shr_record mrs')) as Hr.
  fold mr in Hr.
  assert (Hm1 : 0 <= shr_m mrs').
  { rewrite S1m. apply Z.div_pos; [lia|apply Z.pow_pos_nonneg; lia]. }
  set (n2 := fexp prec emax (Zdigits2 mr + e') - e').
  pose proof (shr_spec (shr_record_of_loc mr loc_Exact) e' n2) as S2.
  rewrite shr_record_of_loc_m in S2. specialize (S2 ltac:(lia)).
  destruct (shr (shr_record_of_loc mr loc_Exact) e' n2) as [mrs'' e''] eqn:E2.
  simpl in S2. destruct S2 as [S2m S2e].
  exists (shr_m mrs'), mr, (shr_m mrs''), e', e''.
  subst n1 n2. repeat split; try assumption; lia.
Qed.

(** The result keeps the sign it was given and is never a NaN. *)
Lemma binary_round_aux_sign sx mx ex lx :
  0 <= mx ->
  match binary_round_aux prec emax sx mx ex lx with
  | S754_zero s | S754_infinity s | S754_finite s _ _ => s = sx
  | S754_nan => False
  end.
Proof.
  intros Hm.
  destruct (binary_round_aux_spec sx mx ex lx Hm)
    as (m1 & mr & m2 & e1 & e2 & E1 & _ & Hr & E2 & _ & ->).
  assert (0 <= m1) by (rewrite E1; apply Z.div_pos; [lia|apply Z.pow_pos_nonneg; lia]).
  assert (0 <= m2) by (rewrite E2; apply Z.div_pos; [lia|apply Z.pow_pos_nonneg; lia]).
  destruct m2; [reflexivity| |lia]. destruct (_ <=? _); reflexivity.
Qed.

(** No overflow: a mantissa of [d] digits at an exponent [ex <= 971] with
    [d + ex <= 1023] rounds to a finite number or to zero, and a finite
    result has a size of at most one more. *)
Lemma binary_round_aux_finite sx mx ex lx :
  0 <= mx -> Zdigits2 mx + ex <= 1023 -> ex <= 971 ->
  match binary_round_aux prec emax sx mx ex lx with
  | S754_zero _ => True
  | S754_finite _ m e => Zdigits2 (Zpos m) + e <= Z.max (Zdigits2 mx + ex) (-1074) + 1
  | _ => False
  end.
Proof.
  intros Hm Hd He.
  destruct (binary_round_aux_spec sx mx ex lx Hm)
    as (m1 & mr & m2 & e1 & e2 & E1 & Ee1 & Hr & E2 & Ee2 & ->).
  pose proof (Zdigits2_nonneg mx) as D0.
  set (N1 := Z.max (fexp prec emax (Zdigits2 mx + ex) - ex) 0) in *.
  assert (HN1 : 0 <= N1) by (subst N1; lia).
  assert (H1 : 0 <= m1) by (rewrite E1; apply Z.div_pos; [lia|apply Z.pow_pos_nonneg; lia]).
  assert (D1 : Zdigits2 m1 = Z.max (Zdigits2 mx - N1) 0)
    by (rewrite E1; now apply Zdigits2_div_pow).
  assert (Dr : Zdigits2 mr <= Zdigits2 m1 + 1).
  { etransitivity; [apply (Zdigits2_mono mr (m1 + 1)); lia|now apply Zdigits2_succ]. }
  set (N2 := Z.max (fexp prec emax (Zdigits2 mr + e1) - e1) 0) in *.
  assert (HN2 : 0 <= N2) by (subst N2; lia).
  assert (D2 : Zdigits2 m2 = Z.max (Zdigits2 mr - N2) 0)
    by (rewrite E2; apply Zdigits2_div_pow; lia).
  unfold fexp, emin, prec, emax in *.
  destruct m2 as [|m|m]; [exact I| |].
  - assert (1 <= Zdigits2 (Z.pos m)) by (simpl; lia).
    destruct (e2 <=? 1024 - 53) eqn:L.
    + subst N1 N2. lia.
    + apply Z.leb_gt in L. subst N1 N2. lia.
  - assert (0 <= Z.neg m); [|lia].
    rewrite E2. apply Z.div_pos; [lia|apply Z.pow_pos_nonneg; lia].
Qed.

(** No underflow: a positive mantissa of [d] digits at an exponent [ex]
    with [d + ex >= -1021] does not round to zero. *)
Lemma binary_round_aux_nonzero sx mx ex lx :
  0 < mx -> -1021 <= Zdigits2 mx + ex ->
  match binary_round_aux prec emax sx mx ex lx with
  | S754_zero _ => False
  | _ => True
  end.
Proof.
  intros Hm Hd.
  destruct (binary_round_aux_spec sx mx ex lx ltac:(lia))
    as (m1 & mr & m2 & e1 & e2 & E1 & Ee1 & Hr & E2 & Ee2 & ->).
  pose proof (Zdigits2_pos mx Hm) as D0.
  set (N1 := Z.max (fexp prec emax (Zdigits2 mx + ex) - ex) 0) in *.
  assert (HN1 : 0 <= N1) by (subst N1; lia).
  assert (H1 : 0 <= m1) by (rewrite E1; apply Z.div_pos; [lia|apply Z.pow_pos_nonneg; lia]).
  assert (D1 : Zdigits2 m1 = Z.max (Zdigits2 mx - N1) 0)
    by (rewrite E1; apply Zdigits2_div_pow; lia).
  assert (Dr : Zdigits2 m1 <= Zdigits2 mr) by (apply Zdigits2_mono; lia).
  set (N2 := Z.max (fexp prec emax (Zdigits2 mr + e1) - e1) 0) in *.
  assert (HN2 : 0 <= N2) by (subst N2; lia).
  assert (D2 : Zdigits2 m2 = Z.max (Zdigits2 mr - N2) 0)
    by (rewrite E2; apply Zdigits2_div_pow; lia).
  unfold fexp, emin, prec, emax in *.
  destruct m2 as [|m|m]; [|destruct (_ <=? _); exact I|exact I].
  simpl in D2. subst N1 N2. lia.
Qed.

End Rounding.

(** ** The operations of binary64 on finite numbers *)

Section Operations.
Local Open Scope Z_scope.

Lemma shl_align_spec mx ex ex' :
  snd (shl_align mx ex ex') = Z.min ex ex' /\
  Zpos (fst (shl_align mx ex ex')) = Zpos mx * 2 ^ (ex - Z.min ex ex').
Proof.
  unfold shl_align. destruct (ex' - ex) as [|d|d] eqn:E; cbn [fst snd].
  - replace (Z.min ex ex') with ex by lia. rewrite Z.sub_diag. simpl. lia.
  - replace (Z.min ex ex') with ex by lia. rewrite Z.sub_diag. simpl. lia.
  - replace (Z.min ex ex') with ex' by lia. split; [reflexivity|].
    replace (ex - ex') with (Zpos d) by lia.
    rewrite <- Z.shiftl_mul_pow2 by lia.
    exact (Zpower.shift_equiv (Zpos d) mx ltac:(lia)).
Qed.

(** [binary_round] brings the mantissa to the exponent of its size and
    rounds it: the result keeps the sign it was given and is never a NaN. *)
Lemma binary_round_sign sx mx ex :
  match binary_round prec emax sx mx ex with
  | S754_zero s | S754_infinity s | S754_finite s _ _ => s = sx
  | S754_nan => False
  end.
Proof.
  unfold binary_round. destruct (shl_align _ _ _) as [mz ez].
  apply binary_round_aux_sign. lia.
Qed.

(** A mantissa of a size from [-1021] to [1023] rounds to a finite number
    that is not zero, of a size at most one more. *)
Lemma binary_round_finite sx mx ex :
  -1021 <= Zdigits2 (Zpos mx) + ex <= 1023 ->
  exists m e, binary_round prec emax sx mx ex = S754_finite sx m e /\
              Zdigits2 (Zpos m) + e <= Zdigits2 (Zpos mx) + ex + 1.
Proof.
  intros Hd. unfold binary_round.
  pose proof (shl_align_spec mx ex (fexp prec emax (Zpos (digits2_pos mx) + ex))) as [He Hm].
  destruct (shl_align _ _ _) as [mz ez]. cbn [fst snd] in He, Hm.
  change (Zpos (digits2_pos mx)) with (Zdigits2 (Zpos mx)) in *.
  assert (D : Zdigits2 (Zpos mz) + ez = Zdigits2 (Zpos mx) + ex).
  { rewrite Hm, Zdigits2_mul_pow by lia. lia. }
  assert (E : ez <= 971) by (rewrite He; unfold fexp, emin, prec, emax; lia).
  pose proof (binary_round_aux_sign sx (Zpos mz) ez loc_Exact ltac:(lia)) as S.
  pose proof (binary_round_aux_finite sx (Zpos mz) ez loc_Exact ltac:(lia) ltac:(lia) E) as F.
  pose proof (binary_round_aux_nonzero sx (Zpos mz) ez loc_Exact ltac:(lia) ltac:(lia)) as N.
  destruct (binary_round_aux prec emax sx (Zpos mz) ez loc_Exact) as [s|s| |s m e];
    try contradiction.
  subst s. exists m, e. split; [reflexivity|lia].
Qed.

Lemma binary_normalize_num m e s : sf_num (binary_normalize prec emax m e s) = true.
Proof.
  destruct m as [|p|p]; simpl; [reflexivity| |].
  - pose proof (binary_round_sign false p e) as S.
    destruct (binary_round prec emax false p e); (reflexivity || contradiction).
  - pose proof (binary_round_sign true p e) as S.
    destruct (binary_round prec emax true p e); (reflexivity || contradiction).
Qed.

(** Sums, differences and products of numbers are NaN only at the
    infinities. *)
Lemma SFadd_num x y : sf_num x = true -> sf_finite y = true -> sf_num (SF64add x y) = true.
Proof.
  destruct x as [sx|sx| |sx mx ex], y as [sy|sy| |sy my ey]; try discriminate; intros _ _;
    unfold SF64add, SFadd; try reflexivity.
  - destruct sx, sy; reflexivity.
  - apply binary_normalize_num.
Qed.

Lemma SFsub_num x y : sf_num x = true -> sf_finite y = true -> sf_num (SF64sub x y) = true.
Proof.
  destruct x as [sx|sx| |sx mx ex], y as [sy|sy| |sy my ey]; try discriminate; intros _ _;
    unfold SF64sub, SFsub; try reflexivity.
  - destruct sx, sy; reflexivity.
  - apply binary_normalize_num.
Qed.

Lemma SFmul_num x sy my ey : sf_num x = true -> sf_num (SF64mul x (S754_finite sy my ey)) = true.
Proof.
  destruct x as [sx|sx| |sx mx ex]; try discriminate; intros _;
    unfold SF64mul, SFmul; try reflexivity.
  pose proof (binary_round_aux_sign (xorb sx sy) (Zpos (mx * my)) (ex + ey) loc_Exact
                ltac:(lia)) as S.
  destruct (binary_round_aux _ _ _ _ _ _); (reflexivity || contradiction).
Qed.


(** A finite number of size at least [-1021], plus a finite number that is
    not negative, both below [2^k] with [k <= 1022]: the sum is a finite
    positive number. *)
Lemma SFadd_positive k mx ex y :
  k <= 1022 -> -1021 <= Zdigits2 (Zpos mx) + ex <= k -> sf_below k y = true ->
  exists m e, SF64add (S754_finite false mx ex) y = S754_finite false m e.
Proof.
  intros Hk Hx Hy. destruct y as [sy|sy| |[|] my ey]; try discriminate.
  - exists mx, ex. reflexivity.
  - cbn [sf_below] in Hy. apply Z.leb_le in Hy.
    unfold SF64add, SFadd. cbn [cond_Zopp].
    pose proof (shl_align_spec mx ex (Z.min ex ey)) as [_ Ha].
    pose proof (shl_align_spec my ey (Z.min ex ey)) as [_ Hb].
    change (Z.pos ?a + Z.pos ?b) with (Z.pos (a + b)). cbn [binary_normalize].
    set (a := fst (shl_align mx ex (Z.min ex ey))) in *.
    set (b := fst (shl_align my ey (Z.min ex ey))) in *.
    replace (Z.min ex (Z.min ex ey)) with (Z.min ex ey) in Ha by lia.
    replace (Z.min ey (Z.min ex ey)) with (Z.min ex ey) in Hb by lia.
    assert (Da : Zdigits2 (Zpos a) + Z.min ex ey = Zdigits2 (Zpos mx) + ex).
    { rewrite Ha, Zdigits2_mul_pow by lia. lia. }
    assert (Db : Zdigits2 (Zpos b) + Z.min ex ey = Zdigits2 (Zpos my) + ey).
    { rewrite Hb, Zdigits2_mul_pow by lia. lia. }
    assert (Dlo : Zdigits2 (Zpos a) <= Zdigits2 (Zpos (a + b))).
    { apply Zdigits2_mono. lia. }
    assert (Dhi : Zdigits2 (Zpos (a + b)) <= Z.max (Zdigits2 (Zpos a)) (Zdigits2 (Zpos b)) + 1).
    { rewrite Pos2Z.inj_add. apply Zdigits2_add; lia. }
    assert (R : -1021 <= Zdigits2 (Z.pos (a + b)) + Z.min ex ey <= 1023).
    { clearbody a b. lia. }
    destruct (binary_round_finite false (a + b) (Z.min ex ey) R) as (m & e & -> & _).
    now exists m, e.
Qed.

(** The quotient of a finite number that is not negative by a positive
    finite number of size [s >= 2] (a number from 2 on) is a finite number
    that is not negative, below [2^(1027 - s)]. *)
Lemma SFdiv_below x my ey :
  valid_binary x = true -> sf_below 1024 x = true ->
  2 <= Zdigits2 (Zpos my) + ey <= 1024 ->
  sf_below (1027 - (Zdigits2 (Zpos my) + ey)) (SF64div x (S754_finite false my ey)) = true.
Proof.
  intros Hv Hx Hy. destruct x as [sx|sx| |[|] mx ex]; try discriminate; [reflexivity|].
  cbn [sf_below] in Hx. apply Z.leb_le in Hx.
  unfold SF64div, SFdiv, SFdiv_core_binary. cbn [xorb].
  set (d1 := Zdigits2 (Zpos mx)) in *. set (d2 := Zdigits2 (Zpos my)) in *.
  set (e' := Z.min (fexp prec emax (d1 + ex - (d2 + ey))) (ex - ey)).
  set (s := ex - ey - e').
  set (m' := match s with Z0 => Zpos mx | Zpos _ => Z.shiftl (Zpos mx) s | Zneg _ => 0 end).
  assert (Hs : 0 <= s) by (subst s e'; lia).
  assert (Hm' : m' = Zpos mx * 2 ^ s).
  { subst m'. destruct s as [|p|p] eqn:Es; [simpl; lia| |lia].
    now rewrite Z.shiftl_mul_pow2 by lia. }
  assert (Dm' : Zdigits2 m' = d1 + s) by (rewrite Hm'; apply Zdigits2_mul_pow; lia).
  assert (P1 : 1 <= d1) by (subst d1; simpl; lia).
  assert (P2 : 1 <= d2) by (subst d2; simpl; lia).
  pose proof (Z.div_eucl_eq m' (Zpos my) ltac:(lia)) as Hq.
  pose proof (Z.mod_pos_bound m' (Zpos my) ltac:(lia)) as Hr.
  unfold Z.modulo in Hr.
  assert (Q : fst (Z.div_eucl m' (Z.pos my)) = m' / Zpos my) by reflexivity.
  destruct (Z.div_eucl m' (Z.pos my)) as [q r]. cbn [fst] in Q.
  assert (Hq0 : 0 <= q) by (rewrite Q; apply Z.div_pos; lia).
  assert (Dq : Zdigits2 q <= Z.max (d1 + s - (d2 - 1)) 0).
  { rewrite <- Dm', <- Zdigits2_div_pow by lia.
    apply Zdigits2_mono. split; [assumption|].
    rewrite Q. apply Z.div_le_compat_l; [lia|].
    split; [apply Z.pow_pos_nonneg; lia|].
    destruct (Zdigits2_bounds (Zpos my) ltac:(lia)). fold d2 in H. lia. }
  assert (He' : e' <= 971) by (subst e'; unfold fexp, emin, prec, emax; lia).
  assert (Hsize : Zdigits2 q + e' <= Z.max (d1 + ex - (d2 + ey) + 1) e').
  { subst s. lia. }
  assert (He'' : e' <= Z.max (d1 + ex - (d2 + ey) - 53) (-1074)).
  { subst e'. unfold fexp, emin, prec, emax. lia. }
  set (l := new_location (Zpos my) r).
  pose proof (binary_round_aux_sign false q e' l Hq0) as S.
  pose proof (binary_round_aux_finite false q e' l Hq0 ltac:(lia) He') as F.
  destruct (binary_round_aux prec emax false q e' l) as [z|z| |z m e]; try contradiction.
  - reflexivity.
  - subst z. cbn [sf_below]. apply Z.leb_le. lia.
Qed.

End Operations.

(** ** Binary64 numbers that are finite and not negative *)

Section Floats.
Local Open Scope float_scope.


Lemma ltb_infinity_finite x :
  (0 <=? x) = true -> (x <? infinity) = true -> sf_below 1024 (Prim2SF x) = true.
Proof.
  rewrite FloatAxioms.leb_spec, FloatAxioms.ltb_spec.
  change (Prim2SF 0) with (S754_zero false). change (Prim2SF infinity) with (S754_infinity false).
  pose proof (FloatAxioms.Prim2SF_valid x) as V.
  unfold SFleb, SFltb.
  destruct (Prim2SF x) as [s|[|]| |[|] m e]; try (simpl; discriminate); intros _ _.
  - reflexivity.
  - unfold valid_binary, SpecFloat.valid_binary, bounded, canonical_mantissa in V.
    apply andb_prop in V as [C E]. apply Z.eqb_eq in C. apply Z.leb_le in E.
    cbn [sf_below]. apply Z.leb_le. change (Zdigits2 (Z.pos m)) with (Z.pos (digits2_pos m)).
    unfold fexp, emin, prec, emax in *. lia.
Qed.

(** The factor [1 + B/100] of a finite percentage [B] that is not negative
    is a finite positive number. *)
Lemma buffer_factor_finite B :
  (0 <=? B) = true -> (B <? infinity) = true ->
  exists m e, Prim2SF (1.0 + B / 100.0) = S754_finite false m e.
Proof.
  intros H0 Hinf.
  rewrite FloatAxioms.add_spec, FloatAxioms.div_spec.
  change (Prim2SF 1.0) with (S754_finite false 4503599627370496 (-52)).
  change (Prim2SF 100.0) with (S754_finite false 7036874417766400 (-46)).
  pose proof (SFdiv_below (Prim2SF B) 7036874417766400 (-46)
                (FloatAxioms.Prim2SF_valid B) (ltb_infinity_finite B H0 Hinf)
                ltac:(simpl; lia)) as Hq.
  change (1027 - (Zdigits2 7036874417766400 + -46))%Z with 1020%Z in Hq.
  apply (SFadd_positive 1020); [lia|simpl; lia|exact Hq].
Qed.

(** The buffered price of a finite premium and a finite percentage that is
    not negative is a number, whatever the spot price (a number). *)
Lemma buffered_price_num spot premium B :
  is_nan spot = false ->
  (0 <=? premium) = true -> (premium <? infinity) = true ->
  (0 <=? B) = true -> (B <? infinity) = true ->
  is_nan ((spot - premium) * (1.0 + B / 100.0) + premium) = false.
Proof.
  intros Hs Hp0 Hp HB0 HB.
  destruct (buffer_factor_finite B HB0 HB) as (m & e & Hf).
  pose proof (ltb_infinity_finite premium Hp0 Hp) as Hpf.
  assert (Hpf' : sf_finite (Prim2SF premium) = true).
  { destruct (Prim2SF premium) as [s|s| |[|] mp ep]; try discriminate; reflexivity. }
  apply is_nan_num. rewrite FloatAxioms.add_spec. apply SFadd_num; [|exact Hpf'].
  rewrite FloatAxioms.mul_spec, Hf. apply SFmul_num.
  rewrite FloatAxioms.sub_spec. apply SFsub_num; [|exact Hpf'].
  now apply is_nan_num.
Qed.



End Floats.

(** ** Sorts that meet the contract of [sort.Slice] *)

Section Sorts.
Context {A : Type} (less : A -> A -> bool).

Local Abbreviation sorted_by := (Sorted (fun x y => less y x = false)).

Lemma insert_by_Permutation x l : Permutation (x :: l) (insert_by less x l).
Proof.
  induction l as [|y l IH]; simpl; [reflexivity|].
  destruct (less y x); [|reflexivity].
  rewrite <- IH. apply perm_swap.
Qed.

Lemma sort_by_Permutation l : Permutation l (sort_by less l).
Proof.
  induction l as [|x l IH]; simpl; [reflexivity|].
  rewrite <- insert_by_Permutation. now constructor.
Qed.

Lemma swap_Permutation (x : list A) i j : Permutation (swap x i j) x.
Proof.
  unfold swap. destruct (x !! i) as [a|] eqn:Ei; [|reflexivity].
  destruct (x !! j) as [b|] eqn:Ej; [|reflexivity].
  now apply Permutation_insert_swap.
Qed.

Lemma shellPass_Permutation (x : list A) : Permutation (shellPass less x) x.
Proof.
  unfold shellPass. generalize (seq 6 (length x - 6)). intros idx.
  assert (G : forall y, Permutation y x ->
    Permutation (foldl (fun x i =>
           match x !! i, x !! (i - 6)%nat with
           | Some a, Some b => if less a b then swap x i (i - 6) else x
           | _, _ => x
           end) y idx) x).
  { induction idx as [|i idx IH]; intros y Hy; simpl; [exact Hy|].
    apply IH. destruct (y !! i); [|exact Hy]. destruct (y !! (i - 6)%nat); [|exact Hy].
    destruct (less _ _); [|exact Hy]. now rewrite swap_Permutation. }
  now apply G.
Qed.

Lemma insert_by_Sorted x l :
  (forall a b, In a (x :: l) -> In b (x :: l) -> less a b = true -> less b a = false) ->
  sorted_by l -> sorted_by (insert_by less x l).
Proof.
  intros Hasym HS. induction HS as [|y l HS IH Hd]; simpl.
  - constructor; constructor.
  - destruct (less y x) eqn:E.
    + constructor.
      * apply IH. intros a b Ha Hb. apply Hasym; simpl in *; tauto.
      * destruct l as [|z l]; simpl.
        -- constructor. apply Hasym; simpl; auto.
        -- destruct (less z x); constructor.
           ++ now inversion Hd.
           ++ apply Hasym; simpl; auto.
    + constructor; [constructor; assumption|]. constructor. exact E.
Qed.

Lemma sort_by_Sorted l : strict_weak_ordering less l -> sorted_by (sort_by less l).
Proof.
  intros (Hirr & Htr & _).
  assert (Hasym : forall a b, In a l -> In b l -> less a b = true -> less b a = false).
  { intros a b Ha Hb Hab. destruct (less b a) eqn:E; [|reflexivity].
    rewrite <- (Hirr a Ha). symmetry. now apply (Htr a b a). }
  clear Hirr Htr. induction l as [|x l IH]; simpl; [constructor|].
  apply insert_by_Sorted.
  - assert (P : forall a, In a (x :: sort_by less l) -> In a (x :: l)).
    { intros a [<-|Ha]; [now left|right].
      eapply Permutation_in; [symmetry; apply sort_by_Permutation|exact Ha]. }
    intros a b Ha Hb. apply Hasym; auto.
  - apply IH. intros a b Ha Hb. apply Hasym; now right.
Qed.

Lemma strict_weak_ordering_Permutation l l' :
  Permutation l l' -> strict_weak_ordering less l -> strict_weak_ordering less l'.
Proof.
  intros HP (Hirr & Htr & Hneg).
  assert (P : forall a, In a l' -> In a l).
  { intros a Ha. eapply Permutation_in; [symmetry; exact HP|exact Ha]. }
  repeat split; intros; eauto.
Qed.

Lemma Sorted_weaken (P : A -> Prop) (R R' : A -> A -> Prop) (l : list A) :
  (forall x y, P x -> P y -> R x y -> R' x y) ->
  Forall P l -> Sorted R l -> Sorted R' l.
Proof.
  intros HR HP HS. induction HS as [|x l HS IH Hd]; [constructor|].
  apply Forall_cons in HP as [Hx Hl]. constructor; [now apply IH|].
  destruct Hd as [|y l Hxy]; constructor.
  apply Forall_cons in Hl as [Hy _]. now apply HR.
Qed.

End Sorts.

(** Insertion sort meets the contract, and so does the sort with the pass
    over the elements six places apart before it. *)
Lemma stableSort_contract : sort_Slice_contract scenario.stableSort.
Proof.
  intros less l H. split; [apply sort_by_Permutation|now apply sort_by_Sorted].
Qed.

Lemma smallSliceSort_contract : sort_Slice_contract scenario.smallSliceSort.
Proof.
  intros less l H. unfold scenario.smallSliceSort, shellInsertionSort. split.
  - rewrite <- sort_by_Permutation. symmetry. apply shellPass_Permutation.
  - apply sort_by_Sorted. eapply strict_weak_ordering_Permutation; [|exact H].
    symmetry. apply shellPass_Permutation.
Qed.

(** ** The instance registry *)

(** C10.  Adding a nil instance record leaves the registry as it is: [add]
    returns the registry unchanged, so every [get] answers as before and
    [count] is the same. *)
Theorem add_nil_leaves_registry (im : instanceManager.t) :
  add None im = im /\
  (forall id, get id (add None im) = get id im) /\
  count (add None im) = count im.
Proof. repeat split. Qed.

(** [add] overwrites by id, and leaves the other ids alone. *)
Lemma add_get (inst : instance.t) (im : instanceManager.t) (id : string) :
  get id (add (Some inst) im) =
    if decide (instance.InstanceId inst = id) then Some inst else get id im.
Proof.
  simpl. unfold instanceManager_get, instanceManager_add. simpl.
  apply lookup_insert.
Qed.

(** ** The compatibility filter and the ranker *)

Section FilterFacts.
Variable filepath_Match : string -> string -> bool.
Variables (i : instance.t) (allowedList disallowedList : list string) (vols : Z).

Local Abbreviation accept := (acceptCandidate filepath_Match i allowedList disallowedList vols).
Local Abbreviation passed := (accepted filepath_Match i allowedList disallowedList vols).

Lemma acceptCandidate_loop keys : forall acc,
  Forall passed acc -> Forall passed (foldl accept acc keys).
Proof.
  induction keys as [|k keys IH]; intros acc Hacc; simpl; [exact Hacc|].
  apply IH. unfold acceptCandidate.
  destruct (isCompatible _ _ _ _ _ _ _) eqn:E; [|exact Hacc].
  apply Forall_app. split; [exact Hacc|]. constructor; [|constructor].
  split; [reflexivity|exact E].
Qed.

Lemma acceptableInstanceTypes_accepted keys :
  Forall passed
    (acceptableInstanceTypes filepath_Match i allowedList disallowedList vols keys).
Proof. apply acceptCandidate_loop. constructor. Qed.

Lemma isPriceCompatible_bounds p :
  isPriceCompatible i p = true ->
  (p =? 0)%float = false /\ (p <=? instance.price i)%float = true.
Proof.
  unfold isPriceCompatible. destruct (p =? 0)%float; [discriminate|].
  destruct (p <=? instance.price i)%float; [auto|discriminate].
Qed.

Lemma accepted_bounds a :
  passed a ->
  (acceptableInstance.price a =? 0)%float = false /\
  (acceptableInstance.price a <=? instance.price i)%float = true.
Proof.
  intros [_ H]. unfold isCompatible in H.
  repeat (apply andb_prop in H as [H ?]).
  now apply isPriceCompatible_bounds.
Qed.

Lemma accepted_num a : passed a -> is_nan (acceptableInstance.price a) = false.
Proof. intros H%accepted_bounds. destruct H as [_ H]. now apply leb_true_num in H. Qed.

(** On accepted candidates the closure given to [sort.Slice] is an ordering
    as the library asks: none of their prices is a NaN. *)
Lemma lessByPrice_ordering l : Forall passed l -> strict_weak_ordering lessByPrice l.
Proof.
  intros Hl. rewrite Forall_forall in Hl. unfold lessByPrice. split; [|split].
  - intros x _. apply ltb_irrefl.
  - intros x y z _ _ _. apply ltb_trans.
  - intros x y z Hx Hy Hz.
    apply ltb_neg_trans; apply accepted_num; apply Hl; now apply list_elem_of_In.
Qed.

End FilterFacts.


Section Ranker.
Variable filepath_Match : string -> string -> bool.
Variable sort_Slice :
  (acceptableInstance.t -> acceptableInstance.t -> bool) ->
  list acceptableInstance.t -> list acceptableInstance.t.
Variable countLaunchConfigEphemeralVolumes : option launchConfiguration.t -> Z.
Variable countLaunchTemplateEphemeralVolumes : option launchTemplate.t -> Z.
Hypothesis sort_Slice_ok : sort_Slice_contract sort_Slice.

Local Abbreviation getCompatible :=
  (getCompatibleSpotInstanceTypesListSortedAscendingByPrice
     filepath_Match sort_Slice countLaunchConfigEphemeralVolumes
     countLaunchTemplateEphemeralVolumes).
Local Abbreviation volumes :=
  (attachedVolumesNumber countLaunchConfigEphemeralVolumes
     countLaunchTemplateEphemeralVolumes).
Local Abbreviation candidates i al dl a :=
  (acceptableInstanceTypes filepath_Match i al dl (volumes i a) (catalogKeys i)).

Lemma getCompatible_inv i al dl l err :
  getCompatible i al dl = Ok (l, err) ->
  exists a acc,
    instance.asg i = Some a /\
    acc = candidates i al dl a /\
    ((acc = [] /\ l = [] /\ err = Some "no cheaper spot instance types could be found") \/
     (acc <> [] /\ l = map acceptableInstance.instanceTI (sort_Slice lessByPrice acc) /\
      err = None)).
Proof.
  unfold getCompatibleSpotInstanceTypesListSortedAscendingByPrice.
  destruct (instance.asg i) as [a|]; simpl; [|discriminate].
  fold (volumes i a). fold (catalogKeys i).
  intros H. exists a, (candidates i al dl a).
  split; [reflexivity|]. split; [reflexivity|].
  destruct (acceptableInstanceTypes _ _ _ _ _ _) as [|x acc']; inversion H; subst.
  - left. auto.
  - right. split; [discriminate|auto].
Qed.

Lemma sorted_accepted i al dl a :
  let acc := candidates i al dl a in
  Permutation acc (sort_Slice lessByPrice acc) /\
  Forall (accepted filepath_Match i al dl (volumes i a)) (sort_Slice lessByPrice acc) /\
  Sorted (fun x y => (acceptableInstance.price x <=? acceptableInstance.price y)%float = true)
         (sort_Slice lessByPrice acc).
Proof.
  intros acc.
  pose proof (acceptableInstanceTypes_accepted filepath_Match i al dl (volumes i a)
                (catalogKeys i)) as Hacc.
  fold acc in Hacc.
  destruct (sort_Slice_ok lessByPrice acc) as [Hperm Hsorted].
  { eapply lessByPrice_ordering; eauto. }
  assert (Hall : Forall (accepted filepath_Match i al dl (volumes i a))
                        (sort_Slice lessByPrice acc)).
  { eapply Permutation_Forall; eauto. }
  split; [exact Hperm|]. split; [exact Hall|].
  eapply Sorted_weaken; [|exact Hall|exact Hsorted].
  intros x y Hx Hy Hless. unfold lessByPrice in Hless.
  apply ltb_false_leb; eauto using accepted_num.
Qed.



(** C2, as the code has it.  Whatever [sort.Slice] does within its
    contract, the list the function returns is sorted ascending by
    effective price (the price of a candidate is at most that of every
    candidate after it) and is a permutation of the candidates the filter
    accepted.  Nothing is said on the order of candidates of equal
    price. *)
Theorem ranked_by_price i al dl l err :
  getCompatible i al dl = Ok (l, err) ->
  StronglySorted
    (fun T1 T2 => (calculatePrice i T1 <=? calculatePrice i T2)%float = true) l /\
  exists a,
    instance.asg i = Some a /\
    Permutation (map acceptableInstance.instanceTI (candidates i al dl a)) l.
Proof.
  intros H.
  apply getCompatible_inv in H as (a & acc & Ha & Hacc & [(E & -> & _)|(_ & -> & _)]).
  - split; [constructor|]. exists a. split; [exact Ha|]. rewrite <- Hacc, E. reflexivity.
  - destruct (sorted_accepted i al dl a) as (Hperm & Hall & Hsorted). rewrite <- Hacc in *.
    split.
    + apply Sorted_StronglySorted.
      { intros x y z. apply leb_trans. }
      clear Hperm. induction Hsorted as [|x s Hs IH Hd]; simpl; [constructor|].
      apply Forall_cons in Hall as [Hx Hall]. constructor; [now apply IH|].
      destruct Hd as [|y s' Hxy]; simpl; constructor.
      apply Forall_cons in Hall as [Hy _].
      destruct Hx as [<- _], Hy as [<- _]. exact Hxy.
    + exists a. split; [exact Ha|]. rewrite <- Hacc. now apply Permutation_map.
Qed.

End Ranker.

Local Abbreviation getCompatibleIn sort_Slice :=
  (getCompatibleSpotInstanceTypesListSortedAscendingByPrice
     scenario.literalMatch sort_Slice scenario.noVolumes scenario.noVolumes).

(** Scenarios 1 and 2: the AMD type is accepted for the Intel source, the
    Graviton type is not. *)
Example happy_path :
  getCompatibleIn scenario.stableSort scenario.happySource [] []
  = Ok ([scenario.m5a_large], None).
Proof. vm_compute. reflexivity. Qed.


(** The price test itself only rejects 0: were a catalog to list a spot
    price of -0.0625, the type would be accepted for a source at 0.125. *)
Example negative_price_accepted :
  getCompatibleIn scenario.stableSort scenario.rebateSource [] []
    = Ok ([scenario.rebate], None) /\
  (0 <? calculatePrice scenario.rebateSource scenario.rebate)%float = false.
Proof. split; vm_compute; reflexivity. Qed.

(** The ranking of seven candidates by a sort that is stable. *)
Lemma ranked_by_price_witness :
  sort_Slice_contract scenario.stableSort /\
  getCompatibleIn scenario.stableSort scenario.sevenSource [] []
    = Ok ([scenario.t7; scenario.t1; scenario.t2; scenario.t3; scenario.t4;
           scenario.t5; scenario.t6], None) /\
  StronglySorted
    (fun T1 T2 => (calculatePrice scenario.sevenSource T1
                     <=? calculatePrice scenario.sevenSource T2)%float = true)
    [scenario.t7; scenario.t1; scenario.t2; scenario.t3; scenario.t4;
     scenario.t5; scenario.t6].
Proof.
  split; [exact stableSort_contract|]. split; [vm_compute; reflexivity|].
  apply (ranked_by_price scenario.literalMatch scenario.stableSort
           scenario.noVolumes scenario.noVolumes stableSort_contract
           scenario.sevenSource [] [] _ None).
  vm_compute. reflexivity.
Defined.

(** C2 as stated fails: with a sort that meets the contract of [sort.Slice]
    and is not stable, the same seven candidates come back with [t2] before
    [t1], two types of equal price. *)
Lemma ranking_not_stable :
  sort_Slice_contract scenario.smallSliceSort /\
  getCompatibleIn scenario.smallSliceSort scenario.sevenSource [] []
    = Ok ([scenario.t7; scenario.t2; scenario.t1; scenario.t3; scenario.t4;
           scenario.t5; scenario.t6], None) /\
  ~ tiesInNameOrder scenario.sevenSource
      [scenario.t7; scenario.t2; scenario.t1; scenario.t3; scenario.t4;
       scenario.t5; scenario.t6].
Proof.
  split; [exact smallSliceSort_contract|]. split; [vm_compute; reflexivity|].
  intros H. specialize (H 1%nat 2%nat scenario.t2 scenario.t1).
  assert (E : String.ltb "t2" "t1" = true).
  { apply H; [lia|reflexivity|reflexivity|vm_compute; reflexivity]. }
  vm_compute in E. discriminate E.
Qed.

(** ** The bid pricer *)

(** C7.  Under the normal policy the bid is the base on-demand price;
    under any other policy (the aggressive one) it is [math.Min] of the
    base price and the buffered price
    [(spot - premium) * (1 + B/100) + premium]; hence the bid is at most
    the base price for all inputs that are not negative, the premium and
    the percentage [B] being finite (the base price and the spot price may
    be [+Inf]). *)
Theorem bid_at_most_base (i : instance.t) (base spot premium : float) :
  let conf := region.conf (instance.region i) in
  let B := Config.SpotPriceBufferPercentage conf in
  (Config.BiddingPolicy conf = DefaultBiddingPolicy ->
     getPriceToBid i base spot premium = base) /\
  (Config.BiddingPolicy conf <> DefaultBiddingPolicy ->
     getPriceToBid i base spot premium =
       math_Min base (((spot - premium) * (1.0 + B / 100.0)) + premium)%float) /\
  ((0 <=? base)%float = true -> (0 <=? spot)%float = true ->
   (0 <=? premium)%float = true -> (premium <? infinity)%float = true ->
   (0 <=? B)%float = true -> (B <? infinity)%float = true ->
   (getPriceToBid i base spot premium <=? base)%float = true).
Proof.
  intros conf B. unfold getPriceToBid. fold conf. fold B.
  destruct (String.eqb_spec (Config.BiddingPolicy conf) DefaultBiddingPolicy) as [E|E].
  - split; [reflexivity|]. split; [intros H; contradiction|].
    intros Hb _ _ _ _ _. apply leb_refl. now apply leb_true_num in Hb.
  - split; [intros H; contradiction|]. split; [reflexivity|].
    intros Hb Hs Hp0 Hp HB0 HB. apply math_Min_leb_l.
    + now apply leb_true_num in Hb.
    + apply buffered_price_num; try assumption. now apply leb_true_num in Hs.
Qed.

(** The aggressive bid of a source at 0.125 for a spot price of 0.03125, no
    premium and a buffer of 10 percent. *)
Lemma bid_at_most_base_witness :
  (0 <=? 0.125)%float = true /\ (0 <=? 0.03125)%float = true /\
  (0 <=? 0)%float = true /\ (0 <? infinity)%float = true /\
  (0 <=? 10)%float = true /\ (10 <? infinity)%float = true /\
  Config.BiddingPolicy (region.conf (instance.region (scenario.bidder 10)))
    <> DefaultBiddingPolicy /\
  (getPriceToBid (scenario.bidder 10) 0.125 0.03125 0 <=? 0.125)%float = true.
Proof.
  repeat (split; [reflexivity|]).
  split; [vm_compute; discriminate|].
  apply (proj2 (proj2 (bid_at_most_base (scenario.bidder 10) 0.125 0.03125 0)));
    reflexivity.
Defined.

(** Whatever the inputs, a NaN and the infinities included, the bid is
    never greater than the base price. *)
Lemma bid_not_above_base (i : instance.t) (base spot premium : float) :
  (base <? getPriceToBid i base spot premium)%float = false.
Proof.
  unfold getPriceToBid.
  destruct (String.eqb _ _); [apply ltb_irrefl|apply math_Min_not_gt].
Qed.

(** Scenario 1: under the normal policy the bid is the source's price. *)
Example normal_bid : getPriceToBid scenario.happySource 0.125 0.03125 0 = 0.125%float.
Proof. reflexivity. Qed.

(** The percentage has to be finite: with a percentage of [+Inf] and a
    spot price equal to the premium the buffered price is [0 * Inf], a NaN,
    and so is the bid. *)
Example infinite_percentage_bid :
  Config.BiddingPolicy (region.conf (instance.region (scenario.bidder infinity)))
    = "aggressive" /\
  (0 <=? 0.125)%float = true /\ (0 <=? 0.03125)%float = true /\
  (0 <=? infinity)%float = true /\
  (getPriceToBid (scenario.bidder infinity) 0.125 0.03125 0.03125 <=? 0.125)%float = false.
Proof. repeat split. Qed.

(** ** The EBS volume-type rewrite *)

(** Scenarios 3 and 4. *)
Example gp2_below_threshold :
  convertLaunchConfigurationEBSVolumeType
    {| autoscaling.Ebs.DeleteOnTermination := None; autoscaling.Ebs.Encrypted := None;
       autoscaling.Ebs.Iops := None; autoscaling.Ebs.SnapshotId := None;
       autoscaling.Ebs.VolumeSize := Some 150%Z; autoscaling.Ebs.VolumeType := Some "gp2" |}
    scenario.web = Ok (Some "gp3").
Proof. reflexivity. Qed.

Example gp2_above_threshold :
  convertLaunchConfigurationEBSVolumeType
    {| autoscaling.Ebs.DeleteOnTermination := None; autoscaling.Ebs.Encrypted := None;
       autoscaling.Ebs.Iops := None; autoscaling.Ebs.SnapshotId := None;
       autoscaling.Ebs.VolumeSize := Some 400%Z; autoscaling.Ebs.VolumeType := Some "gp2" |}
    scenario.web = Ok (Some "gp2").
Proof. reflexivity. Qed.

Example io2_region_gate :
  supportedIO2region "us-east-1" = true /\ supportedIO2region "sa-east-1" = false.
Proof. split; reflexivity. Qed.

(** C8.  The rewrite is idempotent, in each of its three variants: for
    every EBS block (every volume type and size, missing ones included) and
    every group (every region and GP2 threshold), rewriting the block whose
    type is the rewrite's output gives that output again; where the rewrite
    panics there is no output to apply it to. *)
Theorem volume_type_rewrite_idempotent (a : autoScalingGroup.t) :
  (forall ebs,
     (let! vt := convertLaunchConfigurationEBSVolumeType ebs a in
      convertLaunchConfigurationEBSVolumeType (autoscaling.Ebs.set_VolumeType vt ebs) a)
     = convertLaunchConfigurationEBSVolumeType ebs a) /\
  (forall ebs,
     (let! vt := convertLaunchTemplateEBSVolumeType ebs a in
      convertLaunchTemplateEBSVolumeType
        (ec2.LaunchTemplateEbsBlockDevice.set_VolumeType vt ebs) a)
     = convertLaunchTemplateEBSVolumeType ebs a) /\
  (forall ebs,
     (let! vt := convertImageEBSVolumeType ebs a in
      convertImageEBSVolumeType (ec2.EbsBlockDevice.set_VolumeType vt ebs) a)
     = convertImageEBSVolumeType ebs a).
Proof.
  repeat split; intros [d e io sn [size|] [vt|]];
    unfold convertLaunchConfigurationEBSVolumeType, convertLaunchTemplateEBSVolumeType,
      convertImageEBSVolumeType, and_then; simpl; try reflexivity.
  all: destruct (String.eqb vt "io1") eqn:E1; simpl;
       [destruct (supportedIO2region (autoScalingGroup.region a)) eqn:E2; simpl;
        [reflexivity|] |].
  all: destruct (String.eqb vt "gp2") eqn:E3; simpl; rewrite ?E1, ?E2, ?E3; simpl;
       try reflexivity.
  all: try (destruct (size <=? _)%Z eqn:E4; simpl; rewrite ?E1, ?E2, ?E3, ?E4; simpl;
            reflexivity).
Qed.

(** The outputs io2 and gp3 are fixed points. *)
Lemma io2_gp3_fixed (a : autoScalingGroup.t) (ebs : autoscaling.Ebs.t) :
  convertLaunchConfigurationEBSVolumeType
    (autoscaling.Ebs.set_VolumeType (Some "io2") ebs) a = Ok (Some "io2") /\
  convertLaunchConfigurationEBSVolumeType
    (autoscaling.Ebs.set_VolumeType (Some "gp3") ebs) a = Ok (Some "gp3").
Proof. split; reflexivity. Qed.

(** C4, where the code departs from the claim.  On a block whose volume
    type is missing the launch-configuration rewrite returns the missing
    type, as claimed; the launch-template rewrite and the image rewrite
    dereference it and panic, and so does the conversion of a list of
    mappings that holds such a block. *)
Theorem missing_volume_type (a : autoScalingGroup.t) :
  (forall ebs,
     convertLaunchConfigurationEBSVolumeType (autoscaling.Ebs.set_VolumeType None ebs) a
     = Ok None) /\
  (forall ebs,
     convertLaunchTemplateEBSVolumeType
       (ec2.LaunchTemplateEbsBlockDevice.set_VolumeType None ebs) a = Panic) /\
  (forall ebs,
     convertImageEBSVolumeType (ec2.EbsBlockDevice.set_VolumeType None ebs) a = Panic) /\
  (forall i ebs deviceName virtualName noDevice,
     convertLaunchTemplateBlockDeviceMappings (instance.set_asg (Some a) i)
       [ {| ec2.LaunchTemplateBlockDeviceMapping.DeviceName := deviceName;
            ec2.LaunchTemplateBlockDeviceMapping.VirtualName := virtualName;
            ec2.LaunchTemplateBlockDeviceMapping.Ebs :=
              Some (ec2.LaunchTemplateEbsBlockDevice.set_VolumeType None ebs);
            ec2.LaunchTemplateBlockDeviceMapping.NoDevice := noDevice |} ]
     = Panic) /\
  (forall i ebs deviceName virtualName noDevice,
     convertImageBlockDeviceMappings (instance.set_asg (Some a) i)
       [ {| ec2.BlockDeviceMapping.DeviceName := deviceName;
            ec2.BlockDeviceMapping.VirtualName := virtualName;
            ec2.BlockDeviceMapping.Ebs := Some (ec2.EbsBlockDevice.set_VolumeType None ebs);
            ec2.BlockDeviceMapping.NoDevice := noDevice |} ]
     = Panic).
Proof. repeat split. Qed.

(** ** The tags of a spot replacement *)

Lemma copy_loop (tags : list ec2.Tag.t) : forall acc,
  foldl (fun tags tag => if copiedTag tag then tags ++ [tag] else tags) acc tags
  = acc ++ List.filter copiedTag tags.
Proof.
  induction tags as [|t tags IH]; intros acc; simpl; [now rewrite app_nil_r|].
  rewrite IH. destruct (copiedTag t); [now rewrite <- app_assoc|reflexivity].
Qed.

(** The test of the copying loop: no prefix [aws:], and none of six keys,
    the sixth of which is spelled [LaunchConfiguationName]. *)
Lemma copiedTag_iff tag :
  copiedTag tag = true <->
  strings_HasPrefix (ec2.Tag.Key tag) "aws:" = false /\
  ~ In (ec2.Tag.Key tag)
       [ "launched-by-autospotting"; "launched-for-asg"; "launched-for-replacing-instance";
         "LaunchTemplateID"; "LaunchTemplateVersion"; "LaunchConfiguationName" ].
Proof.
  unfold copiedTag. rewrite !andb_true_iff, !negb_true_iff, !String.eqb_neq. simpl. intuition.
Qed.

(** The tag list: the replacement's own tags, on reserved keys, then the
    source's tags that pass the test, in their order. *)
Lemma generateTagsList_copied (i : instance.t) (a : autoScalingGroup.t) :
  instance.asg i = Some a ->
  exists own,
    generateTagsList i =
      Ok [ {| ec2.TagSpecification.ResourceType := Some "instance";
              ec2.TagSpecification.Tags := own ++ List.filter copiedTag (instance.Tags i) |} ] /\
    forallb (fun t => existsb (String.eqb (ec2.Tag.Key t)) reservedKeys) own = true.
Proof.
  intros Ha. unfold generateTagsList. rewrite Ha. simpl. rewrite copy_loop.
  eexists. split; [reflexivity|].
  destruct (autoScalingGroup.LaunchTemplate a); [reflexivity|].
  destruct (autoScalingGroup.LaunchConfigurationName a); reflexivity.
Qed.

(** C6, where the code departs from the claim.  The source carries the
    tags [LaunchConfigurationName = old] and [LaunchConfiguationName =
    typo]: the first, on a reserved key, is copied (beside the replacement's
    own tag on that key), the second is left out. *)
Theorem tags_copy_LaunchConfigurationName :
  generateTagsList scenario.tagged =
    Ok [ {| ec2.TagSpecification.ResourceType := Some "instance";
            ec2.TagSpecification.Tags :=
              [ scenario.tag "launched-by-autospotting" "true";
                scenario.tag "launched-for-asg" "web";
                scenario.tag "launched-for-replacing-instance" "i-abc";
                scenario.tag "LaunchConfigurationName" "web-lc";
                scenario.tag "Name" "web";
                scenario.tag "LaunchConfigurationName" "old" ] |} ].
Proof. reflexivity. Qed.

(** ** [terminate] and the swap *)

Lemma run_from_bind {A B : Type} (o : oracle) (p : prog A) (f : A -> prog B) : forall tr,
  run_from o tr (prog_bind p f) =
  run_from o (snd (run_from o tr p)) (f (fst (run_from o tr p))).
Proof.
  induction p as [a|X e k IH]; intros tr; simpl; [reflexivity|]. apply IH.
Qed.

(** A run only adds to the trace. *)
Lemma run_from_extends {A : Type} (o : oracle) (p : prog A) : forall tr,
  exists ev, snd (run_from o tr p) = tr ++ ev.
Proof.
  induction p as [a|X e k IH]; intros tr; simpl.
  - exists []. now rewrite app_nil_r.
  - destruct (IH (o X tr e) (tr ++ [issue e])) as [ev ->].
    exists (issue e :: ev). now rewrite <- app_assoc.
Qed.

(** C9.  In any environment and after any calls: for an instance whose
    state is terminated or shutting-down, [terminate] returns an error and
    issues no call; for an instance in any other state it issues one call,
    [TerminateInstances] on the instance's id, and returns what that call
    answered. *)
Theorem terminate_spec (i : instance.t) (o : oracle) (tr : list issued) :
  let id := instance.InstanceId i in
  ((instance.StateName i = "terminated" \/ instance.StateName i = "shutting-down") ->
     run_from o tr (terminate i) = (Some (String.append "can't terminate " id), tr)) /\
  ((instance.StateName i <> "terminated" /\ instance.StateName i <> "shutting-down") ->
     run_from o tr (terminate i) =
       (o _ tr (TerminateInstances [id]), tr ++ [issue (TerminateInstances [id])])).
Proof.
  intros id. unfold terminate, canTerminate.
  unfold ec2.InstanceStateNameTerminated, ec2.InstanceStateNameShuttingDown.
  split.
  - intros [-> | ->]; reflexivity.
  - intros [H1 H2]. apply String.eqb_neq in H1, H2. rewrite H1, H2. reflexivity.
Qed.

(** A replacement that is already terminated: an error, and no call. *)
Lemma terminate_spec_witness :
  instance.StateName scenario.goneSpot = "terminated" /\
  run_from (scenario.answers None scenario.registry None None) []
           (terminate scenario.goneSpot)
  = (Some "can't terminate i-spot", []).
Proof.
  split; [reflexivity|].
  apply (proj1 (terminate_spec scenario.goneSpot
                  (scenario.answers None scenario.registry None None) [])).
  left. reflexivity.
Defined.

(** A running one: the call, once, and its answer. *)
Example terminate_running :
  run (scenario.answers None scenario.registry None None) (terminate scenario.spot)
  = (None, [issue (TerminateInstances ["i-spot"])]).
Proof. reflexivity. Qed.

Lemma probes_step asg g ev : forallb isProbe ev = true -> cloud.after asg g ev = g.
Proof.
  revert g. induction ev as [|c ev IH]; intros g H; simpl in *; [reflexivity|].
  apply andb_prop in H as [Hc Hev]. unfold cloud.after in *. simpl.
  assert (E : cloud.step asg g c = g).
  { destruct c as [X e]. destruct e; simpl in *; try discriminate; reflexivity. }
  rewrite E. now apply IH.
Qed.

Lemma probes_not_suspend ev : forallb isProbe ev = true -> existsb isSuspend ev = false.
Proof.
  induction ev as [|c ev IH]; simpl; [reflexivity|]. intros [Hc Hev]%andb_prop.
  rewrite (IH Hev), orb_false_r.
  destruct c as [X e]; destruct e; first [reflexivity | discriminate].
Qed.

Lemma In_suspend n tr : In (issue (suspendProcesses n)) tr -> existsb isSuspend tr = true.
Proof. intros H. apply existsb_exists. eexists. split; [exact H|reflexivity]. Qed.

Lemma belongsToEnabledASG_loop_probes o i name asgs : forall tr,
  exists ev, snd (run_from o tr (belongsToEnabledASG_loop i name asgs)) = tr ++ ev /\
             forallb isProbe ev = true.
Proof.
  induction asgs as [|a asgs IH]; intros tr; simpl.
  - exists []. now rewrite app_nil_r.
  - destruct name as [n|]; unfold exec_bind; simpl.
    + destruct (String.eqb (autoScalingGroup.name a) n).
      * simpl. eexists. rewrite <- !app_assoc. simpl. split; [reflexivity|reflexivity].
      * apply IH.
    + exists []. now rewrite app_nil_r.
Qed.

(** [shouldBeReplacedWithSpot] only reads and loads. *)
Lemma shouldBeReplacedWithSpot_probes o i tr :
  exists ev, snd (run_from o tr (shouldBeReplacedWithSpot i)) = tr ++ ev /\
             forallb isProbe ev = true.
Proof.
  unfold shouldBeReplacedWithSpot, exec_bind.
  rewrite run_from_bind.
  assert (P : snd (run_from o tr (lift (isProtectedFromTermination i))) =
              tr ++ [issue (DescribeInstanceAttribute (instance.InstanceId i)
                                                      "disableApiTermination")]).
  { unfold lift, isProtectedFromTermination. simpl.
    destruct (o _ tr _) as [[d|] [e|]]; simpl; try reflexivity;
    destruct (ec2.DescribeInstanceAttributeOutput.DisableApiTermination d) as [v|];
      simpl; try reflexivity;
    destruct (ec2.AttributeBooleanValue.Value v) as [[|]|]; reflexivity. }
  rewrite P.
  destruct (fst (run_from o tr (lift (isProtectedFromTermination i)))) as [prot|].
  2:{ simpl. eexists. split; reflexivity. }
  rewrite run_from_bind.
  set (tr1 := tr ++ [_]).
  assert (B : exists ev, snd (run_from o tr1 (belongsToEnabledASG i)) = tr1 ++ ev /\
                         forallb isProbe ev = true).
  { unfold belongsToEnabledASG. destruct (belongsToAnASG i) as [b name]. destruct b; simpl.
    - apply belongsToEnabledASG_loop_probes.
    - exists []. now rewrite app_nil_r. }
  destruct B as (ev & -> & Hev).
  destruct (fst (run_from o tr1 (belongsToEnabledASG i))) as [[b i']|].
  2:{ simpl.
      exists ([issue (DescribeInstanceAttribute (instance.InstanceId i)
                        "disableApiTermination")] ++ ev).
      unfold tr1. rewrite <- app_assoc. split; [reflexivity|]. simpl. exact Hev. }
  simpl. destruct b; simpl.
  - unfold asgNeedsReplacement, exec_bind. simpl.
    destruct (instance.asg i') as [a|]; simpl.
    + eexists. unfold tr1. rewrite <- !app_assoc. split; [reflexivity|].
      simpl. rewrite forallb_app, Hev. reflexivity.
    + eexists. unfold tr1. rewrite <- !app_assoc. split; [reflexivity|]. simpl. exact Hev.
  - eexists. unfold tr1. rewrite <- !app_assoc. split; [reflexivity|]. simpl. exact Hev.
Qed.

Section Swap.

Local Opaque shouldBeReplacedWithSpot.

(** C3.  In every environment, a swap that reached the suspension of the
    group's processes ends, on each of its exit paths, with the calls of
    its two [defer]s: [setAutoScalingMaxSize] with the original maximum
    size when the desired capacity equalled it (the case in which the
    maximum was raised), then [resumeProcesses].  In terms of the group: if
    the handle's maximum size is the group's, the group is left resumed and
    with the maximum size it had. *)
Theorem swap_releases_group (o : oracle) (i : instance.t) (asg : autoScalingGroup.t)
    (g : cloud.group) :
  let n := autoScalingGroup.name asg in
  let tr := snd (run o (swapWithGroupMember i asg)) in
  In (issue (suspendProcesses n)) tr ->
  (exists before held, tr = before ++ [issue (suspendProcesses n)] ++ held ++ release asg) /\
  (cloud.maxSize g = autoScalingGroup.MaxSize asg ->
   cloud.after n g tr = {| cloud.suspended := false; cloud.maxSize := cloud.maxSize g |}).
Proof.
  intros n tr Hin. apply In_suspend in Hin. revert Hin. subst tr.
  unfold run, swapWithGroupMember, call_fn.
  destruct (getReplacementTargetInstanceID i) as [od|]; [|intros [=]].
  unfold fn_bind, fn_exec, lift, trigger, fn_ret, exec_ret. simpl.
  destruct (o _ [] (scanInstance od)) as [[err|] reg]; simpl; [intros [=]|].
  destruct (instanceManager_get od reg) as [odInstance|]; simpl; [|intros [=]].
  rewrite !run_from_bind.
  destruct (shouldBeReplacedWithSpot_probes o odInstance [issue (scanInstance od)])
    as (ev & Hev & Hp).
  rewrite Hev.
  destruct (fst (run_from o [issue (scanInstance od)] (shouldBeReplacedWithSpot odInstance)))
    as [[should odInstance']|]; simpl.
  2:{ rewrite (probes_not_suspend _ Hp). intros [=]. }
  destruct should; simpl.
  2:{ unfold terminate. destruct (canTerminate i); simpl;
      rewrite ?existsb_app, (probes_not_suspend _ Hp); intros [=]. }
  intros _.
  assert (Hg : forall tl,
            cloud.after n (cloud.step n g (issue (scanInstance od))) (ev ++ tl) =
            cloud.after n g tl).
  { intros tl. unfold cloud.after. simpl. rewrite foldl_app.
    f_equal. exact (probes_step n g ev Hp). }
  unfold release, defer, terminate. fold n.
  destruct (autoScalingGroup.DesiredCapacity asg =? autoScalingGroup.MaxSize asg)%Z; simpl;
    repeat match goal with
           | |- context [o ?X ?t ?e] => destruct (o X t e); simpl
           | |- context [canTerminate i] => destruct (canTerminate i); simpl
           end.
  all: rewrite <- ?app_assoc; simpl.
  all: split;
    [ exists (issue (scanInstance od) :: ev); simpl;
      first [ exists []; reflexivity
            | eexists [_]; reflexivity
            | eexists [_; _]; reflexivity
            | eexists [_; _; _]; reflexivity
            | eexists [_; _; _; _]; reflexivity ]
    | intros Hmax; rewrite Hg; unfold cloud.after; simpl ].
  all: cbv [cloud.step issue projT2]; rewrite !String.eqb_refl; simpl; rewrite ?Hmax;
       reflexivity.
Qed.

(** C5, as the code has it.  When the target named by the tag cannot be
    described, or is described and is not in the registry, the swap
    returns an error and has issued one call, the scan: the spot
    replacement is not terminated. *)
Theorem swap_target_unavailable (o : oracle) (i : instance.t) (asg : autoScalingGroup.t)
    (odInstanceID : string) :
  getReplacementTargetInstanceID i = Some odInstanceID ->
  let scan := o _ [] (scanInstance odInstanceID) in
  (fst scan <> None ->
     run o (swapWithGroupMember i asg) =
       (Ok (None, Some (String.append "target instance "
                          (String.append odInstanceID " couldn't be described"))),
        [issue (scanInstance odInstanceID)])) /\
  (fst scan = None -> get odInstanceID (snd scan) = None ->
     run o (swapWithGroupMember i asg) =
       (Ok (None, Some (String.append "target instance "
                          (String.append odInstanceID " is missing"))),
        [issue (scanInstance odInstanceID)])).
Proof.
  intros Hod scan. subst scan. unfold run, swapWithGroupMember, call_fn. rewrite Hod.
  unfold fn_bind, fn_exec, lift, trigger, fn_ret, exec_ret. simpl.
  destruct (o _ [] (scanInstance odInstanceID)) as [[err|] reg]; simpl.
  - split; [reflexivity|]. intros [=].
  - split; [intros H; now contradiction H|].
    intros _ Hget. unfold instanceManager_get in *. now rewrite Hget.
Qed.

End Swap.

(** Scenario 6: attach fails for a group whose desired capacity is at its
    maximum size of 2; the maximum is back at 2 and the processes are
    resumed. *)
Lemma swap_releases_group_witness :
  In (issue (suspendProcesses "web"))
     (snd (run (scenario.answers None scenario.registry (Some "ValidationError") None)
               (swapWithGroupMember scenario.spot scenario.web))) /\
  cloud.after "web" {| cloud.suspended := false; cloud.maxSize := 2 |}
    (snd (run (scenario.answers None scenario.registry (Some "ValidationError") None)
              (swapWithGroupMember scenario.spot scenario.web)))
  = {| cloud.suspended := false; cloud.maxSize := 2 |}.
Proof.
  assert (H : In (issue (suspendProcesses (autoScalingGroup.name scenario.web)))
     (snd (run (scenario.answers None scenario.registry (Some "ValidationError") None)
               (swapWithGroupMember scenario.spot scenario.web)))).
  { vm_compute. repeat (first [left; reflexivity | right]). }
  split; [exact H|].
  apply (proj2 (swap_releases_group
                  (scenario.answers None scenario.registry (Some "ValidationError") None)
                  scenario.spot scenario.web
                  {| cloud.suspended := false; cloud.maxSize := 2 |} H)).
  reflexivity.
Defined.

(** Scenarios 5 and 6, call by call. *)
Example swap_happy_path :
  map isSuspend
    (snd (run (scenario.answers None scenario.registry None None)
              (swapWithGroupMember scenario.spot scenario.web)))
  = [false; false; false; false; false; false; false; false; true;
     false; false; false; false; false] /\
  drop 8 (snd (run (scenario.answers None scenario.registry None None)
                   (swapWithGroupMember scenario.spot scenario.web)))
  = [ issue (suspendProcesses "web");
      issue (setAutoScalingMaxSize "web" 3);
      issue (attachSpotInstance "web" "i-spot" true);
      issue (terminateInstanceInAutoScalingGroup "web" "i-abc" true true);
      issue (setAutoScalingMaxSize "web" 2);
      issue (resumeProcesses "web") ].
Proof. split; vm_compute; reflexivity. Qed.

Example swap_attach_fails :
  fst (run (scenario.answers None scenario.registry (Some "ValidationError") None)
           (swapWithGroupMember scenario.spot scenario.web))
  = Ok (None, Some "couldn't attach spot instance i-spot ") /\
  drop 8 (snd (run (scenario.answers None scenario.registry (Some "ValidationError") None)
                   (swapWithGroupMember scenario.spot scenario.web)))
  = [ issue (suspendProcesses "web");
      issue (setAutoScalingMaxSize "web" 3);
      issue (attachSpotInstance "web" "i-spot" true);
      issue (TerminateInstances ["i-spot"]);
      issue (setAutoScalingMaxSize "web" 2);
      issue (resumeProcesses "web") ].
Proof. split; vm_compute; reflexivity. Qed.

(** The target is described and is not in the registry. *)
Lemma swap_target_unavailable_witness :
  getReplacementTargetInstanceID scenario.spot = Some "i-abc" /\
  run (scenario.answers None makeInstances None None)
      (swapWithGroupMember scenario.spot scenario.web) =
    (Ok (None, Some "target instance i-abc is missing"), [issue (scanInstance "i-abc")]).
Proof.
  split; [reflexivity|].
  apply (proj2 (swap_target_unavailable (scenario.answers None makeInstances None None)
                  scenario.spot scenario.web "i-abc" eq_refl)); reflexivity.
Defined.

(** C5 as stated fails: the scan of the target fails, the swap returns its
    error, and no [TerminateInstances] was issued for the replacement. *)
Lemma swap_describe_failure_keeps_spot :
  fst (scenario.answers (Some "RequestLimitExceeded") scenario.registry None None _ []
         (scanInstance "i-abc"))
    = Some "RequestLimitExceeded" /\
  run (scenario.answers (Some "RequestLimitExceeded") scenario.registry None None)
      (swapWithGroupMember scenario.spot scenario.web) =
    (Ok (None, Some "target instance i-abc couldn't be described"),
     [issue (scanInstance "i-abc")]) /\
  existsb isTerminateInstances
    (snd (run (scenario.answers (Some "RequestLimitExceeded") scenario.registry None None)
              (swapWithGroupMember scenario.spot scenario.web))) = false.
Proof. repeat split. Qed.

(* ===================================================================== *)
(** * Part III: further properties of the code *)
(* ===================================================================== *)

(** ** The instance registry, further *)

(** X1.  After [add] of an instance, [get] of that instance's id gives the
    instance, whatever the registry held under the id before, and [get] of
    every other id answers as it did before. *)
Theorem registry_get_after_add (inst : instance.t) (im : instanceManager.t) (id : string) :
  get id (add (Some inst) im) =
    if String.eqb id (instance.InstanceId inst) then Some inst else get id im.
Proof.
  simpl. unfold instanceManager_get, instanceManager_add. simpl.
  destruct (String.eqb_spec id (instance.InstanceId inst)) as [->|H].
  - apply lookup_insert_eq.
  - apply lookup_insert_ne. congruence.
Qed.

(** X2.  [add] of an instance raises [count] by one when the registry held
    no instance under its id, and leaves [count] as it was when it replaced
    the instance held under that id. *)
Theorem registry_count_after_add (inst : instance.t) (im : instanceManager.t) :
  count (add (Some inst) im) =
    match get (instance.InstanceId inst) im with
    | Some _ => count im
    | None => (count im + 1)%Z
    end.
Proof.
  simpl. unfold instanceManager_count, instanceManager_get, instanceManager_add. simpl.
  rewrite map_size_insert.
  destruct (instanceManager.catalog im !! instance.InstanceId inst); simpl; lia.
Qed.

(** ** The filter, further *)

Section FilterMembership.
Variable filepath_Match : string -> string -> bool.
Variables (i : instance.t) (allowedList disallowedList : list string) (vols : Z).

Local Abbreviation catalog := (region.instanceTypeInformation (instance.region i)).
Local Abbreviation entry k := (default instanceTypeInformation.zero (catalog !! k)).
Local Abbreviation compatible T :=
  (isCompatible filepath_Match i allowedList disallowedList vols T (calculatePrice i T)).

Lemma isCompatible_true T p :
  isCompatible filepath_Match i allowedList disallowedList vols T p = true <->
  isAllowed filepath_Match i (instanceTypeInformation.instanceType T)
    allowedList disallowedList = true /\
  isPriceCompatible i p = true /\
  isEBSCompatible i T = true /\
  isClassCompatible i T = true /\
  isStorageCompatible i T vols = true /\
  isVirtualizationCompatible i (instanceTypeInformation.virtualizationTypes T) = true.
Proof. unfold isCompatible. rewrite !andb_true_iff. tauto. Qed.

Lemma acceptCandidate_In keys : forall acc a,
  In a (foldl (acceptCandidate filepath_Match i allowedList disallowedList vols) acc keys) <->
  In a acc \/
  exists k, In k keys /\ compatible (entry k) = true /\
            a = {| acceptableInstance.instanceTI := entry k;
                   acceptableInstance.price := calculatePrice i (entry k) |}.
Proof.
  induction keys as [|k keys IH]; intros acc a; simpl.
  - split; [auto|]. intros [H|(k & [] & _)]. exact H.
  - rewrite IH. unfold acceptCandidate.
    destruct (isCompatible _ _ _ _ _ _ _) eqn:E.
    + rewrite in_app_iff. simpl. split.
      * intros [[H|[<-|[]]]|(k' & Hk & Hc & ->)]; eauto 7.
      * intros [H|(k' & [<-|Hk] & Hc & ->)]; eauto 7.
    + split.
      * intros [H|(k' & Hk & Hc & ->)]; eauto 7.
      * intros [H|(k' & [<-|Hk] & Hc & ->)]; eauto 7. congruence.
Qed.

Lemma catalogKeys_In k : In k (catalogKeys i) <-> is_Some (catalog !! k).
Proof.
  unfold catalogKeys, sort_Strings.
  split.
  - intros H. eapply Permutation_in in H; [|symmetry; apply sort_by_Permutation].
    apply in_map_iff in H as ([k' T] & <- & H). simpl.
    apply list_elem_of_In, elem_of_map_to_list in H. eauto.
  - intros [T H]. eapply Permutation_in; [apply sort_by_Permutation|].
    apply in_map_iff. exists (k, T). split; [reflexivity|].
    apply list_elem_of_In, elem_of_map_to_list. exact H.
Qed.

Lemma acceptableInstanceTypes_In T :
  In T (map acceptableInstance.instanceTI
          (acceptableInstanceTypes filepath_Match i allowedList disallowedList vols
             (catalogKeys i))) <->
  exists k, catalog !! k = Some T /\ compatible T = true.
Proof.
  unfold acceptableInstanceTypes. rewrite in_map_iff. split.
  - intros (a & <- & Ha). apply acceptCandidate_In in Ha as [[]|(k & Hk & Hc & ->)].
    simpl. apply catalogKeys_In in Hk as [T' HT]. exists k. rewrite HT in *. simpl in *. auto.
  - intros (k & Hk & Hc).
    exists {| acceptableInstance.instanceTI := T; acceptableInstance.price := calculatePrice i T |}.
    split; [reflexivity|]. apply acceptCandidate_In. right. exists k.
    rewrite Hk. simpl. split; [|auto]. apply catalogKeys_In. eauto.
Qed.

End FilterMembership.

Section RankerMore.
Variable filepath_Match : string -> string -> bool.
Variable sort_Slice :
  (acceptableInstance.t -> acceptableInstance.t -> bool) ->
  list acceptableInstance.t -> list acceptableInstance.t.
Variable countLaunchConfigEphemeralVolumes : option launchConfiguration.t -> Z.
Variable countLaunchTemplateEphemeralVolumes : option launchTemplate.t -> Z.
Hypothesis sort_Slice_ok : sort_Slice_contract sort_Slice.

Local Abbreviation getCompatible :=
  (getCompatibleSpotInstanceTypesListSortedAscendingByPrice
     filepath_Match sort_Slice countLaunchConfigEphemeralVolumes
     countLaunchTemplateEphemeralVolumes).
Local Abbreviation volumes :=
  (attachedVolumesNumber countLaunchConfigEphemeralVolumes
     countLaunchTemplateEphemeralVolumes).
Local Abbreviation candidates i al dl a :=
  (acceptableInstanceTypes filepath_Match i al dl (volumes i a) (catalogKeys i)).
Local Abbreviation catalog i := (region.instanceTypeInformation (instance.region i)).
Local Abbreviation compatibleWith i al dl a T :=
  (isCompatible filepath_Match i al dl (volumes i a) T (calculatePrice i T)).

(** Sorting the accepted candidates keeps them. *)
Lemma sorted_candidates_In i al dl a T :
  In T (map acceptableInstance.instanceTI (sort_Slice lessByPrice (candidates i al dl a))) <->
  exists k, catalog i !! k = Some T /\ compatibleWith i al dl a T = true.
Proof.
  rewrite <- acceptableInstanceTypes_In.
  destruct (sort_Slice_ok lessByPrice (candidates i al dl a)) as [Hperm _].
  { eapply lessByPrice_ordering. apply acceptableInstanceTypes_accepted. }
  split; intros HT; (eapply Permutation_in; [|exact HT]); apply Permutation_map;
    [symmetry|]; exact Hperm.
Qed.

(** X3.  Whatever [sort.Slice] does within its contract: for a source with
    a group, the types the function returns are the entries of the region's
    catalog that pass the six tests of the loop (allowed, price, EBS, class,
    storage, virtualization) at their effective price; no such entry is left
    out and nothing else is returned. *)
Theorem returned_types_are_the_compatible_ones i al dl a l err T :
  instance.asg i = Some a ->
  getCompatibleSpotInstanceTypesListSortedAscendingByPrice filepath_Match sort_Slice
    countLaunchConfigEphemeralVolumes countLaunchTemplateEphemeralVolumes i al dl
    = Ok (l, err) ->
  (In T l <->
   exists k, catalog i !! k = Some T /\ compatibleWith i al dl a T = true).
Proof.
  intros Ha H.
  apply getCompatible_inv in H as (a' & acc & Ha' & Hacc & H).
  rewrite Ha in Ha'. injection Ha' as <-.
  destruct H as [(E & -> & _)|(_ & -> & _)].
  - rewrite <- acceptableInstanceTypes_In, <- Hacc, E. reflexivity.
  - rewrite Hacc. apply sorted_candidates_In.
Qed.

(** X4.  The outcomes of the function.  It panics exactly when the instance
    has no group ([i.asg] is nil).  When it returns, it returns either the
    error "no cheaper spot instance types could be found" with an empty
    list, and then no entry of the catalog passes the tests, or no error and
    a list that is not empty. *)
Theorem getCompatible_outcomes i al dl :
  (getCompatibleSpotInstanceTypesListSortedAscendingByPrice filepath_Match sort_Slice
     countLaunchConfigEphemeralVolumes countLaunchTemplateEphemeralVolumes i al dl = Panic
   <-> instance.asg i = None) /\
  (forall l err,
     getCompatibleSpotInstanceTypesListSortedAscendingByPrice filepath_Match sort_Slice
       countLaunchConfigEphemeralVolumes countLaunchTemplateEphemeralVolumes i al dl
       = Ok (l, err) ->
     (err = Some "no cheaper spot instance types could be found" /\ l = [] /\
      forall a k T, instance.asg i = Some a -> catalog i !! k = Some T ->
        compatibleWith i al dl a T = false) \/
     (err = None /\ l <> [])).
Proof.
  split.
  - unfold getCompatibleSpotInstanceTypesListSortedAscendingByPrice.
    destruct (instance.asg i) as [a|]; simpl.
    + split; [|discriminate]. destruct (acceptableInstanceTypes _ _ _ _ _ _); discriminate.
    + split; reflexivity.
  - intros l err H.
    apply getCompatible_inv in H as (a & acc & Ha & Hacc & [(E & -> & ->)|(Hne & -> & ->)]).
    + left. split; [reflexivity|]. split; [reflexivity|].
      intros a' k T Ha' Hk. rewrite Ha in Ha'. injection Ha' as <-.
      destruct (isCompatible _ _ _ _ _ _ _) eqn:Hc; [|reflexivity]. exfalso.
      assert (HT : In T (map acceptableInstance.instanceTI acc)).
      { rewrite Hacc. apply acceptableInstanceTypes_In. eauto. }
      rewrite E in HT. destruct HT.
    + right. split; [reflexivity|]. intros Hnil. apply Hne.
      destruct (sort_Slice_ok lessByPrice acc) as [Hperm _].
      { rewrite Hacc. eapply lessByPrice_ordering. apply acceptableInstanceTypes_accepted. }
      apply map_eq_nil in Hnil. rewrite Hnil in Hperm.
      now apply Permutation_nil_r in Hperm.
Qed.

Lemma getCompatible_In i al dl a l err T :
  instance.asg i = Some a ->
  getCompatible i al dl = Ok (l, err) ->
  In T l -> exists k, catalog i !! k = Some T /\ compatibleWith i al dl a T = true.
Proof.
  intros Ha H.
  apply getCompatible_inv in H as (a' & acc & Ha' & Hacc & H).
  rewrite Ha in Ha'. injection Ha' as <-.
  destruct H as [(E & -> & _)|(_ & -> & _)]; [intros []|].
  rewrite Hacc. apply sorted_candidates_In.
Qed.

Lemma getCompatible_In_rev i al dl a l err T k :
  instance.asg i = Some a ->
  getCompatible i al dl = Ok (l, err) ->
  catalog i !! k = Some T -> compatibleWith i al dl a T = true -> In T l.
Proof.
  intros Ha H Hk Hc.
  apply getCompatible_inv in H as (a' & acc & Ha' & Hacc & H).
  rewrite Ha in Ha'. injection Ha' as <-.
  assert (HT : In T (map acceptableInstance.instanceTI acc)).
  { rewrite Hacc. apply acceptableInstanceTypes_In. eauto. }
  destruct H as [(E & -> & _)|(_ & -> & _)]; [now rewrite E in HT|].
  rewrite Hacc. apply sorted_candidates_In. eauto.
Qed.

(** X5.  A type that has no spot price for the source's availability zone
    is never returned for a source that is not EBS optimized: reading the
    missing zone gives the price 0, which the price test rejects.  (For an
    EBS-optimized source the surcharge is added before the test.) *)
Theorem unavailable_in_zone_is_rejected i al dl l err T :
  getCompatible i al dl = Ok (l, err) ->
  ec2.Instance.EbsOptimized (instance.Instance i) <> Some true ->
  prices.spot (instanceTypeInformation.pricing T) !! instance.AvailabilityZone i = None ->
  ~ In T l.
Proof.
  intros H Hebs Hzone HT.
  destruct (instance.asg i) as [a|] eqn:Ha.
  2:{ unfold getCompatibleSpotInstanceTypesListSortedAscendingByPrice in H.
      rewrite Ha in H. discriminate H. }
  destruct (getCompatible_In i al dl a l err T Ha H HT) as (k & _ & Hc).
  apply isCompatible_true in Hc as (_ & Hprice & _).
  apply isPriceCompatible_bounds in Hprice as [Hz _].
  unfold calculatePrice in Hz. rewrite Hzone in Hz. simpl in Hz.
  destruct (ec2.Instance.EbsOptimized (instance.Instance i)) as [[|]|];
    [now apply Hebs|discriminate Hz|discriminate Hz].
Qed.

(** X6.  Raising the price of the source keeps its candidates: a type
    returned for a source is returned as well for the same source with a
    higher [price], the field that [launchSpotReplacement] and
    [belongsToEnabledASG] set from the on-demand price and the multipliers. *)
Theorem higher_price_keeps_candidates i al dl p l l' err err' T :
  (instance.price i <=? p)%float = true ->
  getCompatible i al dl = Ok (l, err) ->
  getCompatible (instance.set_price p i) al dl = Ok (l', err') ->
  In T l -> In T l'.
Proof.
  intros Hp H H' HT.
  destruct (instance.asg i) as [a|] eqn:Ha.
  2:{ unfold getCompatibleSpotInstanceTypesListSortedAscendingByPrice in H.
      rewrite Ha in H. discriminate H. }
  destruct (getCompatible_In i al dl a l err T Ha H HT) as (k & Hk & Hc).
  apply (getCompatible_In_rev (instance.set_price p i) al dl a l' err' T k);
    [exact Ha|exact H'|exact Hk|].
  apply isCompatible_true in Hc as (Hal & Hprice & Hebs & Hclass & Hstore & Hvirt).
  apply isCompatible_true. repeat split; try assumption.
  apply isPriceCompatible_bounds in Hprice as [Hz Hle].
  unfold isPriceCompatible. simpl.
  change (calculatePrice (instance.set_price p i) T) with (calculatePrice i T).
  rewrite Hz. now rewrite (leb_trans _ _ _ Hle Hp).
Qed.

End RankerMore.

Section FilterMore.
Variable filepath_Match : string -> string -> bool.
Variable sort_Slice :
  (acceptableInstance.t -> acceptableInstance.t -> bool) ->
  list acceptableInstance.t -> list acceptableInstance.t.
Variable countLaunchConfigEphemeralVolumes : option launchConfiguration.t -> Z.
Variable countLaunchTemplateEphemeralVolumes : option launchTemplate.t -> Z.

Local Abbreviation getCompatible :=
  (getCompatibleSpotInstanceTypesListSortedAscendingByPrice
     filepath_Match sort_Slice countLaunchConfigEphemeralVolumes
     countLaunchTemplateEphemeralVolumes).
Local Abbreviation volumes :=
  (attachedVolumesNumber countLaunchConfigEphemeralVolumes
     countLaunchTemplateEphemeralVolumes).
Local Abbreviation catalog i := (region.instanceTypeInformation (instance.region i)).

Lemma foldl_agree {A B : Type} (f g : A -> B -> A) (l : list B) :
  (forall a b, In b l -> f a b = g a b) -> forall a, foldl f a l = foldl g a l.
Proof.
  induction l as [|b l IH]; intros H a; simpl; [reflexivity|].
  rewrite (H a b) by now left. apply IH. intros; apply H; now right.
Qed.

(** X7.  A list of allowed types that is not empty makes the list of
    disallowed types irrelevant: the function returns the same for every
    list of disallowed types. *)
Theorem allowed_list_overrides_disallowed i al dl dl' :
  al <> [] ->
  getCompatibleSpotInstanceTypesListSortedAscendingByPrice filepath_Match sort_Slice
    countLaunchConfigEphemeralVolumes countLaunchTemplateEphemeralVolumes i al dl
  = getCompatibleSpotInstanceTypesListSortedAscendingByPrice filepath_Match sort_Slice
      countLaunchConfigEphemeralVolumes countLaunchTemplateEphemeralVolumes i al dl'.
Proof.
  intros Hal. unfold getCompatibleSpotInstanceTypesListSortedAscendingByPrice.
  destruct (instance.asg i) as [a|]; simpl; [|reflexivity].
  assert (E : forall vols keys,
            acceptableInstanceTypes filepath_Match i al dl vols keys =
            acceptableInstanceTypes filepath_Match i al dl' vols keys).
  { intros vols keys. unfold acceptableInstanceTypes. apply foldl_agree.
    intros acc k _. unfold acceptCandidate, isCompatible, isAllowed.
    destruct al as [|x al]; [contradiction|]. reflexivity. }
  now rewrite E.
Qed.

(** X8.  A source whose processor name contains none of "Intel",
    "Variable", "AMD" and "AWS" has no candidate: the architecture test
    fails against every type of the catalog, and the function returns its
    error and no type. *)
Theorem unrecognised_processor_has_no_candidates i al dl a :
  instance.asg i = Some a ->
  isIntelCompatible (instanceTypeInformation.PhysicalProcessor (instance.typeInfo i)) = false ->
  isARM (instanceTypeInformation.PhysicalProcessor (instance.typeInfo i)) = false ->
  getCompatible i al dl = Ok ([], Some "no cheaper spot instance types could be found").
Proof.
  intros Ha Hx86 Harm. unfold getCompatibleSpotInstanceTypesListSortedAscendingByPrice.
  rewrite Ha. simpl.
  assert (E : forall vols keys, acceptableInstanceTypes filepath_Match i al dl vols keys = []).
  { intros vols keys. unfold acceptableInstanceTypes.
    induction keys as [|k keys IH]; simpl; [reflexivity|].
    unfold acceptCandidate at 2. unfold isCompatible, isClassCompatible, isSameArch.
    rewrite Hx86, Harm. simpl. rewrite !andb_false_r. simpl. exact IH. }
  now rewrite E.
Qed.

(** X9.  The number of instance-store volumes asked of a candidate
    ([min] of the mappings used, itself the [max] of the two counts, and the
    source type's device count) is at most the source type's own device
    count, so the source's own type passes the storage test, provided its
    device size is a number. *)
Theorem own_type_is_storage_compatible i a :
  is_nan (instanceTypeInformation.instanceStoreDeviceSize (instance.typeInfo i)) = false ->
  (volumes i a <= instanceTypeInformation.instanceStoreDeviceCount (instance.typeInfo i))%Z /\
  isStorageCompatible i (instance.typeInfo i) (volumes i a) = true.
Proof.
  intros Hsize.
  assert (Hle : (volumes i a
                 <= instanceTypeInformation.instanceStoreDeviceCount (instance.typeInfo i))%Z).
  { unfold attachedVolumesNumber, min. destruct (Z.ltb_spec
      (max (countLaunchConfigEphemeralVolumes (autoScalingGroup.launchConfiguration a))
           (countLaunchTemplateEphemeralVolumes (autoScalingGroup.launchTemplate a)))
      (instanceTypeInformation.instanceStoreDeviceCount (instance.typeInfo i))); lia. }
  split; [exact Hle|]. unfold isStorageCompatible.
  rewrite (leb_refl _ Hsize), eqb_reflx, orb_true_r, andb_true_r.
  apply Z.geb_le in Hle. rewrite Hle. now rewrite orb_true_r.
Qed.

End FilterMore.

(** ** The volume-type rewrite, further *)

(** X10.  On a block whose volume type is present the three variants of
    the rewrite agree: for the same volume type and size (and the same other
    fields) and the same group, the launch-template variant and the image
    variant return what the launch-configuration variant returns, a panic
    included. *)
Theorem volume_type_variants_agree (a : autoScalingGroup.t)
    (d e : option bool) (io : option Z) (sn : option string) (size : option Z) (vt : string) :
  let lc := {| autoscaling.Ebs.DeleteOnTermination := d; autoscaling.Ebs.Encrypted := e;
               autoscaling.Ebs.Iops := io; autoscaling.Ebs.SnapshotId := sn;
               autoscaling.Ebs.VolumeSize := size; autoscaling.Ebs.VolumeType := Some vt |} in
  let lt := {| ec2.LaunchTemplateEbsBlockDevice.DeleteOnTermination := d;
               ec2.LaunchTemplateEbsBlockDevice.Encrypted := e;
               ec2.LaunchTemplateEbsBlockDevice.Iops := io;
               ec2.LaunchTemplateEbsBlockDevice.SnapshotId := sn;
               ec2.LaunchTemplateEbsBlockDevice.VolumeSize := size;
               ec2.LaunchTemplateEbsBlockDevice.VolumeType := Some vt |} in
  let image := {| ec2.EbsBlockDevice.DeleteOnTermination := d; ec2.EbsBlockDevice.Encrypted := e;
                  ec2.EbsBlockDevice.Iops := io; ec2.EbsBlockDevice.SnapshotId := sn;
                  ec2.EbsBlockDevice.VolumeSize := size;
                  ec2.EbsBlockDevice.VolumeType := Some vt |} in
  convertLaunchTemplateEBSVolumeType lt a = convertLaunchConfigurationEBSVolumeType lc a /\
  convertImageEBSVolumeType image a = convertLaunchConfigurationEBSVolumeType lc a.
Proof.
  intros lc lt image. subst lc lt image.
  unfold convertLaunchConfigurationEBSVolumeType, convertLaunchTemplateEBSVolumeType,
    convertImageEBSVolumeType. simpl. split; reflexivity.
Qed.

(** X11.  When the rewrite panics.  The launch-configuration variant panics
    exactly on a gp2 block that has no volume size (the size is
    dereferenced for the comparison with the threshold); the launch-template
    variant and the image variant panic on such a block and on a block that
    has no volume type. *)
Theorem volume_type_rewrite_panics (a : autoScalingGroup.t) :
  (forall ebs,
     convertLaunchConfigurationEBSVolumeType ebs a = Panic <->
     autoscaling.Ebs.VolumeType ebs = Some "gp2" /\ autoscaling.Ebs.VolumeSize ebs = None) /\
  (forall ebs,
     convertLaunchTemplateEBSVolumeType ebs a = Panic <->
     ec2.LaunchTemplateEbsBlockDevice.VolumeType ebs = None \/
     (ec2.LaunchTemplateEbsBlockDevice.VolumeType ebs = Some "gp2" /\
      ec2.LaunchTemplateEbsBlockDevice.VolumeSize ebs = None)) /\
  (forall ebs,
     convertImageEBSVolumeType ebs a = Panic <->
     ec2.EbsBlockDevice.VolumeType ebs = None \/
     (ec2.EbsBlockDevice.VolumeType ebs = Some "gp2" /\
      ec2.EbsBlockDevice.VolumeSize ebs = None)).
Proof.
  split; [|split]; intros [d e io sn [size|] [vt|]];
    unfold convertLaunchConfigurationEBSVolumeType, convertLaunchTemplateEBSVolumeType,
      convertImageEBSVolumeType, and_then; simpl.
  all: try (destruct (String.eqb_spec vt "io1") as [->|Hio]; simpl;
            [destruct (supportedIO2region (autoScalingGroup.region a)); simpl|]).
  all: try (destruct (String.eqb_spec vt "gp2") as [->|Hgp]; simpl).
  all: try (destruct (size <=? _)%Z; simpl).
  all: intuition (discriminate || congruence).
Qed.


Lemma supportedIO2region_loop_In region regions :
  supportedIO2region_loop region regions = false <-> In region regions.
Proof.
  induction regions as [|r regions IH]; simpl; [split; [discriminate|tauto]|].
  destruct (String.eqb_spec region r) as [->|H]; [tauto|].
  rewrite IH. split; [auto|]. intros [E|E]; [congruence|exact E].
Qed.

(** X12.  An io1 volume keeps its type exactly in the regions listed in
    [unsupportedIO2Regions] and becomes io2 in every other region, in each
    of the three variants and whatever the block's size and other fields. *)
Theorem io1_rewrite_follows_region (a : autoScalingGroup.t) :
  let r := autoScalingGroup.region a in
  let rewritten := Ok (Some (if supportedIO2region r then "io2" else "io1")) in
  (supportedIO2region r = false <-> In r unsupportedIO2Regions) /\
  (forall ebs,
     convertLaunchConfigurationEBSVolumeType
       (autoscaling.Ebs.set_VolumeType (Some "io1") ebs) a = rewritten) /\
  (forall ebs,
     convertLaunchTemplateEBSVolumeType
       (ec2.LaunchTemplateEbsBlockDevice.set_VolumeType (Some "io1") ebs) a = rewritten) /\
  (forall ebs,
     convertImageEBSVolumeType (ec2.EbsBlockDevice.set_VolumeType (Some "io1") ebs) a
     = rewritten).
Proof.
  intros r rewritten. subst rewritten r. split; [apply supportedIO2region_loop_In|].
  unfold convertLaunchConfigurationEBSVolumeType, convertLaunchTemplateEBSVolumeType,
    convertImageEBSVolumeType, and_then. simpl.
  destruct (supportedIO2region (autoScalingGroup.region a)); simpl; repeat split.
Qed.

(** ** The conversion of block-device mappings *)

Lemma convertMappings_Forall2 {A : Type}
    (convert : A -> result (option ec2.BlockDeviceMapping.t)) (keep : A -> bool)
    (R : A -> ec2.BlockDeviceMapping.t -> Prop) :
  (forall m out, convert m = Ok (Some out) -> keep m = true /\ R m out) ->
  (forall m, convert m = Ok None -> keep m = false) ->
  forall BDMs bds0 bds, convertMappings convert BDMs bds0 = Ok bds ->
    exists outs, bds = bds0 ++ outs /\ Forall2 R (List.filter keep BDMs) outs.
Proof.
  intros Hsome Hnone. induction BDMs as [|m BDMs IH]; intros bds0 bds H; simpl in H.
  - injection H as <-. exists []. rewrite app_nil_r. split; [reflexivity|constructor].
  - destruct (convert m) as [[out|]|] eqn:E; simpl in H; [| |discriminate].
    + destruct (Hsome m out E) as [Hk HR]. apply IH in H as (outs & -> & HF).
      exists (out :: outs). rewrite <- app_assoc. split; [reflexivity|].
      simpl. rewrite Hk. now constructor.
    + simpl. rewrite (Hnone m E). now apply IH.
Qed.

(** X13.  Each of the three conversions of block-device mappings returns,
    in their order, the mappings that are not flagged no-device (the boolean
    true in a launch configuration, the string "true" in a launch template
    and in an image).  A mapping it returns has the device name and the
    virtual name of its source, no [NoDevice] flag, and an EBS block exactly
    when its source has one, with every field but the volume type
    unchanged. *)
Theorem conversion_keeps_the_devices (i : instance.t) :
  (forall BDMs bds,
     convertLaunchConfigurationBlockDeviceMappings i BDMs = Ok bds ->
     Forall2 (fun m out =>
                ec2.BlockDeviceMapping.DeviceName out = autoscaling.BlockDeviceMapping.DeviceName m /\
                ec2.BlockDeviceMapping.VirtualName out = autoscaling.BlockDeviceMapping.VirtualName m /\
                ec2.BlockDeviceMapping.NoDevice out = None /\
                match autoscaling.BlockDeviceMapping.Ebs m, ec2.BlockDeviceMapping.Ebs out with
                | Some e, Some e' =>
                    ec2.EbsBlockDevice.set_VolumeType None e' =
                    {| ec2.EbsBlockDevice.DeleteOnTermination := autoscaling.Ebs.DeleteOnTermination e;
                       ec2.EbsBlockDevice.Encrypted := autoscaling.Ebs.Encrypted e;
                       ec2.EbsBlockDevice.Iops := autoscaling.Ebs.Iops e;
                       ec2.EbsBlockDevice.SnapshotId := autoscaling.Ebs.SnapshotId e;
                       ec2.EbsBlockDevice.VolumeSize := autoscaling.Ebs.VolumeSize e;
                       ec2.EbsBlockDevice.VolumeType := None |}
                | None, None => True
                | _, _ => False
                end)
             (List.filter keptLaunchConfigurationMapping BDMs) bds) /\
  (forall BDMs bds,
     convertLaunchTemplateBlockDeviceMappings i BDMs = Ok bds ->
     Forall2 (fun m out =>
                ec2.BlockDeviceMapping.DeviceName out
                  = ec2.LaunchTemplateBlockDeviceMapping.DeviceName m /\
                ec2.BlockDeviceMapping.VirtualName out
                  = ec2.LaunchTemplateBlockDeviceMapping.VirtualName m /\
                ec2.BlockDeviceMapping.NoDevice out = None /\
                match ec2.LaunchTemplateBlockDeviceMapping.Ebs m, ec2.BlockDeviceMapping.Ebs out with
                | Some e, Some e' =>
                    ec2.EbsBlockDevice.set_VolumeType None e' =
                    {| ec2.EbsBlockDevice.DeleteOnTermination :=
                         ec2.LaunchTemplateEbsBlockDevice.DeleteOnTermination e;
                       ec2.EbsBlockDevice.Encrypted := ec2.LaunchTemplateEbsBlockDevice.Encrypted e;
                       ec2.EbsBlockDevice.Iops := ec2.LaunchTemplateEbsBlockDevice.Iops e;
                       ec2.EbsBlockDevice.SnapshotId := ec2.LaunchTemplateEbsBlockDevice.SnapshotId e;
                       ec2.EbsBlockDevice.VolumeSize := ec2.LaunchTemplateEbsBlockDevice.VolumeSize e;
                       ec2.EbsBlockDevice.VolumeType := None |}
                | None, None => True
                | _, _ => False
                end)
             (List.filter keptLaunchTemplateMapping BDMs) bds) /\
  (forall BDMs bds,
     convertImageBlockDeviceMappings i BDMs = Ok bds ->
     Forall2 (fun m out =>
                ec2.BlockDeviceMapping.DeviceName out = ec2.BlockDeviceMapping.DeviceName m /\
                ec2.BlockDeviceMapping.VirtualName out = ec2.BlockDeviceMapping.VirtualName m /\
                ec2.BlockDeviceMapping.NoDevice out = None /\
                match ec2.BlockDeviceMapping.Ebs m, ec2.BlockDeviceMapping.Ebs out with
                | Some e, Some e' =>
                    ec2.EbsBlockDevice.set_VolumeType None e' =
                    ec2.EbsBlockDevice.set_VolumeType None e
                | None, None => True
                | _, _ => False
                end)
             (List.filter keptImageMapping BDMs) bds).
Proof.
  split; [|split]; intros BDMs bds H.
  - unfold convertLaunchConfigurationBlockDeviceMappings in H.
    eapply convertMappings_Forall2 in H as (outs & -> & HF); [exact HF| |].
    + intros m out. unfold convertLaunchConfigurationBlockDeviceMapping, keptLaunchConfigurationMapping.
      destruct (autoscaling.BlockDeviceMapping.Ebs m) as [e|]; simpl.
      * destruct (instance.asg i) as [a|]; simpl; [|discriminate].
        destruct (convertLaunchConfigurationEBSVolumeType e a) as [vt|]; simpl; [|discriminate].
        destruct (autoscaling.BlockDeviceMapping.NoDevice m) as [[|]|]; intros [=]; subst;
          simpl; auto.
      * destruct (autoscaling.BlockDeviceMapping.NoDevice m) as [[|]|]; intros [=]; subst;
          simpl; auto.
    + intros m. unfold convertLaunchConfigurationBlockDeviceMapping, keptLaunchConfigurationMapping.
      destruct (autoscaling.BlockDeviceMapping.Ebs m) as [e|]; simpl.
      * destruct (instance.asg i) as [a|]; simpl; [|discriminate].
        destruct (convertLaunchConfigurationEBSVolumeType e a) as [vt|]; simpl; [|discriminate].
        destruct (autoscaling.BlockDeviceMapping.NoDevice m) as [[|]|]; intros [=]; reflexivity.
      * destruct (autoscaling.BlockDeviceMapping.NoDevice m) as [[|]|]; intros [=]; reflexivity.
  - unfold convertLaunchTemplateBlockDeviceMappings in H.
    eapply convertMappings_Forall2 in H as (outs & -> & HF); [exact HF| |].
    + intros m out. unfold convertLaunchTemplateBlockDeviceMapping, keptLaunchTemplateMapping.
      destruct (ec2.LaunchTemplateBlockDeviceMapping.Ebs m) as [e|]; simpl.
      * destruct (instance.asg i) as [a|]; simpl; [|discriminate].
        destruct (convertLaunchTemplateEBSVolumeType e a) as [vt|]; simpl; [|discriminate].
        destruct (ec2.LaunchTemplateBlockDeviceMapping.NoDevice m) as [nd|];
          [destruct (String.eqb nd "true")|]; intros [=]; subst; simpl; auto.
      * destruct (ec2.LaunchTemplateBlockDeviceMapping.NoDevice m) as [nd|];
          [destruct (String.eqb nd "true")|]; intros [=]; subst; simpl; auto.
    + intros m. unfold convertLaunchTemplateBlockDeviceMapping, keptLaunchTemplateMapping.
      destruct (ec2.LaunchTemplateBlockDeviceMapping.Ebs m) as [e|]; simpl.
      * destruct (instance.asg i) as [a|]; simpl; [|discriminate].
        destruct (convertLaunchTemplateEBSVolumeType e a) as [vt|]; simpl; [|discriminate].
        destruct (ec2.LaunchTemplateBlockDeviceMapping.NoDevice m) as [nd|];
          [destruct (String.eqb nd "true")|]; intros [=]; reflexivity.
      * destruct (ec2.LaunchTemplateBlockDeviceMapping.NoDevice m) as [nd|];
          [destruct (String.eqb nd "true")|]; intros [=]; reflexivity.
  - unfold convertImageBlockDeviceMappings in H.
    eapply convertMappings_Forall2 in H as (outs & -> & HF); [exact HF| |].
    + intros m out. unfold convertImageBlockDeviceMapping, keptImageMapping.
      destruct (ec2.BlockDeviceMapping.Ebs m) as [e|]; simpl.
      * destruct (instance.asg i) as [a|]; simpl; [|discriminate].
        destruct (convertImageEBSVolumeType e a) as [vt|]; simpl; [|discriminate].
        destruct (ec2.BlockDeviceMapping.NoDevice m) as [nd|];
          [destruct (String.eqb nd "true")|]; intros [=]; subst; simpl; auto.
      * destruct (ec2.BlockDeviceMapping.NoDevice m) as [nd|];
          [destruct (String.eqb nd "true")|]; intros [=]; subst; simpl; auto.
    + intros m. unfold convertImageBlockDeviceMapping, keptImageMapping.
      destruct (ec2.BlockDeviceMapping.Ebs m) as [e|]; simpl.
      * destruct (instance.asg i) as [a|]; simpl; [|discriminate].
        destruct (convertImageEBSVolumeType e a) as [vt|]; simpl; [|discriminate].
        destruct (ec2.BlockDeviceMapping.NoDevice m) as [nd|];
          [destruct (String.eqb nd "true")|]; intros [=]; reflexivity.
      * destruct (ec2.BlockDeviceMapping.NoDevice m) as [nd|];
          [destruct (String.eqb nd "true")|]; intros [=]; reflexivity.
Qed.

(** ** The tags of a spot replacement, further *)

Lemma generateTagsList_eq (i : instance.t) (a : autoScalingGroup.t) :
  instance.asg i = Some a ->
  generateTagsList i =
    Ok [ {| ec2.TagSpecification.ResourceType := Some "instance";
            ec2.TagSpecification.Tags :=
              replacementTags i a ++ List.filter copiedTag (instance.Tags i) |} ].
Proof.
  intros Ha. unfold generateTagsList, replacementTags. rewrite Ha. simpl.
  now rewrite copy_loop.
Qed.

(** The keys of the replacement's own tags. *)
Lemma replacementTags_keys (i : instance.t) (a : autoScalingGroup.t) :
  map ec2.Tag.Key (replacementTags i a) =
    [ "launched-by-autospotting"; "launched-for-asg"; "launched-for-replacing-instance" ] ++
    match autoScalingGroup.LaunchTemplate a, autoScalingGroup.LaunchConfigurationName a with
    | Some _, _ => [ "LaunchTemplateID"; "LaunchTemplateVersion" ]
    | None, Some _ => [ "LaunchConfigurationName" ]
    | None, None => []
    end.
Proof.
  unfold replacementTags. destruct (autoScalingGroup.LaunchTemplate a); [reflexivity|].
  destruct (autoScalingGroup.LaunchConfigurationName a); reflexivity.
Qed.

Lemma copiedTag_key (k : string) (tags : list ec2.Tag.t) :
  copiedTag {| ec2.Tag.Key := k; ec2.Tag.Value := None |} = false ->
  forall t, In t (List.filter copiedTag tags) -> String.eqb (ec2.Tag.Key t) k = false.
Proof.
  intros Hk t Ht. apply filter_In in Ht as [_ Ht].
  destruct (String.eqb_spec (ec2.Tag.Key t) k) as [E|]; [|reflexivity].
  unfold copiedTag in *. simpl in Hk. rewrite E in Ht. congruence.
Qed.

Lemma belongsToAnASG_loop_none tags :
  Forall (fun t => String.eqb (ec2.Tag.Key t) "aws:autoscaling:groupName" = false) tags ->
  belongsToAnASG_loop tags = (false, None).
Proof.
  induction tags as [|t tags IH]; intros H; simpl; [reflexivity|].
  apply Forall_cons in H as [Ht H]. rewrite Ht. now apply IH.
Qed.

(** X14.  The tags [generateTagsList] writes are read back by the file's
    own readers.  For a source with a group, an instance that carries the
    generated tags is launched by AutoSpotting
    ([isLaunchedByAutoSpotting]), its target group is the source's group
    ([getReplacementTargetASGName]), its target instance is the source
    ([getReplacementTargetInstanceID]), and by its tags it belongs to no
    group ([belongsToAnASG]). *)
Theorem replacement_tags_round_trip (i : instance.t) (a : autoScalingGroup.t) :
  instance.asg i = Some a ->
  exists spec,
    generateTagsList i = Ok [spec] /\
    forall j, instance.Tags j = ec2.TagSpecification.Tags spec ->
      isLaunchedByAutoSpotting j = true /\
      getReplacementTargetASGName j = Some (autoScalingGroup.name a) /\
      getReplacementTargetInstanceID j = Some (instance.InstanceId i) /\
      belongsToAnASG j = (false, None).
Proof.
  intros Ha. eexists. split; [exact (generateTagsList_eq i a Ha)|].
  intros j Hj. simpl in Hj.
  unfold isLaunchedByAutoSpotting, getReplacementTargetASGName, getReplacementTargetInstanceID,
    belongsToAnASG. rewrite Hj. clear Hj.
  assert (Hown : exists rest,
            replacementTags i a =
              [ {| ec2.Tag.Key := "launched-by-autospotting"; ec2.Tag.Value := Some "true" |};
                {| ec2.Tag.Key := "launched-for-asg";
                   ec2.Tag.Value := Some (autoScalingGroup.name a) |};
                {| ec2.Tag.Key := "launched-for-replacing-instance";
                   ec2.Tag.Value := Some (instance.InstanceId i) |} ] ++ rest /\
            Forall (fun t => String.eqb (ec2.Tag.Key t) "aws:autoscaling:groupName" = false) rest).
  { unfold replacementTags. destruct (autoScalingGroup.LaunchTemplate a).
    - eexists [_; _]. split; [reflexivity|]. repeat constructor.
    - destruct (autoScalingGroup.LaunchConfigurationName a).
      + eexists [_]. split; [reflexivity|]. repeat constructor.
      + exists []. split; [reflexivity|]. constructor. }
  destruct Hown as (rest & -> & Hrest). simpl.
  repeat split. apply belongsToAnASG_loop_none. apply Forall_app. split; [exact Hrest|].
  apply Forall_forall. intros t Ht. apply list_elem_of_In in Ht.
  revert t Ht. apply copiedTag_key. reflexivity.
Qed.

(** X15.  For a source with a group: no tag of the generated list has a key
    that starts with "aws:"; every tag of the source whose key does not
    start with "aws:" and is none of the six keys the loop excludes is in
    the list; and every tag of the list is one of the replacement's own tags
    or a tag of the source. *)
Theorem replacement_tags_carry_the_user_tags (i : instance.t) (a : autoScalingGroup.t) :
  instance.asg i = Some a ->
  exists spec,
    generateTagsList i = Ok [spec] /\
    Forall (fun t => strings_HasPrefix (ec2.Tag.Key t) "aws:" = false)
           (ec2.TagSpecification.Tags spec) /\
    (forall t, In t (instance.Tags i) ->
       strings_HasPrefix (ec2.Tag.Key t) "aws:" = false ->
       ~ In (ec2.Tag.Key t)
            [ "launched-by-autospotting"; "launched-for-asg"; "launched-for-replacing-instance";
              "LaunchTemplateID"; "LaunchTemplateVersion"; "LaunchConfiguationName" ] ->
       In t (ec2.TagSpecification.Tags spec)) /\
    (forall t, In t (ec2.TagSpecification.Tags spec) ->
       In t (replacementTags i a) \/ In t (instance.Tags i)).
Proof.
  intros Ha. eexists. split; [exact (generateTagsList_eq i a Ha)|]. simpl. split; [|split].
  - apply Forall_app. split.
    + unfold replacementTags. destruct (autoScalingGroup.LaunchTemplate a);
        [|destruct (autoScalingGroup.LaunchConfigurationName a)]; repeat constructor.
    + apply Forall_forall. intros t Ht%list_elem_of_In. apply filter_In in Ht as [_ Ht].
      apply copiedTag_iff in Ht. tauto.
  - intros t Ht Hp Hk. apply in_or_app. right. apply filter_In. split; [exact Ht|].
    apply copiedTag_iff. split; [exact Hp|exact Hk].
  - intros t Ht. apply in_app_or in Ht as [Ht|Ht]; [now left|right].
    now apply filter_In in Ht.
Qed.

Lemma NoDup_map_filter {A B : Type} (f : A -> B) (p : A -> bool) (l : list A) :
  NoDup (map f l) -> NoDup (map f (List.filter p l)).
Proof.
  induction l as [|x l IH]; simpl; [auto|]. intros H. apply NoDup_cons in H as [Hx Hl].
  destruct (p x); simpl; [|auto]. apply NoDup_cons. split; [|auto].
  intros Hin. apply Hx. apply list_elem_of_In in Hin. apply list_elem_of_In.
  apply in_map_iff in Hin as (y & E & Hy). apply in_map_iff. exists y.
  apply filter_In in Hy. tauto.
Qed.

(** X16.  The keys of the generated tags are pairwise distinct whenever the
    keys of the source's tags are, unless the group has no launch template,
    has a launch configuration name, and the source carries a tag
    "LaunchConfigurationName" itself. *)
Theorem replacement_tag_keys_are_distinct (i : instance.t) (a : autoScalingGroup.t) :
  instance.asg i = Some a ->
  NoDup (map ec2.Tag.Key (instance.Tags i)) ->
  (autoScalingGroup.LaunchTemplate a = None ->
   autoScalingGroup.LaunchConfigurationName a <> None ->
   ~ In "LaunchConfigurationName" (map ec2.Tag.Key (instance.Tags i))) ->
  exists spec,
    generateTagsList i = Ok [spec] /\
    NoDup (map ec2.Tag.Key (ec2.TagSpecification.Tags spec)).
Proof.
  intros Ha Hnd Hlc. eexists. split; [exact (generateTagsList_eq i a Ha)|]. simpl.
  rewrite map_app. apply NoDup_app. split; [|split].
  - rewrite replacementTags_keys.
    destruct (autoScalingGroup.LaunchTemplate a);
      [|destruct (autoScalingGroup.LaunchConfigurationName a)]; simpl;
      repeat (apply NoDup_cons; split;
              [intros Hx%list_elem_of_In; simpl in Hx; intuition discriminate|]);
      apply NoDup_nil; exact I.
  - intros k Hk%list_elem_of_In Hk'%list_elem_of_In.
    apply in_map_iff in Hk' as (t & <- & Ht).
    pose proof Ht as Hin. apply filter_In in Hin as [Hin Hc]. apply copiedTag_iff in Hc as [_ Hc].
    rewrite replacementTags_keys in Hk. apply in_app_or in Hk as [Hk|Hk].
    + apply Hc. simpl in *. tauto.
    + destruct (autoScalingGroup.LaunchTemplate a) eqn:Elt.
      * apply Hc. simpl in *. tauto.
      * destruct (autoScalingGroup.LaunchConfigurationName a) eqn:Elc; [|destruct Hk].
        destruct Hk as [Hk|[]]. apply Hlc; [reflexivity|discriminate|].
        rewrite Hk. apply in_map. exact Hin.
  - now apply NoDup_map_filter.
Qed.

(** ** The replacement predicate, further *)

Lemma isProtectedFromTermination_trace (i : instance.t) (o : oracle) (tr : list issued) :
  snd (run_from o tr (isProtectedFromTermination i)) =
    tr ++ [issue (DescribeInstanceAttribute (instance.InstanceId i) "disableApiTermination")].
Proof.
  unfold isProtectedFromTermination. simpl.
  destruct (o _ tr _) as [[d|] [err|]]; simpl; try reflexivity.
  destruct (ec2.DescribeInstanceAttributeOutput.DisableApiTermination d) as [v|]; simpl;
    [|reflexivity].
  destruct (ec2.AttributeBooleanValue.Value v) as [[|]|]; reflexivity.
Qed.

(** X17.  In any environment [isProtectedFromTermination] issues one call,
    [DescribeInstanceAttribute] of [disableApiTermination] on the instance,
    and returns that call's error.  It answers true when the call failed
    (the instance is assumed to be protected) and when the attribute's value
    is true, and false otherwise (no output, no attribute, no value, or the
    value false). *)
Theorem protection_check_fails_safe (i : instance.t) (o : oracle) (tr : list issued) :
  let call := DescribeInstanceAttribute (instance.InstanceId i) "disableApiTermination" in
  let answer := o _ tr call in
  let r := run_from o tr (isProtectedFromTermination i) in
  snd r = tr ++ [issue call] /\
  snd (fst r) = snd answer /\
  (fst (fst r) = true <->
   snd answer <> None \/
   exists d v, fst answer = Some d /\
               ec2.DescribeInstanceAttributeOutput.DisableApiTermination d = Some v /\
               ec2.AttributeBooleanValue.Value v = Some true).
Proof.
  intros call answer r. subst r answer call. unfold isProtectedFromTermination. simpl.
  destruct (o _ tr _) as [res [err|]]; simpl.
  - repeat split; auto.
  - destruct res as [d|]; simpl.
    + destruct (ec2.DescribeInstanceAttributeOutput.DisableApiTermination d) as [v|] eqn:Ed; simpl.
      * destruct (ec2.AttributeBooleanValue.Value v) as [[|]|] eqn:Ev; simpl;
          (split; [reflexivity|]); (split; [reflexivity|]); split.
        -- intros _. right. eauto.
        -- reflexivity.
        -- discriminate.
        -- intros [H|(d' & v' & [= <-] & Hd & Hv)]; [congruence|]. congruence.
        -- discriminate.
        -- intros [H|(d' & v' & [= <-] & Hd & Hv)]; [congruence|]. congruence.
      * split; [reflexivity|]. split; [reflexivity|]. split; [discriminate|].
        intros [H|(d' & v' & [= <-] & Hd & Hv)]; [congruence|]. congruence.
    + split; [reflexivity|]. split; [reflexivity|]. split; [discriminate|].
      intros [H|(d' & v' & [=] & _)]. congruence.
Qed.

Lemma run_from_exec_bind {A B : Type} (o : oracle) (m : exec A) (f : A -> exec B) tr :
  run_from o tr (exec_bind m f) =
    match fst (run_from o tr m) with
    | Ok a => run_from o (snd (run_from o tr m)) (f a)
    | Panic => (Panic, snd (run_from o tr m))
    end.
Proof.
  unfold exec_bind. rewrite run_from_bind. now destruct (fst (run_from o tr m)).
Qed.

Lemma run_from_lift {A : Type} (o : oracle) (p : prog A) tr :
  run_from o tr (lift p) = (Ok (fst (run_from o tr p)), snd (run_from o tr p)).
Proof. unfold lift. rewrite run_from_bind. reflexivity. Qed.

(** What the loop of [belongsToEnabledASG] leaves: the instance itself when
    no group matched, and on a match the instance with its group and price
    set, for a group of the list that has the name looked for. *)
Lemma belongsToEnabledASG_loop_result o i name asgs : forall tr b i',
  fst (run_from o tr (belongsToEnabledASG_loop i name asgs)) = Ok (b, i') ->
  instance.Instance i' = instance.Instance i /\
  (b = false -> i' = i /\
     snd (run_from o tr (belongsToEnabledASG_loop i name asgs)) = tr /\
     forall n, name = Some n -> Forall (fun g => autoScalingGroup.name g <> n) asgs) /\
  (b = true ->
     exists n g a, name = Some n /\ In g asgs /\ autoScalingGroup.name g = n /\
                   instance.asg i' = Some a).
Proof.
  induction asgs as [|g asgs IH]; intros tr b i' H; simpl in H |- *.
  - injection H as <- <-. split; [reflexivity|]. split; [|discriminate].
    intros _. split; [reflexivity|]. split; [reflexivity|]. constructor.
  - rewrite run_from_exec_bind in H |- *. simpl in H |- *.
    destruct name as [n|]; simpl in H |- *; [|discriminate].
    destruct (String.eqb_spec (autoScalingGroup.name g) n) as [E|E].
    + rewrite !run_from_exec_bind, !run_from_lift in H. simpl in H.
      repeat (rewrite !run_from_exec_bind, !run_from_lift in H; simpl in H).
      injection H as <- <-. split; [reflexivity|]. split; [discriminate|].
      intros _. eexists n, g, _. split; [reflexivity|]. split; [now left|].
      split; [exact E|reflexivity].
    + destruct (IH tr b i' H) as (HI & Hf & Ht). split; [exact HI|]. split.
      * intros Hb. destruct (Hf Hb) as (-> & Htr & Hall). split; [reflexivity|].
        split; [exact Htr|]. intros n' [= <-]. constructor; [exact E|]. now apply Hall.
      * intros Hb. destruct (Ht Hb) as (n' & g' & a & Hn & Hg & Hname & Ha).
        exists n', g', a. split; [exact Hn|]. split; [now right|]. auto.
Qed.

(** A run of [shouldBeReplacedWithSpot], call by call: the protection
    check, the search of the enabled groups, and, when a group was found,
    the question whether it needs replacements. *)
Lemma shouldBeReplacedWithSpot_run (o : oracle) (tr : list issued) (i : instance.t) :
  let p := run_from o tr (isProtectedFromTermination i) in
  let b := run_from o (snd p) (belongsToEnabledASG i) in
  run_from o tr (shouldBeReplacedWithSpot i) =
    match fst b with
    | Panic => (Panic, snd b)
    | Ok (false, j) => (Ok (false, j), snd b)
    | Ok (true, j) =>
        match instance.asg j with
        | None => (Panic, snd b)
        | Some a =>
            (Ok (o _ (snd b) (needReplaceOnDemandInstances a) && negb (isSpot j) &&
                 negb (isProtectedFromScaleIn j) && negb (fst (fst p)), j),
             snd b ++ [issue (needReplaceOnDemandInstances a)])
        end
    end.
Proof.
  intros p b. unfold shouldBeReplacedWithSpot.
  rewrite run_from_exec_bind, run_from_lift. fold p. cbn [fst snd].
  rewrite run_from_exec_bind. fold b.
  destruct (fst b) as [[belongs j]|]; [|reflexivity].
  cbn [fst snd]. destruct belongs; cbn [negb]; [|reflexivity].
  unfold asgNeedsReplacement. rewrite !run_from_exec_bind. cbn [run_from fst snd deref].
  destruct (instance.asg j) as [a|]; cbn [run_from fst snd deref]; [|reflexivity].
  rewrite run_from_lift. reflexivity.
Qed.

(** X18.  In any environment, [shouldBeReplacedWithSpot] answers true only
    for an instance that is not a spot instance, that is not protected from
    scale-in in its group, for which the termination-protection check
    answered false, whose [aws:autoscaling:groupName] tag names one of the
    region's enabled groups, and whose group, asked last, answered that it
    needs replacements. *)
Theorem only_unprotected_on_demand_members_are_replaced
    (o : oracle) (tr : list issued) (i i' : instance.t) :
  fst (run_from o tr (shouldBeReplacedWithSpot i)) = Ok (true, i') ->
  isSpot i = false /\
  isProtectedFromScaleIn i' = false /\
  fst (fst (run_from o tr (isProtectedFromTermination i))) = false /\
  (exists n g, belongsToAnASG i = (true, Some n) /\
               In g (region.enabledASGs (instance.region i)) /\
               autoScalingGroup.name g = n) /\
  (exists a before,
     instance.asg i' = Some a /\
     snd (run_from o tr (shouldBeReplacedWithSpot i))
       = before ++ [issue (needReplaceOnDemandInstances a)] /\
     o _ before (needReplaceOnDemandInstances a) = true).
Proof.
  rewrite shouldBeReplacedWithSpot_run.
  set (p := run_from o tr (isProtectedFromTermination i)).
  destruct (run_from o (snd p) (belongsToEnabledASG i)) as [r tr'] eqn:Eb. simpl.
  destruct r as [[b j]|]; [|discriminate]. destruct b; [|discriminate].
  assert (B : instance.Instance j = instance.Instance i /\
              (exists n g, belongsToAnASG i = (true, Some n) /\
                 In g (region.enabledASGs (instance.region i)) /\
                 autoScalingGroup.name g = n) /\
              exists a, instance.asg j = Some a).
  { apply (f_equal fst) in Eb. simpl in Eb.
    unfold belongsToEnabledASG in Eb. destruct (belongsToAnASG i) as [belongs name].
    destruct belongs; simpl in Eb; [|discriminate].
    apply belongsToEnabledASG_loop_result in Eb as (HI & _ & Ht).
    destruct (Ht eq_refl) as (n & g & a & -> & Hg & Hn & Ha). eauto 8. }
  destruct B as (HI & Hgroup & a & Ha). rewrite Ha. simpl.
  intros [= H <-].
  apply andb_prop in H as [H Hprot]. apply andb_prop in H as [H Hscale].
  apply andb_prop in H as [Hneeds Hspot].
  apply negb_true_iff in Hprot, Hscale, Hspot.
  split. { unfold isSpot in *. now rewrite <- HI. }
  split; [exact Hscale|]. split; [exact Hprot|]. split; [exact Hgroup|].
  exists a, tr'. auto.
Qed.

Lemma belongsToEnabledASG_loop_no_match o i n asgs tr :
  Forall (fun g => autoScalingGroup.name g <> n) asgs ->
  run_from o tr (belongsToEnabledASG_loop i (Some n) asgs) = (Ok (false, i), tr).
Proof.
  induction 1 as [|g asgs Hg Hall IH]; simpl; [reflexivity|].
  rewrite run_from_exec_bind. simpl.
  apply String.eqb_neq in Hg. rewrite Hg. exact IH.
Qed.

(** X19.  For an instance that has no [aws:autoscaling:groupName] tag, or
    whose tag names none of the region's enabled groups, in any environment
    [shouldBeReplacedWithSpot] answers false, leaves the instance as it is,
    and issues one call only, the termination-protection check: no group is
    loaded or asked. *)
Theorem instances_outside_enabled_groups_are_not_replaced
    (o : oracle) (tr : list issued) (i : instance.t) :
  (fst (belongsToAnASG i) = false \/
   exists n, belongsToAnASG i = (true, Some n) /\
             Forall (fun g => autoScalingGroup.name g <> n)
                    (region.enabledASGs (instance.region i))) ->
  run_from o tr (shouldBeReplacedWithSpot i) =
    (Ok (false, i),
     tr ++ [issue (DescribeInstanceAttribute (instance.InstanceId i) "disableApiTermination")]).
Proof.
  intros H. rewrite shouldBeReplacedWithSpot_run, isProtectedFromTermination_trace.
  assert (E : run_from o
                (tr ++ [issue (DescribeInstanceAttribute (instance.InstanceId i)
                                 "disableApiTermination")])
                (belongsToEnabledASG i)
              = (Ok (false, i),
                 tr ++ [issue (DescribeInstanceAttribute (instance.InstanceId i)
                                 "disableApiTermination")])).
  { unfold belongsToEnabledASG. destruct H as [H|(n & -> & H)].
    - destruct (belongsToAnASG i) as [b name]. simpl in H. subst b. reflexivity.
    - simpl. now apply belongsToEnabledASG_loop_no_match. }
  rewrite E. reflexivity.
Qed.

(** ** The swap, further *)

Lemma probes_not_group_calls ev : forallb isProbe ev = true -> existsb isGroupCall ev = false.
Proof.
  induction ev as [|c ev IH]; simpl; [reflexivity|]. intros [Hc Hev]%andb_prop.
  rewrite (IH Hev), orb_false_r.
  destruct c as [X e]; destruct e; first [reflexivity | discriminate].
Qed.

Section SwapMore.

Local Opaque shouldBeReplacedWithSpot.

(** X20.  In any environment, a swap that does not suspend the group's
    processes issues no call that acts on the group: no resumption, no
    change of the maximum size, no attach and no termination of a member. *)
Theorem swap_without_suspension_leaves_the_group (o : oracle) (i : instance.t)
    (asg : autoScalingGroup.t) :
  let tr := snd (run o (swapWithGroupMember i asg)) in
  existsb isSuspend tr = false -> existsb isGroupCall tr = false.
Proof.
  intros tr. subst tr. unfold run, swapWithGroupMember, call_fn.
  destruct (getReplacementTargetInstanceID i) as [od|]; [|reflexivity].
  unfold fn_bind, fn_exec, lift, trigger, fn_ret, exec_ret. simpl.
  destruct (o _ [] (scanInstance od)) as [[err|] reg]; simpl; [reflexivity|].
  destruct (instanceManager_get od reg) as [odInstance|]; simpl; [|reflexivity].
  rewrite !run_from_bind.
  destruct (shouldBeReplacedWithSpot_probes o odInstance [issue (scanInstance od)])
    as (ev & Hev & Hp).
  rewrite Hev.
  destruct (fst (run_from o [issue (scanInstance od)] (shouldBeReplacedWithSpot odInstance)))
    as [[should odInstance']|]; simpl.
  2:{ intros _. apply (probes_not_group_calls _ Hp). }
  destruct should; simpl.
  2:{ intros _. unfold terminate. destruct (canTerminate i); simpl;
      rewrite ?existsb_app, (probes_not_group_calls _ Hp); reflexivity. }
  unfold defer, terminate.
  destruct (autoScalingGroup.DesiredCapacity asg =? autoScalingGroup.MaxSize asg)%Z; simpl;
    repeat match goal with
           | |- context [o ?X ?t ?e] => destruct (o X t e); simpl
           | |- context [canTerminate i] => destruct (canTerminate i); simpl
           end.
  all: rewrite <- ?app_assoc; simpl; rewrite !existsb_app; simpl;
       rewrite ?orb_true_r; intros [=].
Qed.

Lemma probes_not_group_terminate ev :
  forallb isProbe ev = true -> existsb isGroupTerminate ev = false.
Proof.
  induction ev as [|c ev IH]; simpl; [reflexivity|]. intros [Hc Hev]%andb_prop.
  rewrite (IH Hev), orb_false_r.
  destruct c as [X e]; destruct e; first [reflexivity | discriminate].
Qed.

(** X21.  In any environment, if a swap issues a termination through the
    group at all, it issues one, for the instance named by the replacement's
    [launched-for-replacing-instance] tag, and it does so right after the
    attach of the replacement, which the environment answered without an
    error. *)
Theorem swap_terminates_the_target_after_the_attach (o : oracle) (i : instance.t)
    (asg : autoScalingGroup.t) :
  let n := autoScalingGroup.name asg in
  let tr := snd (run o (swapWithGroupMember i asg)) in
  existsb isGroupTerminate tr = true ->
  exists od before after,
    getReplacementTargetInstanceID i = Some od /\
    tr = before ++ [ issue (attachSpotInstance n (instance.InstanceId i) true);
                     issue (terminateInstanceInAutoScalingGroup n od true true) ] ++ after /\
    o _ before (attachSpotInstance n (instance.InstanceId i) true) = None /\
    existsb isGroupTerminate before = false /\
    existsb isGroupTerminate after = false.
Proof.
  intros n tr. subst tr. unfold run, swapWithGroupMember, call_fn.
  destruct (getReplacementTargetInstanceID i) as [od|]; [|intros [=]].
  unfold fn_bind, fn_exec, lift, trigger, fn_ret, exec_ret. simpl.
  destruct (o _ [] (scanInstance od)) as [[err|] reg]; simpl; [intros [=]|].
  destruct (instanceManager_get od reg) as [odInstance|]; simpl; [|intros [=]].
  rewrite !run_from_bind.
  destruct (shouldBeReplacedWithSpot_probes o odInstance [issue (scanInstance od)])
    as (ev & Hev & Hp).
  rewrite Hev.
  destruct (fst (run_from o [issue (scanInstance od)] (shouldBeReplacedWithSpot odInstance)))
    as [[should odInstance']|]; simpl.
  2:{ rewrite (probes_not_group_terminate _ Hp). intros [=]. }
  destruct should; simpl.
  2:{ unfold terminate. destruct (canTerminate i); simpl;
      rewrite ?existsb_app, (probes_not_group_terminate _ Hp); intros [=]. }
  unfold defer, terminate. fold n.
  destruct (autoScalingGroup.DesiredCapacity asg =? autoScalingGroup.MaxSize asg)%Z; simpl;
    repeat match goal with
           | |- context [o ?X ?t ?e] => destruct (o X t e) eqn:?; simpl
           | |- context [canTerminate i] => destruct (canTerminate i); simpl
           end.
  all: rewrite <- ?app_assoc; simpl.
  all: try (rewrite !existsb_app, (probes_not_group_terminate _ Hp); simpl; intros [=]; fail).
  all: intros _; exists od;
    match goal with
    | H : ?g ?X ?t (attachSpotInstance _ _ _) = None |- _ =>
        exists t;
        first [ eexists [_; _]; split; [reflexivity|];
                split; [simpl; rewrite <- ?app_assoc; simpl; reflexivity|]
              | eexists [_]; split; [reflexivity|];
                split; [simpl; rewrite <- ?app_assoc; simpl; reflexivity|] ];
        split; [exact H|]
    end.
  all: simpl; rewrite ?existsb_app; simpl; rewrite ?(probes_not_group_terminate _ Hp);
       split; reflexivity.
Qed.

(** X22.  In any environment a swap that returns gives back either an error
    and no instance, or an instance and no error; it gives back an instance
    only after it issued the attach and the termination through the
    group. *)
Theorem swap_returns_the_target_or_an_error (o : oracle) (i : instance.t)
    (asg : autoScalingGroup.t) (res : option instance.t) (err : option error) :
  fst (run o (swapWithGroupMember i asg)) = Ok (res, err) ->
  let tr := snd (run o (swapWithGroupMember i asg)) in
  (res = None /\ err <> None) \/
  (res <> None /\ err = None /\
   existsb isAttach tr = true /\ existsb isGroupTerminate tr = true).
Proof.
  intros H tr. subst tr. revert H. unfold run, swapWithGroupMember, call_fn.
  destruct (getReplacementTargetInstanceID i) as [od|]; [|intros [= <- <-]; left; easy].
  unfold fn_bind, fn_exec, lift, trigger, fn_ret, exec_ret. simpl.
  destruct (o _ [] (scanInstance od)) as [[e|] reg]; simpl; [intros [= <- <-]; left; easy|].
  destruct (instanceManager_get od reg) as [odInstance|]; simpl;
    [|intros [= <- <-]; left; easy].
  rewrite !run_from_bind.
  destruct (shouldBeReplacedWithSpot_probes o odInstance [issue (scanInstance od)])
    as (ev & Hev & Hp).
  rewrite Hev.
  destruct (fst (run_from o [issue (scanInstance od)] (shouldBeReplacedWithSpot odInstance)))
    as [[should odInstance']|]; simpl; [|intros [=]].
  destruct should; simpl.
  2:{ unfold terminate. destruct (canTerminate i); simpl; intros [= <- <-]; left; easy. }
  unfold defer, terminate.
  destruct (autoScalingGroup.DesiredCapacity asg =? autoScalingGroup.MaxSize asg)%Z; simpl;
    repeat match goal with
           | |- context [o ?X ?t ?e] => destruct (o X t e) eqn:?; simpl
           | |- context [canTerminate i] => destruct (canTerminate i); simpl
           end.
  all: intros [= <- <-]; first [left; easy | right].
  all: split; [discriminate|]; split; [reflexivity|].
  all: rewrite <- ?app_assoc; simpl; rewrite !existsb_app; simpl; rewrite ?orb_true_r; auto.
Qed.

(** X23.  When the target named by the tag is described, is in the registry,
    and [shouldBeReplacedWithSpot] answers false for it, the swap returns
    the error "target instance ... should not be replaced with spot" and,
    after the calls of that check, issues [TerminateInstances] for the
    replacement if the replacement can be terminated, and nothing else. *)
Theorem swap_terminates_the_spot_when_the_target_stays (o : oracle) (i : instance.t)
    (asg : autoScalingGroup.t) (od : string) (reg : instanceManager.t)
    (odInstance odInstance' : instance.t) (probed : list issued) :
  getReplacementTargetInstanceID i = Some od ->
  o _ [] (scanInstance od) = (None, reg) ->
  get od reg = Some odInstance ->
  run_from o [issue (scanInstance od)] (shouldBeReplacedWithSpot odInstance)
    = (Ok (false, odInstance'), probed) ->
  run o (swapWithGroupMember i asg) =
    (Ok (None, Some (String.append "target instance "
                       (String.append od " should not be replaced with spot"))),
     probed ++ (if canTerminate i
                then [issue (TerminateInstances [instance.InstanceId i])]
                else [])).
Proof.
  intros Hod Hscan Hget Hshould. unfold run, swapWithGroupMember, call_fn. rewrite Hod.
  unfold fn_bind, fn_exec, lift, trigger, fn_ret, exec_ret. simpl.
  rewrite Hscan. simpl. simpl in Hget. rewrite Hget.
  rewrite !run_from_bind. rewrite Hshould. simpl.
  unfold terminate. destruct (canTerminate i); simpl; [reflexivity|].
  now rewrite app_nil_r.
Qed.

End SwapMore.

(** ** Instances that wait to be attached *)

(** X24.  [handleInstanceStates] returns an error exactly when the instance
    is not in the state "running".  It answers false (the instance is to be
    handled) exactly when the instance is running, is a spot instance, and
    carries a [launched-for-asg] tag whose value names an enabled group of
    the region that the instance is not a member of; otherwise it answers
    true (skip). *)
Theorem only_unattached_spot_instances_are_handled
    (findEnabledASGByName : region.t -> string -> option autoScalingGroup.t)
    (hasMemberInstance : autoScalingGroup.t -> instance.t -> bool) (i : instance.t) :
  let handled := handleInstanceStates findEnabledASGByName hasMemberInstance i in
  (snd handled <> None <-> instance.StateName i <> "running") /\
  (fst handled = false <->
   instance.StateName i = "running" /\ isSpot i = true /\
   exists asgName asg,
     getReplacementTargetASGName i = Some asgName /\
     findEnabledASGByName (instance.region i) asgName = Some asg /\
     hasMemberInstance asg i = false).
Proof.
  unfold handleInstanceStates, isUnattachedSpotInstanceLaunchedForAnEnabledASG. simpl.
  destruct (String.eqb_spec (instance.StateName i) "running") as [E|E]; simpl;
    [destruct (getReplacementTargetASGName i) as [n|]; simpl;
     [destruct (findEnabledASGByName (instance.region i) n) as [a|] eqn:Hf; simpl;
      [destruct (hasMemberInstance a i) eqn:Hm, (isSpot i) eqn:Hs; simpl| ]| ]| ].
  all: split; [split; intros H|split; [intros H|intros (H1 & H2 & n' & a' & H3 & H4 & H5)]].
  all: try discriminate.
  all: try (now contradiction H).
  all: try exact E.
  all: try congruence.
  all: try reflexivity.
  all: try (injection H3 as <-; congruence).
  split; [exact E|]. split; [reflexivity|]. exists n, a. auto.
Qed.

(** X25.  [isReadyToAttach] answers true exactly when the instance is in the
    state "running" and its uptime in seconds is greater than the group's
    health-check grace period; with an uptime equal to the grace period, and
    in every other state, it answers false. *)
Theorem ready_when_running_past_the_grace_period
    (now launchTime : Z) (i : instance.t) (asg : autoScalingGroup.t) :
  isReadyToAttach now launchTime i asg = true <->
  instance.StateName i = "running" /\
  (autoScalingGroup.HealthCheckGracePeriod asg < wrap64 (now - launchTime))%Z.
Proof.
  unfold isReadyToAttach, ec2.InstanceStateNameRunning, ec2.InstanceStateNamePending.
  rewrite Z.gtb_ltb.
  destruct (String.eqb_spec (instance.StateName i) "running") as [E|E]; simpl.
  - destruct (Z.ltb_spec (autoScalingGroup.HealthCheckGracePeriod asg)
                (wrap64 (now - launchTime))) as [H|H].
    + tauto.
    + simpl. destruct (wrap64 (now - launchTime) <? _)%Z;
        [|destruct (String.eqb (instance.StateName i) "pending")]; (split; [discriminate|]);
      intros [_ H']; lia.
  - destruct (String.eqb (instance.StateName i) "pending"); (split; [discriminate|]); tauto.
Qed.

(** ** The launch of a spot replacement *)

Lemma launch_from_bind {A B : Type} (svc : ec2Service) (m : launch A) (f : A -> launch B) :
  forall tr,
  launch_from svc tr (launch_bind m f) =
    match fst (launch_from svc tr m) with
    | Ok a => launch_from svc (snd (launch_from svc tr m)) (f a)
    | Panic => (Panic, snd (launch_from svc tr m))
    end.
Proof.
  induction m as [[a|]|X c k IH]; intros tr; simpl; [reflexivity|reflexivity|]. apply IH.
Qed.

(** X26.  In any environment [getlaunchTemplate] issues one call,
    [DescribeLaunchTemplateVersions] of the given id and version.  When the
    call fails it returns the call's error, and panics if the id or the
    version is nil (the log line dereferences them).  When the call succeeds
    it returns the data of the version if the answer holds exactly one
    version, and the error "missing launch template version information" if
    it holds none or several. *)
Theorem launch_template_data_needs_one_version (svc : ec2Service) (tr : list requested)
    (id ver : option string) :
  let call := DescribeLaunchTemplateVersions id [ver] in
  let answer := svc _ tr call in
  let versions := sdk.DescribeLaunchTemplateVersionsOutput.LaunchTemplateVersions (fst answer) in
  let out := launch_from svc tr (getlaunchTemplate id ver) in
  snd out = tr ++ [ask call] /\
  fst out =
    match snd answer, versions with
    | Some err, _ =>
        match id, ver with
        | Some _, Some _ => Ok (None, Some err)
        | _, _ => Panic
        end
    | None, [v] => Ok (sdk.LaunchTemplateVersion.LaunchTemplateData v, None)
    | None, _ => Ok (None, Some "missing launch template version information")
    end.
Proof.
  intros call answer versions out. subst out versions answer call.
  unfold getlaunchTemplate. simpl.
  destruct (svc _ tr _) as [res [err|]]; simpl.
  - destruct id, ver; simpl; auto.
  - destruct (sdk.DescribeLaunchTemplateVersionsOutput.LaunchTemplateVersions res)
      as [|v [|v' vs]]; simpl; auto.
    destruct (Pos.succ (Pos.of_succ_nat (length vs))) eqn:P; simpl; auto.
    now apply Pos.succ_not_1 in P.
Qed.

Lemma sameRequest_refl r : sameRequest r r.
Proof. repeat split. Qed.

Lemma sameRequest_trans r1 r2 r3 : sameRequest r1 r2 -> sameRequest r2 r3 -> sameRequest r1 r3.
Proof. unfold sameRequest. intuition congruence. Qed.

Lemma launch_template_version_run svc tr id ver :
  snd (launch_from svc tr (getlaunchTemplate id ver))
    = tr ++ [ask (DescribeLaunchTemplateVersions id [ver])].
Proof.
  unfold getlaunchTemplate. simpl.
  destruct (svc _ tr _) as [res [err|]]; simpl.
  - destruct id, ver; reflexivity.
  - destruct (Z.of_nat (length _) =? 1)%Z; [|reflexivity].
    destruct (sdk.DescribeLaunchTemplateVersionsOutput.LaunchTemplateVersions res); reflexivity.
Qed.

Section LaunchFacts.
Variable strings_ToLower : string -> string.
Variable strconv_FormatFloat : float -> string.
Variable getPatchedUserDataForBeanstalk : option string -> option string.
Variables (i : instance.t) (d : launchData.t).

Local Abbreviation interfaceOf ni :=
  {| sdk.InstanceNetworkInterfaceSpecification.AssociatePublicIpAddress :=
       sdk.LaunchTemplateInstanceNetworkInterfaceSpecification.AssociatePublicIpAddress ni;
     sdk.InstanceNetworkInterfaceSpecification.DeviceIndex :=
       sdk.LaunchTemplateInstanceNetworkInterfaceSpecification.DeviceIndex ni;
     sdk.InstanceNetworkInterfaceSpecification.Groups := convertSecurityGroups d;
     sdk.InstanceNetworkInterfaceSpecification.SubnetId := launchData.SubnetId d |}.

Lemma appended_interfaces nis : forall retval,
  foldl (fun retval ni =>
           sdk.RunInstancesInput.set_NetworkInterfaces
             (sdk.RunInstancesInput.NetworkInterfaces retval ++ [interfaceOf ni]) retval)
        retval nis
  = sdk.RunInstancesInput.set_NetworkInterfaces
      (sdk.RunInstancesInput.NetworkInterfaces retval ++ map (fun ni => interfaceOf ni) nis)
      retval.
Proof.
  induction nis as [|ni nis IH]; intros retval; simpl.
  - rewrite app_nil_r. now destruct retval.
  - rewrite IH. simpl. rewrite <- app_assoc. reflexivity.
Qed.

(** The image's mappings: the one call, and a request that differs in its
    block-device mappings at most. *)
Lemma processImageBlockDevices_run svc tr rii :
  snd (launch_from svc tr (processImageBlockDevices i d rii))
    = tr ++ [ask (DescribeImages [launchData.ImageId d])] /\
  forall r', fst (launch_from svc tr (processImageBlockDevices i d rii)) = Ok r' ->
    r' = sdk.RunInstancesInput.set_BlockDeviceMappings
           (sdk.RunInstancesInput.BlockDeviceMappings r') rii.
Proof.
  unfold processImageBlockDevices. simpl.
  destruct (svc _ tr _) as [resp [err|]]; simpl.
  - split; [reflexivity|]. intros r' [= <-]. now destruct rii.
  - destruct (sdk.DescribeImagesOutput.Images resp) as [|image images]; simpl.
    + split; [reflexivity|]. intros r' [= <-]. now destruct rii.
    + destruct (convertImageBlockDeviceMappings i (sdk.Image.BlockDeviceMappings image));
        simpl; split; try reflexivity; intros r' [= <-]. reflexivity.
Qed.

(** A trace without a [RunInstances]. *)
Local Abbreviation noRun :=
  (Forall (fun c : requested => match projT2 c with RunInstances _ => False | _ => True end)).

Lemma noRun_requestedType pre : noRun pre -> omap requestedType pre = [].
Proof.
  induction 1 as [|[X c] pre Hc _ IH]; [reflexivity|]. simpl.
  destruct c; simpl in *; try exact IH. destruct Hc.
Qed.

Lemma noRun_allRefused svc pre : forall tr, noRun pre -> allRefused svc tr pre = true.
Proof.
  induction pre as [|[X c] pre IH]; intros tr H; [reflexivity|].
  apply Forall_cons in H as [Hc H]. simpl. rewrite (IH _ H), andb_true_r.
  destruct c; simpl in *; try reflexivity. destruct Hc.
Qed.

Lemma allRefused_app svc reqs1 : forall tr reqs2,
  allRefused svc tr (reqs1 ++ reqs2) =
  allRefused svc tr reqs1 && allRefused svc (tr ++ reqs1) reqs2.
Proof.
  induction reqs1 as [|c reqs1 IH]; intros tr reqs2; simpl.
  - now rewrite app_nil_r.
  - rewrite IH, <- app_assoc. simpl. now rewrite andb_assoc.
Qed.

Local Opaque getlaunchTemplate.

Lemma processLaunchTemplate_run svc tr retval :
  (exists pre, snd (launch_from svc tr (processLaunchTemplate i d retval)) = tr ++ pre /\
               noRun pre) /\
  forall out err,
    fst (launch_from svc tr (processLaunchTemplate i d retval)) = Ok (out, err) ->
    sameRequest retval out /\
    (err = None -> placedInNetwork d retval -> placedInNetwork d out).
Proof.
  unfold processLaunchTemplate.
  destruct (instance.asg i) as [a|]; simpl.
  2:{ split; [exists []; rewrite app_nil_r; split; [reflexivity|constructor]|discriminate]. }
  destruct (autoScalingGroup.LaunchTemplate a) as [lt|]; simpl.
  2:{ split; [exists []; rewrite app_nil_r; split; [reflexivity|constructor]|discriminate]. }
  rewrite launch_from_bind.
  pose proof (launch_template_version_run svc tr
                (autoscaling.LaunchTemplateSpecification.LaunchTemplateId lt)
                (autoscaling.LaunchTemplateSpecification.Version lt)) as Htr.
  rewrite Htr.
  assert (Hpre : exists pre,
            tr ++ [ask (DescribeLaunchTemplateVersions
                          (autoscaling.LaunchTemplateSpecification.LaunchTemplateId lt)
                          [autoscaling.LaunchTemplateSpecification.Version lt])] = tr ++ pre /\
            noRun pre).
  { eexists. split; [reflexivity|]. repeat constructor. }
  destruct (fst (launch_from svc tr (getlaunchTemplate _ _))) as [[data err]|]; simpl;
    [|split; [exact Hpre|discriminate]].
  destruct err as [err|]; simpl.
  { split; [exact Hpre|]. intros out err' [= <- <-]. split; [repeat split|discriminate]. }
  destruct data as [data|]; simpl; [|split; [exact Hpre|discriminate]].
  destruct (convertLaunchTemplateBlockDeviceMappings i _) as [bds|]; simpl;
    [|split; [exact Hpre|discriminate]].
  destruct (Z.of_nat (length (sdk.ResponseLaunchTemplateData.NetworkInterfaces data)) >? 0)%Z
    eqn:Hlen; simpl.
  - split; [exact Hpre|]. intros out err' [= <- <-]. rewrite appended_interfaces.
    split; [repeat split|]. intros _ Hnet. right. simpl.
    destruct (sdk.ResponseLaunchTemplateData.NetworkInterfaces data) as [|ni nis];
      [discriminate Hlen|].
    split; [destruct (sdk.RunInstancesInput.NetworkInterfaces retval); discriminate|].
    split; [reflexivity|]. split; [reflexivity|].
    apply Forall_app. split.
    + destruct Hnet as [(-> & _)|(_ & _ & _ & H)]; [constructor|exact H].
    + apply Forall_forall. intros x Hx%list_elem_of_In.
      change (In x (map (fun ni => interfaceOf ni) (ni :: nis))) in Hx.
      apply in_map_iff in Hx as (y & <- & _). split; reflexivity.
  - split; [exact Hpre|]. intros out err' [= <- <-]. split; [repeat split|].
    intros _ Hnet. exact Hnet.
Qed.

Local Abbreviation processLC :=
  (processLaunchConfiguration strings_ToLower getPatchedUserDataForBeanstalk i d).

Lemma processLaunchConfiguration_keeps retval out :
  processLC retval = Ok out ->
  sameRequest retval out /\ (placedInNetwork d retval -> placedInNetwork d out).
Proof.
  unfold processLaunchConfiguration.
  destruct (instance.asg i) as [a|]; simpl; [|discriminate].
  destruct (autoScalingGroup.launchConfiguration a) as [w|]; simpl; [|discriminate].
  destruct (convertLaunchConfigurationBlockDeviceMappings i _) as [BDMs|]; simpl; [|discriminate].
  intros [= <-]. unfold placedInNetwork, sameRequest.
  destruct (sdk.LaunchConfiguration.KeyName _) as [k|]; [destruct (negb (String.eqb k ""))|];
  (destruct (sdk.LaunchConfiguration.IamInstanceProfile _) as [p|];
     [destruct (strings_HasPrefix p "arn:aws:iam:")|]);
  destruct (String.eqb (strings_ToLower _) "true");
  destruct (Z.of_nat (length BDMs) >? 0)%Z;
  destruct (sdk.LaunchConfiguration.InstanceMonitoring _);
  destruct (sdk.LaunchConfiguration.AssociatePublicIpAddress _), (launchData.SubnetId d);
  simpl; (split; [repeat split|]); intros Hnet;
  first [ exact Hnet
        | right; (split; [discriminate|]); (split; [reflexivity|]); (split; [reflexivity|]);
          repeat constructor ].
Qed.

Local Opaque processLaunchConfiguration processLaunchTemplate processImageBlockDevices.

Local Abbreviation createRII :=
  (createRunInstancesInput strings_ToLower strconv_FormatFloat getPatchedUserDataForBeanstalk
     i d).

(** What a request built by [createRunInstancesInput] holds, and what calls
    building it made. *)
Lemma createRunInstancesInput_run svc tr instanceType price :
  (exists pre, snd (launch_from svc tr (createRII instanceType price)) = tr ++ pre /\
               noRun pre) /\
  forall r err,
    fst (launch_from svc tr (createRII instanceType price)) = Ok (r, err) ->
    (err <> None -> r = None) /\
    (err = None ->
     exists input tags,
       r = Some input /\ generateTagsList i = Ok tags /\
       sdk.RunInstancesInput.EbsOptimized input
         = ec2.Instance.EbsOptimized (instance.Instance i) /\
       sdk.RunInstancesInput.InstanceMarketOptions input
         = Some {| sdk.InstanceMarketOptionsRequest.MarketType := Some Spot;
                   sdk.InstanceMarketOptionsRequest.SpotOptions :=
                     Some {| sdk.SpotMarketOptions.MaxPrice :=
                               Some (strconv_FormatFloat price) |} |} /\
       sdk.RunInstancesInput.InstanceType input = Some instanceType /\
       sdk.RunInstancesInput.MaxCount input = Some 1%Z /\
       sdk.RunInstancesInput.MinCount input = Some 1%Z /\
       sdk.RunInstancesInput.Placement input = ec2.Instance.Placement (instance.Instance i) /\
       sdk.RunInstancesInput.TagSpecifications input = tags /\
       placedInNetwork d input).
Proof.
  unfold createRunInstancesInput.
  destruct (generateTagsList i) as [tags|] eqn:Htags; simpl.
  2:{ split; [exists []; rewrite app_nil_r; split; [reflexivity|constructor]|discriminate]. }
  set (retval0 := {| sdk.RunInstancesInput.BlockDeviceMappings := [] |}).
  assert (Hnet0 : placedInNetwork d retval0) by (left; repeat split).
  rewrite launch_from_bind.
  destruct (processImageBlockDevices_run svc tr retval0) as [Htr1 Hout1]. rewrite Htr1.
  set (tr1 := tr ++ [ask (DescribeImages [launchData.ImageId d])]).
  assert (Hpre1 : exists pre, tr1 = tr ++ pre /\ noRun pre).
  { eexists. split; [reflexivity|]. repeat constructor. }
  destruct (fst (launch_from svc tr (processImageBlockDevices i d retval0))) as [retval1|];
    [|split; [exact Hpre1|discriminate]].
  specialize (Hout1 retval1 eq_refl).
  assert (Hsame1 : sameRequest retval0 retval1) by (rewrite Hout1; repeat split).
  assert (Hnet1 : placedInNetwork d retval1) by (rewrite Hout1; left; repeat split).
  clear Hout1.
  destruct (instance.asg i) as [a|]; simpl; [|split; [exact Hpre1|discriminate]].
  rewrite launch_from_bind.
  assert (Hlt : exists tr2,
            (exists pre, tr2 = tr ++ pre /\ noRun pre) /\
            snd (launch_from svc tr1
                   match autoScalingGroup.LaunchTemplate a with
                   | Some _ => processLaunchTemplate i d retval1
                   | None => Return (Ok (retval1, None))
                   end) = tr2 /\
            forall out err,
              fst (launch_from svc tr1
                     match autoScalingGroup.LaunchTemplate a with
                     | Some _ => processLaunchTemplate i d retval1
                     | None => Return (Ok (retval1, None))
                     end) = Ok (out, err) ->
              sameRequest retval1 out /\ (err = None -> placedInNetwork d out)).
  { destruct (autoScalingGroup.LaunchTemplate a) as [lt|].
    - destruct (processLaunchTemplate_run svc tr1 retval1) as [(pre & Hp & Hn) Hout].
      eexists. split; [|split; [reflexivity|]].
      + rewrite Hp. unfold tr1. rewrite <- app_assoc. eexists. split; [reflexivity|].
        apply Forall_app. split; [repeat constructor|exact Hn].
      + intros out err H. destruct (Hout out err H) as [Hs Hn']. split; [exact Hs|]. auto.
    - simpl. eexists. split; [exact Hpre1|]. split; [reflexivity|].
      intros out err [= <- <-]. split; [apply sameRequest_refl|auto]. }
  destruct Hlt as (tr2 & Hpre2 & -> & Hout2).
  destruct (fst (launch_from svc tr1 _)) as [[retval2 err2]|]; simpl;
    [|split; [exact Hpre2|discriminate]].
  destruct (Hout2 retval2 err2 eq_refl) as [Hsame2 Hnet2].
  destruct err2 as [err2|]; simpl.
  { split; [exact Hpre2|]. intros r err [= <- <-]. split; [reflexivity|discriminate]. }
  specialize (Hnet2 eq_refl).
  assert (Hfinal : forall input, sameRequest retval2 input -> placedInNetwork d input ->
            exists input' tags',
              Some input = Some input' /\ Ok tags = Ok tags' /\
              sdk.RunInstancesInput.EbsOptimized input'
                = ec2.Instance.EbsOptimized (instance.Instance i) /\
              sdk.RunInstancesInput.InstanceMarketOptions input'
                = Some {| sdk.InstanceMarketOptionsRequest.MarketType := Some Spot;
                          sdk.InstanceMarketOptionsRequest.SpotOptions :=
                            Some {| sdk.SpotMarketOptions.MaxPrice :=
                                      Some (strconv_FormatFloat price) |} |} /\
              sdk.RunInstancesInput.InstanceType input' = Some instanceType /\
              sdk.RunInstancesInput.MaxCount input' = Some 1%Z /\
              sdk.RunInstancesInput.MinCount input' = Some 1%Z /\
              sdk.RunInstancesInput.Placement input'
                = ec2.Instance.Placement (instance.Instance i) /\
              sdk.RunInstancesInput.TagSpecifications input' = tags' /\
              placedInNetwork d input').
  { intros input Hs Hn. exists input, tags.
    pose proof (sameRequest_trans _ _ _ (sameRequest_trans _ _ _ Hsame1 Hsame2) Hs)
      as (E1 & E2 & E3 & E4 & E5 & E6 & E7).
    rewrite E1, E2, E3, E4, E5, E6, E7. repeat split; auto. }
  destruct (autoScalingGroup.launchConfiguration a) as [w|]; simpl.
  - destruct (processLC retval2) as [retval3|] eqn:Hlc; simpl;
      [|split; [exact Hpre2|discriminate]].
    split; [exact Hpre2|]. intros r err [= <- <-]. split; [intros H; now contradiction H|].
    intros _. destruct (processLaunchConfiguration_keeps retval2 retval3 Hlc) as [Hs Hn].
    apply Hfinal; auto.
  - split; [exact Hpre2|]. intros r err [= <- <-]. split; [intros H; now contradiction H|].
    intros _. apply Hfinal; [apply sameRequest_refl|exact Hnet2].
Qed.

End LaunchFacts.

Section LaunchLoop.
Variable strings_ToLower : string -> string.
Variable strconv_FormatFloat : float -> string.
Variable getPatchedUserDataForBeanstalk : option string -> option string.
Variable getAllowedInstanceTypes : autoScalingGroup.t -> instance.t -> list string.
Variable getDisallowedInstanceTypes : autoScalingGroup.t -> instance.t -> list string.
Variable filepath_Match : string -> string -> bool.
Variable sort_Slice :
  (acceptableInstance.t -> acceptableInstance.t -> bool) ->
  list acceptableInstance.t -> list acceptableInstance.t.
Variable countLaunchConfigEphemeralVolumes : option launchConfiguration.t -> Z.
Variable countLaunchTemplateEphemeralVolumes : option launchTemplate.t -> Z.

Local Abbreviation createRII :=
  (createRunInstancesInput strings_ToLower strconv_FormatFloat getPatchedUserDataForBeanstalk).
Local Abbreviation loop :=
  (launchSpotReplacement_loop strings_ToLower strconv_FormatFloat
     getPatchedUserDataForBeanstalk).
Local Abbreviation noRun :=
  (Forall (fun c : requested => match projT2 c with RunInstances _ => False | _ => True end)).

Local Opaque createRunInstancesInput.

Lemma loop_run svc i d FinalRecap types : forall tr,
  exists reqs,
    snd (launch_from svc tr (loop i d FinalRecap types)) = tr ++ reqs /\
    sublist (omap requestedType reqs) (map instanceTypeInformation.instanceType types) /\
    loopOutcome svc tr i FinalRecap reqs (fst (launch_from svc tr (loop i d FinalRecap types))).
Proof.
  induction types as [|T types IH]; intros tr; simpl.
  - exists []. rewrite app_nil_r.
    destruct (instance.asg i); simpl; (split; [reflexivity|]); (split; [constructor|]);
      [repeat split|exact I].
  - rewrite launch_from_bind.
    set (bid := getPriceToBid i _ _ _).
    destruct (createRunInstancesInput_run strings_ToLower strconv_FormatFloat
                getPatchedUserDataForBeanstalk i d svc tr
                (instanceTypeInformation.instanceType T) bid)
      as [(pre & Hpre & Hno) Hout].
    rewrite Hpre.
    destruct (fst (launch_from svc tr (createRII i d _ bid))) as [[r err]|].
    2:{ exists pre. split; [reflexivity|]. rewrite (noRun_requestedType _ Hno).
        split; [apply sublist_nil_l|exact I]. }
    destruct (Hout r err eq_refl) as [Herr Hok]. simpl.
    destruct err as [err|].
    + destruct (IH (tr ++ pre)) as (reqs & Htr & Hsub & Hres).
      exists (pre ++ reqs). rewrite Htr, <- app_assoc. split; [reflexivity|].
      rewrite omap_app, (noRun_requestedType _ Hno). simpl.
      split; [now apply sublist_cons|].
      destruct (fst (launch_from svc (tr ++ pre) (loop i d FinalRecap types)))
        as [[[[id|] e] recap']|]; simpl in *; [| |exact I].
      * destruct Hres as (He & before & input & inst & a & -> & Hb & Hs & Hi & Hid & Ha & Hr).
        split; [exact He|]. exists (pre ++ before), input, inst, a.
        rewrite <- !app_assoc in Hs, Hi.
        rewrite <- !app_assoc. rewrite allRefused_app, (noRun_allRefused _ _ _ Hno), Hb.
        auto 10.
      * destruct Hres as (He & Hr & Hb). split; [exact He|]. split; [exact Hr|].
        now rewrite allRefused_app, (noRun_allRefused _ _ _ Hno), Hb.
    + destruct (Hok eq_refl) as (input & tags & -> & _ & _ & _ & Hty & _).
      simpl.
      destruct (svc _ (tr ++ pre) (RunInstances (Some input))) as [resv [e|]] eqn:Hsvc; simpl.
      * rewrite <- app_assoc.
        destruct (IH (tr ++ pre ++ [ask (RunInstances (Some input))]))
          as (reqs & Htr & Hsub & Hres).
        exists (pre ++ [ask (RunInstances (Some input))] ++ reqs).
        rewrite Htr, <- !app_assoc. split; [reflexivity|].
        rewrite omap_app, (noRun_requestedType _ Hno). simpl.
        unfold requestedType at 1. simpl. rewrite Hty. simpl.
        split; [now apply sublist_skip|].
        assert (Hrun : refused svc (tr ++ pre) (ask (RunInstances (Some input))) = true).
        { unfold refused. simpl. now rewrite Hsvc. }
        destruct (fst (launch_from svc (tr ++ pre ++ [ask (RunInstances (Some input))])
                         (loop i d FinalRecap types)))
          as [[[[id|] e'] recap']|]; simpl in Hres |- *; [| |exact I].
        -- destruct Hres as (He & before & input' & inst & a & -> & Hb & Hs & Hi & Hid & Ha & Hr).
           split; [exact He|].
           exists (pre ++ [ask (RunInstances (Some input))] ++ before), input', inst, a.
           rewrite <- !app_assoc in Hs, Hi. simpl in Hs, Hi.
           rewrite <- !app_assoc. simpl.
           rewrite allRefused_app, (noRun_allRefused _ _ _ Hno). simpl.
           rewrite Hrun, <- app_assoc, Hb. auto 10.
        -- destruct Hres as (He & Hr & Hb). split; [exact He|]. split; [exact Hr|].
           rewrite allRefused_app, (noRun_allRefused _ _ _ Hno). simpl.
           now rewrite Hrun, <- app_assoc, Hb.
      * exists (pre ++ [ask (RunInstances (Some input))]).
        assert (Hsub : sublist (omap requestedType (pre ++ [ask (RunInstances (Some input))]))
                         (instanceTypeInformation.instanceType T
                          :: map instanceTypeInformation.instanceType types)).
        { rewrite omap_app, (noRun_requestedType _ Hno). simpl.
          unfold requestedType. simpl. rewrite Hty. simpl.
          apply sublist_skip, sublist_nil_l. }
        destruct (sdk.Reservation.Instances resv !! 0%nat) as [inst|] eqn:Hinst; simpl.
        2:{ rewrite <- app_assoc. split; [reflexivity|]. split; [exact Hsub|exact I]. }
        destruct (instance.asg i) as [a|] eqn:Ha; simpl.
        2:{ rewrite <- app_assoc. split; [reflexivity|]. split; [exact Hsub|exact I]. }
        destruct (sdk.Instance.InstanceId inst) as [id|] eqn:Hid; simpl.
        2:{ rewrite <- app_assoc. split; [reflexivity|]. split; [exact Hsub|exact I]. }
        destruct (sdk.Instance.InstanceType inst) as [ty|] eqn:Hit; simpl.
        2:{ rewrite <- app_assoc. split; [reflexivity|]. split; [exact Hsub|exact I]. }
        rewrite <- app_assoc. split; [reflexivity|]. split; [exact Hsub|].
        split; [reflexivity|]. exists pre, input, inst, a.
        rewrite Hsvc. simpl. rewrite (noRun_allRefused _ _ _ Hno). auto 10.
Qed.

Local Abbreviation launchIt :=
  (launchSpotReplacement strings_ToLower strconv_FormatFloat getPatchedUserDataForBeanstalk
     getAllowedInstanceTypes getDisallowedInstanceTypes filepath_Match sort_Slice
     countLaunchConfigEphemeralVolumes countLaunchTemplateEphemeralVolumes).
Local Abbreviation getCompatible :=
  (getCompatibleSpotInstanceTypesListSortedAscendingByPrice
     filepath_Match sort_Slice countLaunchConfigEphemeralVolumes
     countLaunchTemplateEphemeralVolumes).

(** X27.  In any environment, a request that [createRunInstancesInput]
    returns comes without an error and asks for exactly one instance
    ([MinCount] and [MaxCount] are 1) of the given type on the spot market,
    with the formatted price as its maximum price, in the source's
    placement, with the source's EBS optimization flag and with the tags of
    [generateTagsList]: none of the functions that fill the request changes
    these. *)
Theorem a_request_asks_for_one_spot_instance (svc : ec2Service) (tr : list requested)
    (i : instance.t) (d : launchData.t) (instanceType : string) (price : float)
    (input : sdk.RunInstancesInput.t) (err : option error) :
  fst (launch_from svc tr (createRII i d instanceType price)) = Ok (Some input, err) ->
  err = None /\
  sdk.RunInstancesInput.InstanceType input = Some instanceType /\
  sdk.RunInstancesInput.MinCount input = Some 1%Z /\
  sdk.RunInstancesInput.MaxCount input = Some 1%Z /\
  sdk.RunInstancesInput.InstanceMarketOptions input
    = Some {| sdk.InstanceMarketOptionsRequest.MarketType := Some "spot";
              sdk.InstanceMarketOptionsRequest.SpotOptions :=
                Some {| sdk.SpotMarketOptions.MaxPrice := Some (strconv_FormatFloat price) |} |} /\
  sdk.RunInstancesInput.Placement input = ec2.Instance.Placement (instance.Instance i) /\
  sdk.RunInstancesInput.EbsOptimized input = ec2.Instance.EbsOptimized (instance.Instance i) /\
  generateTagsList i = Ok (sdk.RunInstancesInput.TagSpecifications input).
Proof.
  intros H.
  destruct (createRunInstancesInput_run strings_ToLower strconv_FormatFloat
              getPatchedUserDataForBeanstalk i d svc tr instanceType price) as [_ Hout].
  destruct (Hout _ _ H) as [Herr Hok].
  destruct err as [e|]; [now specialize (Herr ltac:(discriminate))|].
  destruct (Hok eq_refl) as (input' & tags & [= <-] & Ht & H1 & H2 & H3 & H4 & H5 & H6 & H7 & _).
  subst tags. auto 10.
Qed.

(** X28.  In any environment, a request that [createRunInstancesInput]
    returns gives the subnet and the security groups either at its top
    level, with no network interface, or on its network interfaces, each
    with the source's subnet and security groups, and then not at the top
    level. *)
Theorem a_request_places_the_instance_once (svc : ec2Service) (tr : list requested)
    (i : instance.t) (d : launchData.t) (instanceType : string) (price : float)
    (input : sdk.RunInstancesInput.t) (err : option error) :
  fst (launch_from svc tr (createRII i d instanceType price)) = Ok (Some input, err) ->
  placedInNetwork d input.
Proof.
  intros H.
  destruct (createRunInstancesInput_run strings_ToLower strconv_FormatFloat
              getPatchedUserDataForBeanstalk i d svc tr instanceType price) as [_ Hout].
  destruct (Hout _ _ H) as [Herr Hok].
  destruct err as [e|]; [now specialize (Herr ltac:(discriminate))|].
  destruct (Hok eq_refl) as (input' & tags & [= <-] & _ & _ & _ & _ & _ & _ & _ & _ & Hnet).
  exact Hnet.
Qed.

Local Opaque launchSpotReplacement_loop.

(** X29.  [launchSpotReplacement], for a source with a group, in any
    environment.  When the ranker returns an error, the launch returns that
    error and issues no call.  Otherwise the instance types of its
    [RunInstances] calls, in the order of the calls, are a subsequence of
    the ranked types; when it returns an instance id, its last call is a
    [RunInstances] that was answered without an error, every earlier one
    was refused, the id is that of the first instance of the answer, and
    one line is added to [FinalRecap] under the region's name; when it
    returns no id, the error is "exhausted all compatible instance types",
    every [RunInstances] was refused and [FinalRecap] is as it was.  The
    source's price is set in both cases. *)
Theorem the_launch_follows_the_ranking (svc : ec2Service) (tr : list requested)
    (i : instance.t) (d : launchData.t) (FinalRecap : gmap string (list string))
    (a : autoScalingGroup.t) (types : list instanceTypeInformation.t) (err : option error) :
  instance.asg i = Some a ->
  let priced :=
    instance.set_price
      (prices.onDemand (instanceTypeInformation.pricing (instance.typeInfo i))
       / Config.OnDemandPriceMultiplier (region.conf (instance.region i))
       * AutoScalingConfig.OnDemandPriceMultiplier (autoScalingGroup.config a))%float i in
  getCompatible priced (getAllowedInstanceTypes a priced) (getDisallowedInstanceTypes a priced)
    = Ok (types, err) ->
  let out := launch_from svc tr (launchIt i d FinalRecap) in
  match err with
  | Some e => out = (Ok ((None, Some e), (priced, FinalRecap)), tr)
  | None =>
      exists reqs,
        snd out = tr ++ reqs /\
        sublist (omap requestedType reqs) (map instanceTypeInformation.instanceType types) /\
        match fst out with
        | Panic => True
        | Ok (res, (j, FinalRecap')) =>
            j = priced /\ loopOutcome svc tr priced FinalRecap reqs (Ok (res, FinalRecap'))
        end
  end.
Proof.
  intros Ha priced Htypes out. subst out. unfold launchSpotReplacement.
  rewrite Ha. simpl. fold priced. rewrite Htypes. simpl.
  destruct err as [e|]; [reflexivity|].
  rewrite launch_from_bind.
  destruct (loop_run svc priced d FinalRecap types tr) as (reqs & Htr & Hsub & Hres).
  exists reqs. rewrite Htr.
  destruct (fst (launch_from svc tr (loop priced d FinalRecap types))) as [[res recap']|];
    simpl; [|auto].
  split; [reflexivity|]. split; [exact Hsub|]. split; [reflexivity|exact Hres].
Qed.

End LaunchLoop.

Section Mappings.
Variable strings_ToLower : string -> string.
Variable getPatchedUserDataForBeanstalk : option string -> option string.

(** X30.  The block-device mappings of a request.  [processLaunchConfiguration]
    replaces them by the converted mappings of the launch configuration
    when these are not empty, and leaves them as they are otherwise;
    [processLaunchTemplate], when it returns no error, replaces them by the
    converted mappings of the one launch template version in the answer,
    empty or not. *)
Theorem template_mappings_replace_and_configuration_mappings_add
    (i : instance.t) (d : launchData.t) (retval out : sdk.RunInstancesInput.t) :
  (processLaunchConfiguration strings_ToLower getPatchedUserDataForBeanstalk i d retval
     = Ok out ->
   exists a lc bds,
     instance.asg i = Some a /\ autoScalingGroup.launchConfiguration a = Some lc /\
     convertLaunchConfigurationBlockDeviceMappings i (launchConfiguration.BlockDeviceMappings lc)
       = Ok bds /\
     sdk.RunInstancesInput.BlockDeviceMappings out =
       match bds with
       | [] => sdk.RunInstancesInput.BlockDeviceMappings retval
       | _ :: _ => bds
       end) /\
  (forall svc tr,
     fst (launch_from svc tr (processLaunchTemplate i d retval)) = Ok (out, None) ->
     exists a lt res version data,
       instance.asg i = Some a /\ autoScalingGroup.LaunchTemplate a = Some lt /\
       svc _ tr (DescribeLaunchTemplateVersions
                   (autoscaling.LaunchTemplateSpecification.LaunchTemplateId lt)
                   [autoscaling.LaunchTemplateSpecification.Version lt]) = (res, None) /\
       sdk.DescribeLaunchTemplateVersionsOutput.LaunchTemplateVersions res = [version] /\
       sdk.LaunchTemplateVersion.LaunchTemplateData version = Some data /\
       convertLaunchTemplateBlockDeviceMappings i
         (sdk.ResponseLaunchTemplateData.BlockDeviceMappings data)
         = Ok (sdk.RunInstancesInput.BlockDeviceMappings out)).
Proof.
  split.
  - unfold processLaunchConfiguration.
    destruct (instance.asg i) as [a|] eqn:Ha; simpl; [|discriminate].
    destruct (autoScalingGroup.launchConfiguration a) as [w|] eqn:Hw; simpl; [|discriminate].
    destruct (convertLaunchConfigurationBlockDeviceMappings i _) as [BDMs|] eqn:E; simpl;
      [|discriminate].
    intros [= <-]. exists a, w, BDMs. split; [reflexivity|]. split; [exact Hw|].
    split; [exact E|].
    destruct BDMs as [|b BDMs]; simpl;
      destruct (sdk.LaunchConfiguration.AssociatePublicIpAddress _), (launchData.SubnetId d);
      destruct (sdk.LaunchConfiguration.InstanceMonitoring _); simpl.
    all: try reflexivity.
    all: destruct (String.eqb (strings_ToLower _) "true");
      (destruct (sdk.LaunchConfiguration.IamInstanceProfile _) as [p|];
         [destruct (strings_HasPrefix p "arn:aws:iam:")|]);
      (destruct (sdk.LaunchConfiguration.KeyName _) as [k|];
         [destruct (negb (String.eqb k ""))|]); reflexivity.
  - intros svc tr. unfold processLaunchTemplate.
    destruct (instance.asg i) as [a|] eqn:Ha; simpl; [|discriminate].
    destruct (autoScalingGroup.LaunchTemplate a) as [lt|] eqn:Hlt; simpl; [|discriminate].
    unfold getlaunchTemplate. simpl.
    destruct (svc _ tr _) as [res [err|]] eqn:Hsvc; simpl.
    { destruct (autoscaling.LaunchTemplateSpecification.LaunchTemplateId lt),
        (autoscaling.LaunchTemplateSpecification.Version lt); simpl; discriminate. }
    destruct (sdk.DescribeLaunchTemplateVersionsOutput.LaunchTemplateVersions res)
      as [|v [|v' vs]] eqn:Hv; simpl; try discriminate.
    2:{ destruct (Pos.succ (Pos.of_succ_nat (length vs))) eqn:P; simpl; try discriminate.
        now apply Pos.succ_not_1 in P. }
    destruct (sdk.LaunchTemplateVersion.LaunchTemplateData v) as [data|] eqn:Hd; simpl;
      [|discriminate].
    destruct (convertLaunchTemplateBlockDeviceMappings i _) as [bds|] eqn:Hb; simpl;
      [|discriminate].
    intros H. exists a, lt, res, v, data. rewrite Hb.
    split; [reflexivity|]. split; [exact Hlt|]. split; [exact Hsvc|]. split; [exact Hv|].
    split; [exact Hd|]. f_equal.
    destruct (Z.of_nat (length (sdk.ResponseLaunchTemplateData.NetworkInterfaces data)) >? 0)%Z;
      simpl in H; injection H as <-; [|reflexivity].
    now rewrite appended_interfaces.
Qed.

End Mappings.

(** ** The properties above at the scenarios *)

(** The happy path: [m5a.large] is the one catalog entry that passes. *)
Lemma returned_types_are_the_compatible_ones_witness :
  sort_Slice_contract scenario.stableSort /\
  instance.asg scenario.happySource = Some scenario.web /\
  getCompatibleIn scenario.stableSort scenario.happySource [] []
    = Ok ([scenario.m5a_large], None) /\
  (In scenario.m5a_large [scenario.m5a_large] <->
   exists k,
     region.instanceTypeInformation (instance.region scenario.happySource) !! k
       = Some scenario.m5a_large /\
     isCompatible scenario.literalMatch scenario.happySource [] []
       (attachedVolumesNumber scenario.noVolumes scenario.noVolumes
          scenario.happySource scenario.web)
       scenario.m5a_large (calculatePrice scenario.happySource scenario.m5a_large) = true).
Proof.
  split; [exact stableSort_contract|]. split; [reflexivity|].
  split; [vm_compute; reflexivity|].
  apply (returned_types_are_the_compatible_ones scenario.literalMatch scenario.stableSort
           scenario.noVolumes scenario.noVolumes stableSort_contract
           scenario.happySource [] [] scenario.web [scenario.m5a_large] None
           scenario.m5a_large); [reflexivity|vm_compute; reflexivity].
Defined.

(** The happy path does not panic: its source has a group. *)
Lemma getCompatible_outcomes_witness :
  sort_Slice_contract scenario.stableSort /\
  (getCompatibleIn scenario.stableSort scenario.happySource [] [] = Panic <->
   instance.asg scenario.happySource = None).
Proof.
  split; [exact stableSort_contract|].
  exact (proj1 (getCompatible_outcomes scenario.literalMatch scenario.stableSort
                  scenario.noVolumes scenario.noVolumes stableSort_contract
                  scenario.happySource [] [])).
Defined.

(** A type that is both allowed and disallowed is allowed. *)
Lemma allowed_list_overrides_disallowed_witness :
  ["m5a.large"] <> [] /\
  getCompatibleIn scenario.stableSort scenario.happySource ["m5a.large"] ["m5a.large"]
    = getCompatibleIn scenario.stableSort scenario.happySource ["m5a.large"] [].
Proof.
  split; [discriminate|].
  apply (allowed_list_overrides_disallowed scenario.literalMatch scenario.stableSort
           scenario.noVolumes scenario.noVolumes scenario.happySource
           ["m5a.large"] ["m5a.large"] []). discriminate.
Defined.

(** A type priced in [eu-west-1b] only, for a source in [eu-west-1a]. *)
Lemma unavailable_in_zone_is_rejected_witness :
  sort_Slice_contract scenario.stableSort /\
  getCompatibleIn scenario.stableSort scenario.elsewhereSource [] [] = Ok ([scenario.m5a_large], None) /\
  ec2.Instance.EbsOptimized (instance.Instance scenario.elsewhereSource) <> Some true /\
  prices.spot (instanceTypeInformation.pricing scenario.elsewhere)
    !! instance.AvailabilityZone scenario.elsewhereSource = None /\
  ~ In scenario.elsewhere [scenario.m5a_large].
Proof.
  split; [exact stableSort_contract|]. split; [vm_compute; reflexivity|].
  split; [discriminate|]. split; [vm_compute; reflexivity|].
  apply (unavailable_in_zone_is_rejected scenario.literalMatch scenario.stableSort
           scenario.noVolumes scenario.noVolumes stableSort_contract
           scenario.elsewhereSource [] [] [scenario.m5a_large] None scenario.elsewhere).
  - vm_compute. reflexivity.
  - discriminate.
  - vm_compute. reflexivity.
Defined.

(** A source on an "Apple M1" has no candidate among three types. *)
Lemma unrecognised_processor_has_no_candidates_witness :
  instance.asg scenario.macSource = Some scenario.web /\
  isIntelCompatible "Apple M1" = false /\ isARM "Apple M1" = false /\
  getCompatibleIn scenario.stableSort scenario.macSource [] []
    = Ok ([], Some "no cheaper spot instance types could be found").
Proof.
  split; [reflexivity|]. split; [reflexivity|]. split; [reflexivity|].
  apply (unrecognised_processor_has_no_candidates scenario.literalMatch scenario.stableSort
           scenario.noVolumes scenario.noVolumes scenario.macSource [] [] scenario.web); reflexivity.
Defined.

(** The happy path at twice the price. *)
Lemma higher_price_keeps_candidates_witness :
  sort_Slice_contract scenario.stableSort /\
  (instance.price scenario.happySource <=? 0.25)%float = true /\
  getCompatibleIn scenario.stableSort scenario.happySource [] []
    = Ok ([scenario.m5a_large], None) /\
  getCompatibleIn scenario.stableSort (instance.set_price 0.25 scenario.happySource) [] []
    = Ok ([scenario.m5a_large], None) /\
  In scenario.m5a_large [scenario.m5a_large].
Proof.
  split; [exact stableSort_contract|]. split; [reflexivity|].
  split; [vm_compute; reflexivity|]. split; [vm_compute; reflexivity|].
  apply (higher_price_keeps_candidates scenario.literalMatch scenario.stableSort
           scenario.noVolumes scenario.noVolumes stableSort_contract
           scenario.happySource [] [] 0.25%float [scenario.m5a_large] [scenario.m5a_large]
           None None scenario.m5a_large).
  - reflexivity.
  - vm_compute. reflexivity.
  - vm_compute. reflexivity.
  - now left.
Defined.

(** The happy path's source against its own type. *)
Lemma own_type_is_storage_compatible_witness :
  is_nan (instanceTypeInformation.instanceStoreDeviceSize
            (instance.typeInfo scenario.happySource)) = false /\
  isStorageCompatible scenario.happySource (instance.typeInfo scenario.happySource)
    (attachedVolumesNumber scenario.noVolumes scenario.noVolumes
       scenario.happySource scenario.web) = true.
Proof.
  split; [reflexivity|].
  apply (own_type_is_storage_compatible scenario.noVolumes scenario.noVolumes
           scenario.happySource scenario.web). reflexivity.
Defined.

(** The tags of the replacement of [i-abc] in the group [web]. *)
Lemma replacement_tags_round_trip_witness :
  instance.asg scenario.happySource = Some scenario.web /\
  exists spec,
    generateTagsList scenario.happySource = Ok [spec] /\
    forall j, instance.Tags j = ec2.TagSpecification.Tags spec ->
      isLaunchedByAutoSpotting j = true /\
      getReplacementTargetASGName j = Some "web" /\
      getReplacementTargetInstanceID j = Some "i-abc" /\
      belongsToAnASG j = (false, None).
Proof.
  split; [reflexivity|].
  exact (replacement_tags_round_trip scenario.happySource scenario.web eq_refl).
Defined.

(** The source's [aws:autoscaling:groupName] tag is not passed on. *)
Lemma replacement_tags_carry_the_user_tags_witness :
  instance.asg scenario.happySource = Some scenario.web /\
  exists spec,
    generateTagsList scenario.happySource = Ok [spec] /\
    Forall (fun t => strings_HasPrefix (ec2.Tag.Key t) "aws:" = false)
           (ec2.TagSpecification.Tags spec).
Proof.
  split; [reflexivity|].
  destruct (replacement_tags_carry_the_user_tags scenario.happySource scenario.web eq_refl)
    as (spec & H & Hall & _).
  exists spec. split; [exact H|exact Hall].
Defined.

(** The happy path's source carries two tags, on different keys. *)
Lemma replacement_tag_keys_are_distinct_witness :
  instance.asg scenario.happySource = Some scenario.web /\
  NoDup (map ec2.Tag.Key (instance.Tags scenario.happySource)) /\
  ~ In "LaunchConfigurationName" (map ec2.Tag.Key (instance.Tags scenario.happySource)) /\
  exists spec,
    generateTagsList scenario.happySource = Ok [spec] /\
    NoDup (map ec2.Tag.Key (ec2.TagSpecification.Tags spec)).
Proof.
  assert (N : NoDup (map ec2.Tag.Key (instance.Tags scenario.happySource))).
  { repeat (apply NoDup_cons; split;
            [intros H%list_elem_of_In; simpl in H; intuition discriminate|]).
    apply NoDup_nil. exact I. }
  assert (L : ~ In "LaunchConfigurationName"
                (map ec2.Tag.Key (instance.Tags scenario.happySource))).
  { simpl. intuition discriminate. }
  split; [reflexivity|]. split; [exact N|]. split; [exact L|].
  apply (replacement_tag_keys_are_distinct scenario.happySource scenario.web eq_refl N).
  intros _ _. exact L.
Defined.

Local Abbreviation calm := (scenario.answers None scenario.registry None None).

(** The target of the swap scenarios is to be replaced. *)
Lemma only_unprotected_on_demand_members_are_replaced_witness :
  fst (run_from calm [] (shouldBeReplacedWithSpot scenario.target)) = Ok (true, scenario.target) /\
  isSpot scenario.target = false /\
  isProtectedFromScaleIn scenario.target = false.
Proof.
  assert (H : fst (run_from calm [] (shouldBeReplacedWithSpot scenario.target))
              = Ok (true, scenario.target)) by (vm_compute; reflexivity).
  split; [exact H|].
  destruct (only_unprotected_on_demand_members_are_replaced calm [] scenario.target
              scenario.target H) as (Hspot & Hscale & _).
  split; [exact Hspot|exact Hscale].
Defined.

(** The replacement itself carries no group tag. *)
Lemma instances_outside_enabled_groups_are_not_replaced_witness :
  fst (belongsToAnASG scenario.spot) = false /\
  run_from calm [] (shouldBeReplacedWithSpot scenario.spot) =
    (Ok (false, scenario.spot),
     [issue (DescribeInstanceAttribute "i-spot" "disableApiTermination")]).
Proof.
  split; [reflexivity|].
  apply (instances_outside_enabled_groups_are_not_replaced calm [] scenario.spot).
  left. reflexivity.
Defined.

(** The target is missing from the registry: one call, the scan. *)
Lemma swap_without_suspension_leaves_the_group_witness :
  existsb isSuspend
    (snd (run (scenario.answers None makeInstances None None)
              (swapWithGroupMember scenario.spot scenario.web))) = false /\
  existsb isGroupCall
    (snd (run (scenario.answers None makeInstances None None)
              (swapWithGroupMember scenario.spot scenario.web))) = false.
Proof.
  split; [reflexivity|].
  apply (swap_without_suspension_leaves_the_group
           (scenario.answers None makeInstances None None) scenario.spot scenario.web).
  reflexivity.
Defined.

(** Scenario 5: [i-abc] is terminated after the attach of [i-spot]. *)
Lemma swap_terminates_the_target_after_the_attach_witness :
  existsb isGroupTerminate (snd (run calm (swapWithGroupMember scenario.spot scenario.web)))
    = true /\
  exists od before after,
    getReplacementTargetInstanceID scenario.spot = Some od /\
    snd (run calm (swapWithGroupMember scenario.spot scenario.web))
      = before ++ [ issue (attachSpotInstance "web" "i-spot" true);
                    issue (terminateInstanceInAutoScalingGroup "web" od true true) ] ++ after /\
    calm _ before (attachSpotInstance "web" "i-spot" true) = None.
Proof.
  assert (H : existsb isGroupTerminate
                (snd (run calm (swapWithGroupMember scenario.spot scenario.web))) = true)
    by (vm_compute; reflexivity).
  split; [exact H|].
  destruct (swap_terminates_the_target_after_the_attach calm scenario.spot scenario.web H)
    as (od & before & after & Hod & Htr & Hans & _).
  exists od, before, after. split; [exact Hod|]. split; [exact Htr|exact Hans].
Defined.

(** Scenario 5 returns the target and no error. *)
Lemma swap_returns_the_target_or_an_error_witness :
  fst (run calm (swapWithGroupMember scenario.spot scenario.web))
    = Ok (Some scenario.target, None) /\
  ((Some scenario.target = None /\ @None error <> None) \/
   (Some scenario.target <> None /\ @None error = None /\
    existsb isAttach (snd (run calm (swapWithGroupMember scenario.spot scenario.web))) = true /\
    existsb isGroupTerminate
      (snd (run calm (swapWithGroupMember scenario.spot scenario.web))) = true)).
Proof.
  assert (H : fst (run calm (swapWithGroupMember scenario.spot scenario.web))
              = Ok (Some scenario.target, None)) by (vm_compute; reflexivity).
  split; [exact H|].
  exact (swap_returns_the_target_or_an_error calm scenario.spot scenario.web
           (Some scenario.target) None H).
Defined.

Local Abbreviation lost := (scenario.answers None scenario.strayRegistry None None).

(** The target carries no group tag: the replacement [i-spot] is
    terminated. *)
Lemma swap_terminates_the_spot_when_the_target_stays_witness :
  getReplacementTargetInstanceID scenario.spot = Some "i-abc" /\
  get "i-abc" scenario.strayRegistry = Some scenario.stray /\
  run lost (swapWithGroupMember scenario.spot scenario.web) =
    (Ok (None, Some "target instance i-abc should not be replaced with spot"),
     [ issue (scanInstance "i-abc");
       issue (DescribeInstanceAttribute "i-abc" "disableApiTermination");
       issue (TerminateInstances ["i-spot"]) ]).
Proof.
  split; [reflexivity|]. split; [vm_compute; reflexivity|].
  apply (swap_terminates_the_spot_when_the_target_stays lost scenario.spot scenario.web
           "i-abc" scenario.strayRegistry scenario.stray scenario.stray
           [ issue (scanInstance "i-abc");
             issue (DescribeInstanceAttribute "i-abc" "disableApiTermination") ]).
  - reflexivity.
  - reflexivity.
  - vm_compute. reflexivity.
  - vm_compute. reflexivity.
Defined.

Local Abbreviation requestFor i :=
  (createRunInstancesInput scenario.lowerCase scenario.formatPrice scenario.unpatched i scenario.launchFields).

(** The request for an [m5a.large] in a group with a launch configuration. *)
Lemma a_request_asks_for_one_spot_instance_witness :
  exists input,
    fst (launch_from (scenario.launches "m5a.large") [] (requestFor scenario.configuredSource "m5a.large" 0.125))
      = Ok (Some input, None) /\
    sdk.RunInstancesInput.InstanceType input = Some "m5a.large" /\
    sdk.RunInstancesInput.MinCount input = Some 1%Z /\
    sdk.RunInstancesInput.MaxCount input = Some 1%Z.
Proof.
  eexists. split; [vm_compute; reflexivity|].
  match goal with
  | |- sdk.RunInstancesInput.InstanceType ?input = _ /\ _ =>
      destruct (a_request_asks_for_one_spot_instance scenario.lowerCase scenario.formatPrice scenario.unpatched
                  (scenario.launches "m5a.large") [] scenario.configuredSource scenario.launchFields "m5a.large" 0.125
                  input None) as (_ & Hty & Hmin & Hmax & _)
  end.
  - vm_compute. reflexivity.
  - split; [exact Hty|]. split; [exact Hmin|exact Hmax].
Defined.

(** The same request: the launch configuration associates a public
    address, so the subnet is on the network interface. *)
Lemma a_request_places_the_instance_once_witness :
  exists input,
    fst (launch_from (scenario.launches "m5a.large") [] (requestFor scenario.configuredSource "m5a.large" 0.125))
      = Ok (Some input, None) /\
    placedInNetwork scenario.launchFields input.
Proof.
  eexists. split; [vm_compute; reflexivity|].
  match goal with
  | |- placedInNetwork _ ?input =>
      apply (a_request_places_the_instance_once scenario.lowerCase scenario.formatPrice scenario.unpatched
               (scenario.launches "m5a.large") [] scenario.configuredSource scenario.launchFields "m5a.large" 0.125
               input None)
  end.
  vm_compute. reflexivity.
Defined.

Local Abbreviation launchOf i :=
  (launchSpotReplacement scenario.lowerCase scenario.formatPrice scenario.unpatched scenario.noTypes scenario.noTypes
     scenario.literalMatch scenario.stableSort scenario.noVolumes scenario.noVolumes
     i scenario.launchFields ∅).

(** Seven candidates and a service that launches [t1] only: [t7] is asked
    for first, then [t1]. *)
Lemma the_launch_follows_the_ranking_witness :
  instance.asg scenario.sevenSource = Some scenario.web /\
  exists reqs,
    snd (launch_from (scenario.launches "t1") [] (launchOf scenario.sevenSource)) = [] ++ reqs /\
    sublist (omap requestedType reqs) ["t7"; "t1"; "t2"; "t3"; "t4"; "t5"; "t6"].
Proof.
  split; [reflexivity|].
  pose proof (the_launch_follows_the_ranking scenario.lowerCase scenario.formatPrice scenario.unpatched scenario.noTypes scenario.noTypes
                scenario.literalMatch scenario.stableSort scenario.noVolumes scenario.noVolumes
                (scenario.launches "t1") [] scenario.sevenSource scenario.launchFields ∅ scenario.web
                [scenario.t7; scenario.t1; scenario.t2; scenario.t3; scenario.t4;
                 scenario.t5; scenario.t6] None eq_refl) as H.
  cbv zeta in H. specialize (H ltac:(vm_compute; reflexivity)).
  destruct H as (reqs & Htr & Hsub & _). exists reqs. split; [exact Htr|exact Hsub].
Defined.
